(** * Seating allocation engine of the school administration backend

    Shallow embedding of the classroom seating routes:
    - [src/app/api/room-allocation/create/route.ts], first document:
      room creation (capacity ceiling, bench-size coercion);
    - [src/app/api/hostel/list/route.ts], second document: the
      automatic placement route ([isPositionAvailable], the grouped
      greedy scan, the all-or-nothing commit);
    - [src/app/api/room-allocation/create/route.ts], third document:
      the manual student assignment route, and second document: the
      teacher assignment route;
    - [src/app/api/hostel/list/route.ts], first document, and
      [src/app/api/hostel/booking/route.ts] with its [verify] route:
      the free cots of a hostel room, booking and payment
      verification.

    The handlers are embedded from the point where the session and the
    tenant ([schoolId]) have been resolved.  Persistence calls are
    recorded as a list of effects next to the response; a call that
    throws (the [catch] blocks) is outside the embedding.  Ids are
    strings and [null] is [None].  The numeric columns of stored rows
    are integers; the numeric fields of a request body are JSON values
    ([JsValue]), compared, rendered and parsed as JavaScript does, and
    a route whose run needs a conversion the embedding does not
    determine has no answer ([None]). *)

From Stdlib Require Import Ascii.
From stdpp Require Import gmap strings list fin_maps pretty sorting.

Open Scope Z_scope.

(** ** Position keys

    The routes key their [Map] by the template string
    [`${row}-${column}-${benchPosition}`]. *)

Definition posKey (row column benchPosition : Z) : string :=
  pretty row +:+ "-" +:+ pretty column +:+ "-" +:+ pretty benchPosition.

(** A decimal digit, as a character. *)
Definition isDigit (a : ascii) : Prop :=
  a ∈ ["0"; "1"; "2"; "3"; "4"; "5"; "6"; "7"; "8"; "9"]%char.

(** Strings made of digits only. *)
Fixpoint allDigits (s : string) : Prop :=
  match s with
  | EmptyString => True
  | String a s' => isDigit a ∧ allDigits s'
  end.

(** A rendered integer: an optional minus sign, then at least one digit. *)
Definition numeral (s : string) : Prop :=
  ∃ d, d ≠ "" ∧ allDigits d ∧ (s = d ∨ s = "-" +:+ d).


(** ** Data model *)

(** A row of the student table with the relations the routes include:
    [student.id], [student.classId] ([null] is [None]) and
    [student.user?.name]. *)
Record Student := {
  student_id : string;
  student_classId : option string;
  student_userName : option string
}.

(** A persisted seat row as the routes load it
    ([roomAllocation.studentAssignments] with [student] included):
    [existing.studentId], [existing.row], [existing.column],
    [existing.benchPosition] and [existing.student.classId]. *)
Record StudentAssignment := {
  sa_studentId : string;
  sa_row : Z;
  sa_column : Z;
  sa_benchPosition : Z;
  sa_classId : option string
}.

(** A seat row as the routes write it ([createMany] data). *)
Record Assignment := {
  studentId : string;
  row : Z;
  column : Z;
  benchPosition : Z
}.

(** The loaded room: its dimensions and its current seat rows. *)
Record RoomAllocation := {
  rows : Z;
  columns : Z;
  studentsPerBench : Z;
  studentAssignments : list StudentAssignment
}.

(** Value type of [positionMap]. *)
Record Occupant := {
  occ_studentId : string;
  occ_classId : option string
}.

Global Instance Student_eq_dec : EqDecision Student.
Proof. solve_decision. Defined.
Global Instance StudentAssignment_eq_dec : EqDecision StudentAssignment.
Proof. solve_decision. Defined.
Global Instance Assignment_eq_dec : EqDecision Assignment.
Proof. solve_decision. Defined.
Global Instance Occupant_eq_dec : EqDecision Occupant.
Proof. solve_decision. Defined.

(** Calls to the persistence layer and to the cache, in program order. *)
Inductive Effect :=
  | DeleteMany (studentIds : list string)
  | CreateMany (data : list Assignment)
  | CacheDel.

(** ** JavaScript containers used by the routes *)

(** [new Set(...)] over strings: insertion ordered, no duplicates. *)
Definition setAdd (x : string) (s : list string) : list string :=
  if bool_decide (x ∈ s) then s else s ++ [x].

Definition newSet (l : list string) : list string :=
  foldl (λ s x, setAdd x s) [] l.

(** JavaScript truthiness of a [string | null] value. *)
Definition truthy (v : option string) : bool :=
  match v with
  | Some s => negb (bool_decide (s = ""))
  | None => false
  end.

(** [prisma.student.findMany({ where: { id: { in: ids }, schoolId } })]
    over the tenant's student table: the rows whose id is listed, in
    table order. *)
Definition findMany (tbl : list Student) (ids : list string) : list Student :=
  filter (λ s, student_id s ∈ ids) tbl.

(** ** The constraint predicate *)

(** [adj && adj.classId === studentClassId && adj.classId] *)
Definition sameClass (adj : option Occupant) (studentClassId : option string) : bool :=
  match adj with
  | Some a => bool_decide (occ_classId a = studentClassId) && truthy (occ_classId a)
  | None => false
  end.

(** [isPositionAvailable] of the automatic route, over the current
    [positionMap]. *)
Definition isPositionAvailable (roomAllocation : RoomAllocation)
    (positionMap : gmap string Occupant)
    (row column benchPosition : Z) (studentClassId : option string) : bool :=
  let key := posKey row column benchPosition in
  if bool_decide (is_Some (positionMap !! key)) then false
  else if studentsPerBench roomAllocation =? 1 then
    let adjacentPositions :=
      [ posKey row (column - 1) 1;
        posKey row (column + 1) 1;
        posKey (row - 1) column 1;
        posKey (row + 1) column 1 ] in
    forallb (λ adjKey, negb (sameClass (positionMap !! adjKey) studentClassId))
      adjacentPositions
  else
    let sameBenchPos := if benchPosition =? 1 then 2 else 1 in
    let sameBenchKey := posKey row column sameBenchPos in
    if sameClass (positionMap !! sameBenchKey) studentClassId then false
    else
      let checkSide (checkCol : Z) :=
        sameClass (positionMap !! posKey row checkCol 1) studentClassId
        || sameClass (positionMap !! posKey row checkCol 2) studentClassId in
      if (1 <? column) && checkSide (column - 1) then false
      else if (column <? columns roomAllocation) && checkSide (column + 1) then false
      else true.

(** ** The automatic placement route *)

(** [positionMap] seeded from the existing rows, later rows overwriting
    earlier ones on the same key. *)
Definition buildPositionMap (existing : list StudentAssignment) : gmap string Occupant :=
  foldl (λ pm e,
           <[posKey (sa_row e) (sa_column e) (sa_benchPosition e) :=
               {| occ_studentId := sa_studentId e; occ_classId := sa_classId e |}]> pm)
        ∅ existing.

(** The loop that drops the seats of students about to be re-placed. *)
Definition removeReassigned (uniqueStudentIds existingStudentIds : list string)
    (positionMap : gmap string Occupant) : gmap string Occupant :=
  foldl (λ pm sid,
           if bool_decide (sid ∈ uniqueStudentIds)
           then filter (λ kv, occ_studentId kv.2 ≠ sid) pm
           else pm)
        positionMap existingStudentIds.

(** [studentsByClass]: a [Map] from class id to the students of that
    class, keys in first-seen order. *)
Fixpoint pushByClass (s : Student) (groups : list (option string * list Student))
    : list (option string * list Student) :=
  match groups with
  | [] => [(student_classId s, [s])]
  | (k, ss) :: rest =>
      if bool_decide (k = student_classId s) then (k, ss ++ [s]) :: rest
      else (k, ss) :: pushByClass s rest
  end.

Definition studentsByClass (students : list Student) : list (option string * list Student) :=
  foldl (λ groups s, pushByClass s groups) [] students.

(** The three nested scan loops: row outer, column middle, bench
    position inner, each ascending from 1. *)
Definition scanOrder (roomAllocation : RoomAllocation) : list (Z * Z * Z) :=
  r ← seqZ 1 (rows roomAllocation);
  c ← seqZ 1 (columns roomAllocation);
  b ← seqZ 1 (studentsPerBench roomAllocation);
  [(r, c, b)].

(** Mutable state of the placement loop. *)
Record Solver := {
  positionMap : gmap string Occupant;
  assignments : list Assignment;
  unassignedStudents : list Student
}.

(** One iteration of the per-student loop: the first available seat in
    scan order is taken and marked at once; with none, the student is
    pushed on [unassignedStudents]. *)
Definition placeStudent (roomAllocation : RoomAllocation) (st : Solver) (student : Student) : Solver :=
  match find (λ '(r, c, b),
                isPositionAvailable roomAllocation (positionMap st) r c b
                  (student_classId student))
             (scanOrder roomAllocation) with
  | Some (r, c, b) =>
      {| positionMap :=
           <[posKey r c b := {| occ_studentId := student_id student;
                                occ_classId := student_classId student |}]>
             (positionMap st);
         assignments :=
           assignments st ++
             [{| studentId := student_id student; row := r; column := c;
                 benchPosition := b |}];
         unassignedStudents := unassignedStudents st |}
  | None =>
      {| positionMap := positionMap st;
         assignments := assignments st;
         unassignedStudents := unassignedStudents st ++ [student] |}
  end.

(** The whole placement loop, class group by class group. *)
Definition solve (roomAllocation : RoomAllocation) (pm : gmap string Occupant)
    (students : list Student) : Solver :=
  foldl (placeStudent roomAllocation)
        {| positionMap := pm; assignments := []; unassignedStudents := [] |}
        (concat (map snd (studentsByClass students))).

(** Responses of the automatic route. *)
Inductive AutoResponse :=
  | AutoRequired                 (* 400, ids array missing or empty *)
  | AutoRoomNotFound             (* 404 *)
  | AutoSomeStudentsNotFound     (* 400 *)
  | AutoDuplicateStudents        (* 400 *)
  | AutoCouldNotAssign (count : nat) (unassigned : list string)
      (partialAssignments : list Assignment)   (* 400 *)
  | AutoAssigned (count : nat) (assigned : list Assignment).  (* 200 *)

Definition autoStatus (r : AutoResponse) : Z :=
  match r with
  | AutoRoomNotFound => 404
  | AutoAssigned _ _ => 200
  | _ => 400
  end.

(** [s.user?.name || s.id] *)
Definition nameOrId (s : Student) : string :=
  if truthy (student_userName s) then default "" (student_userName s)
  else student_id s.

(** The route body.  [tbl] is the tenant's student table,
    [found] the result of [prisma.roomAllocation.findFirst]. *)
Definition autoAssign (tbl : list Student) (found : option RoomAllocation)
    (studentIds : list string) : AutoResponse * list Effect :=
  if bool_decide (studentIds = []) then (AutoRequired, [])
  else match found with
  | None => (AutoRoomNotFound, [])
  | Some roomAllocation =>
    let students := findMany tbl studentIds in
    if bool_decide (length students ≠ length studentIds)
    then (AutoSomeStudentsNotFound, [])
    else
      let uniqueStudentIds := newSet studentIds in
      if bool_decide (length uniqueStudentIds ≠ length studentIds)
      then (AutoDuplicateStudents, [])
      else
        let existing := studentAssignments roomAllocation in
        let existingStudentIds := newSet (map sa_studentId existing) in
        let pm := removeReassigned uniqueStudentIds existingStudentIds
                    (buildPositionMap existing) in
        let st := solve roomAllocation pm students in
        if bool_decide (unassignedStudents st ≠ [])
        then (AutoCouldNotAssign (length (unassignedStudents st))
                (map nameOrId (unassignedStudents st)) (assignments st), [])
        else (AutoAssigned (length (assignments st)) (assignments st),
              [DeleteMany uniqueStudentIds]
              ++ (if bool_decide (assignments st ≠ []) then [CreateMany (assignments st)] else [])
              ++ [CacheDel])
  end.

(** ** JSON values and the coercions the routes apply to them

    The fields of a request body are whatever [req.json()] returns.
    A value is read here as far as the routes can tell values apart:
    numbers with an integer value, strings, booleans, [null] and absent
    fields are embedded exactly; the other values (numbers with a
    fraction, arrays, objects) are one constructor, on which only
    [ToBoolean] and [===] are determined.  A conversion that is not
    determined, or whose result is not an integer that a JavaScript
    number holds exactly, is [None]: the embedding then gives no
    answer. *)

Inductive JsValue :=
  | JsUndefined            (* the field is absent *)
  | JsNull
  | JsBool (b : bool)
  | JsNumber (n : Z)       (* a number with an integer value *)
  | JsString (s : string)
  | JsOther.               (* a number with a fraction, an array, an object *)

Global Instance JsValue_eq_dec : EqDecision JsValue.
Proof. solve_decision. Defined.

(** The result of a numeric conversion. *)
Inductive JsNum :=
  | Num (z : Z)
  | NaN.

Global Instance JsNum_eq_dec : EqDecision JsNum.
Proof. solve_decision. Defined.

(** [ToBoolean]: what [!v] and [v || w] test. *)
Definition toBoolean (v : JsValue) : bool :=
  match v with
  | JsUndefined | JsNull => false
  | JsBool b => b
  | JsNumber n => negb (n =? 0)
  | JsString s => negb (bool_decide (s = ""))
  | JsOther => true
  end.

Definition charCode (a : ascii) : Z := Z.of_N (N_of_ascii a).

(** The white space of [StrWhiteSpaceChar] below U+0080: TAB, LF, VT,
    FF, CR and SP. *)
Definition isWhiteSpace (a : ascii) : bool :=
  let c := charCode a in ((9 <=? c) && (c <=? 13)) || (c =? 32).

Definition isAscii (a : ascii) : bool := charCode a <? 128.

(** The value of a digit in the given radix (letters in either case). *)
Definition digitValue (radix : Z) (a : ascii) : option Z :=
  let c := charCode a in
  let d := if (48 <=? c) && (c <=? 57) then c - 48
           else if (97 <=? c) && (c <=? 122) then c - 87
           else if (65 <=? c) && (c <=? 90) then c - 55
           else radix in
  if d <? radix then Some d else None.

(** The longest prefix of digits, most significant first, and the rest. *)
Fixpoint spanDigits (radix : Z) (l : list ascii) : list Z * list ascii :=
  match l with
  | [] => ([], [])
  | a :: l' =>
      match digitValue radix a with
      | Some d => let '(ds, rest) := spanDigits radix l' in (d :: ds, rest)
      | None => ([], l)
      end
  end.

Definition digitsValue (radix : Z) (ds : list Z) : Z :=
  foldl (λ acc d, acc * radix + d) 0 ds.

Fixpoint dropWhiteSpace (l : list ascii) : list ascii :=
  match l with
  | a :: l' => if isWhiteSpace a then dropWhiteSpace l' else l
  | [] => []
  end.

Definition trimWhiteSpace (l : list ascii) : list ascii :=
  rev (dropWhiteSpace (rev (dropWhiteSpace l))).

(** An integer as a JavaScript number holds it: exact up to 2^53. *)
Definition exactNum (z : Z) : option JsNum :=
  if Z.abs z <=? 2 ^ 53 then Some (Num z) else None.

(** A leading sign. *)
Definition splitSign (l : list ascii) : bool * list ascii :=
  match l with
  | "-"%char :: l' => (true, l')
  | "+"%char :: l' => (false, l')
  | _ => (false, l)
  end.

Definition signed (negative : bool) (z : Z) : Z := if negative then - z else z.

(** The prefixes [0x], [0o] and [0b] (in either case) of
    [NonDecimalIntegerLiteral]. *)
Definition radixPrefix (l : list ascii) : option (Z * list ascii) :=
  match l with
  | "0"%char :: p :: l' =>
      if bool_decide (p = "x"%char ∨ p = "X"%char) then Some (16, l')
      else if bool_decide (p = "o"%char ∨ p = "O"%char) then Some (8, l')
      else if bool_decide (p = "b"%char ∨ p = "B"%char) then Some (2, l')
      else None
  | _ => None
  end.

(** [StrUnsignedDecimalLiteral] apart from [Infinity]: digits with an
    optional fraction and an optional exponent. *)
Definition isDecimalLiteral (l : list ascii) : bool :=
  let '(d1, r1) := spanDigits 10 l in
  let '(fraction, r2) :=
    match r1 with
    | "."%char :: t => let '(d2, r2) := spanDigits 10 t in (Some d2, r2)
    | _ => (None, r1)
    end in
  let mantissa :=
    negb (bool_decide (d1 = []))
    || match fraction with Some d2 => negb (bool_decide (d2 = [])) | None => false end in
  let exponent :=
    match r2 with
    | [] => true
    | e :: t =>
        if bool_decide (e = "e"%char ∨ e = "E"%char) then
          let '(_, t') := splitSign t in
          let '(d3, r3) := spanDigits 10 t' in
          negb (bool_decide (d3 = [])) && bool_decide (r3 = [])
        else false
    end in
  mantissa && exponent.

(** [StringToNumber], on the characters of the string.  A string with
    a character from U+0080 on is left undetermined (the character may
    be white space), and so is a literal with a fraction or an
    exponent, and [Infinity]. *)
Definition stringToNumber (l : list ascii) : option JsNum :=
  if negb (forallb isAscii l) then None
  else
    let t := trimWhiteSpace l in
    if bool_decide (t = []) then Some (Num 0)
    else match radixPrefix t with
    | Some (radix, digits) =>
        let '(ds, rest) := spanDigits radix digits in
        if bool_decide (ds = []) || negb (bool_decide (rest = [])) then Some NaN
        else exactNum (digitsValue radix ds)
    | None =>
        let '(negative, body) := splitSign t in
        if bool_decide (body = String.list_ascii_of_string "Infinity") then None
        else
          let '(ds, rest) := spanDigits 10 body in
          if negb (bool_decide (ds = [])) && bool_decide (rest = [])
          then exactNum (signed negative (digitsValue 10 ds))
          else if isDecimalLiteral body then None
          else Some NaN
    end.

(** [ToNumber]. *)
Definition toNumber (v : JsValue) : option JsNum :=
  match v with
  | JsUndefined => Some NaN
  | JsNull => Some (Num 0)
  | JsBool b => Some (Num (if b then 1 else 0))
  | JsNumber n => Some (Num n)
  | JsString s => stringToNumber (String.list_ascii_of_string s)
  | JsOther => None
  end.

(** [parseInt(s)] for a string, without a radix argument: leading
    white space, a sign, the prefix [0x], then the longest run of
    digits; whatever follows is ignored. *)
Definition parseIntString (l : list ascii) : option JsNum :=
  let t := dropWhiteSpace l in
  match t with
  | a :: _ => if isAscii a then Some () else None
  | [] => Some ()
  end ≫= λ _,
  let '(negative, body) := splitSign t in
  let '(radix, digits) :=
    match body with
    | "0"%char :: p :: l' =>
        if bool_decide (p = "x"%char ∨ p = "X"%char) then (16, l') else (10, body)
    | _ => (10, body)
    end in
  let '(ds, _) := spanDigits radix digits in
  if bool_decide (ds = []) then Some NaN
  else exactNum (signed negative (digitsValue radix ds)).

(** [parseInt(v)]: the argument is first turned into a string.  An
    integer up to 2^53 is written in decimal digits and read back; the
    words [undefined], [null], [true] and [false] start with no
    digit. *)
Definition parseInt (v : JsValue) : option JsNum :=
  match v with
  | JsUndefined | JsNull | JsBool _ => Some NaN
  | JsNumber n => exactNum n
  | JsString s => parseIntString (String.list_ascii_of_string s)
  | JsOther => None
  end.

(** The text of a value inside a template literal.  Numbers are
    written in decimal digits, as JavaScript does below 10^21. *)
Definition toStringJs (v : JsValue) : option string :=
  match v with
  | JsUndefined => Some "undefined"
  | JsNull => Some "null"
  | JsBool b => Some (if b then "true" else "false")
  | JsNumber n => Some (pretty n)
  | JsString s => Some s
  | JsOther => None
  end.

Definition numToString (x : JsNum) : string :=
  match x with
  | Num z => pretty z
  | NaN => "NaN"
  end.

(** [v < n] and [v > n] against a number [n]: the value is converted
    to a number and a comparison with [NaN] is false. *)
Definition jsLt (v : JsValue) (n : Z) : option bool :=
  x ← toNumber v; Some (match x with Num z => z <? n | NaN => false end).

Definition jsGt (v : JsValue) (n : Z) : option bool :=
  x ← toNumber v; Some (match x with Num z => n <? z | NaN => false end).

(** [a || b] and [a && b] on tests that may be undetermined: the
    second operand is read only when the first does not decide. *)
Definition jsOr (a b : option bool) : option bool :=
  x ← a; if x : bool then Some true else b.

Definition jsAnd (a b : option bool) : option bool :=
  x ← a; if x : bool then b else Some false.

(** The text of [v - 1] inside a template literal. *)
Definition minusOneText (v : JsValue) : option string :=
  x ← toNumber v;
  Some (numToString (match x with Num z => Num (z - 1) | NaN => NaN end)).

(** The text of [v + 1] inside a template literal: [+] appends to a
    string and adds to every other value. *)
Definition plusOneText (v : JsValue) : option string :=
  match v with
  | JsString s => Some (s +:+ "1")
  | _ =>
      x ← toNumber v;
      Some (numToString (match x with Num z => Num (z + 1) | NaN => NaN end))
  end.

(** The product of two converted numbers. *)
Definition numMul (x y : JsNum) : JsNum :=
  match x, y with
  | Num a, Num b => Num (a * b)
  | _, _ => NaN
  end.

(** ** The manual student assignment route *)

(** One element of the request's [assignments] array, with its fields
    as the request gives them.  Student ids are strings. *)
Record ManualAssignment := {
  m_studentId : string;
  m_row : JsValue;
  m_column : JsValue;
  m_benchPosition : JsValue
}.

(** [benchPosition || 1] *)
Definition benchPosOf (benchPosition : JsValue) : JsValue :=
  if toBoolean benchPosition then benchPosition else JsNumber 1.

(** A key of [positionMap] from the texts of its three parts. *)
Definition keyText (row column benchPosition : string) : string :=
  row +:+ "-" +:+ column +:+ "-" +:+ benchPosition.

(** [`${row}-${column}-${benchPos}`] on values of the request. *)
Definition templateKey (row column benchPos : JsValue) : option string :=
  r ← toStringJs row; c ← toStringJs column; b ← toStringJs benchPos;
  Some (keyText r c b).

(** The seating rule a rejected tuple broke. *)
Inductive Rule :=
  | SingleSeatAdjacent    (* one student per bench: left, right, front, back *)
  | SameBench             (* two per bench: the other seat of the bench *)
  | SideBySide.           (* two per bench: a bench in the next column *)

(** Responses of the manual route. *)
Inductive ManualResponse :=
  | ManualRoomNotFound                                   (* 404 *)
  | ManualAssignedMultipleTimes (studentId : string)     (* 400 *)
  | ManualInvalidPosition (row column : JsValue)         (* 400 *)
  | ManualInvalidBenchPosition (benchPos : JsValue)      (* 400 *)
  | ManualPositionAlreadyAssigned (row column benchPos : JsValue)  (* 400 *)
  | ManualSomeStudentsNotFound                           (* 400 *)
  | ManualConstraint (studentId : string) (rule : Rule)  (* 400 *)
  | ManualAssigned.                                      (* 200 *)

Definition manualStatus (r : ManualResponse) : Z :=
  match r with
  | ManualRoomNotFound => 404
  | ManualAssigned => 200
  | _ => 400
  end.

(** The first loop over [assignments]: duplicate students, range and
    duplicate target seats, tuple by tuple, returning at the first
    failure.  [studentIds] and [positions] are the two [Set]s; on
    success the filled [studentIds] is returned.  The comparisons are
    made on the values of the request as they are. *)
Fixpoint validateAssignments (roomAllocation : RoomAllocation)
    (studentIds positions : list string) (l : list ManualAssignment)
    : option (ManualResponse + list string) :=
  match l with
  | [] => Some (inr studentIds)
  | a :: rest =>
      if bool_decide (m_studentId a ∈ studentIds)
      then Some (inl (ManualAssignedMultipleTimes (m_studentId a)))
      else
        let studentIds := setAdd (m_studentId a) studentIds in
        invalid ←
          jsOr (jsLt (m_row a) 1)
            (jsOr (jsGt (m_row a) (rows roomAllocation))
               (jsOr (jsLt (m_column a) 1)
                  (jsGt (m_column a) (columns roomAllocation))));
        if invalid : bool
        then Some (inl (ManualInvalidPosition (m_row a) (m_column a)))
        else
          let benchPos := benchPosOf (m_benchPosition a) in
          invalidBench ←
            jsOr (jsLt benchPos 1) (jsGt benchPos (studentsPerBench roomAllocation));
          if invalidBench : bool
          then Some (inl (ManualInvalidBenchPosition benchPos))
          else
            key ← templateKey (m_row a) (m_column a) benchPos;
            if bool_decide (key ∈ positions)
            then Some (inl (ManualPositionAlreadyAssigned (m_row a) (m_column a)
                              benchPos))
            else validateAssignments roomAllocation studentIds
                   (setAdd key positions) rest
  end.

(** [new Map(students.map(s => [s.id, s]))] *)
Definition studentMapOf (students : list Student) : gmap string Student :=
  foldl (λ m s, <[student_id s := s]> m) ∅ students.

(** The seating checks the manual route makes for one tuple against the
    current [positionMap]: the rule broken, if any.  The neighbour keys
    are built from the values of the request: [column - 1] is a
    number, [column + 1] appends to a string. *)
Definition requestViolation (roomAllocation : RoomAllocation)
    (positionMap : gmap string Occupant)
    (row column benchPos : JsValue) (studentClassId : option string)
    : option (option Rule) :=
  r ← toStringJs row;
  c ← toStringJs column;
  if studentsPerBench roomAllocation =? 1 then
    left ← minusOneText column;
    right ← plusOneText column;
    front ← minusOneText row;
    back ← plusOneText row;
    let adjacentPositions :=
      [ keyText r left "1";
        keyText r right "1";
        keyText front c "1";
        keyText back c "1" ] in
    Some (if forallb (λ adjKey, negb (sameClass (positionMap !! adjKey) studentClassId))
               adjacentPositions
          then None else Some SingleSeatAdjacent)
  else
    let sameBenchPos := if bool_decide (benchPos = JsNumber 1) then "2" else "1" in
    let sameBenchKey := keyText r c sameBenchPos in
    if sameClass (positionMap !! sameBenchKey) studentClassId
    then Some (Some SameBench)
    else
      let checkSide (checkCol : string) :=
        sameClass (positionMap !! keyText r checkCol "1") studentClassId
        || sameClass (positionMap !! keyText r checkCol "2") studentClassId in
      onLeft ← jsAnd (jsGt column 1) (checkSide <$> minusOneText column);
      if onLeft : bool then Some (Some SideBySide)
      else
        onRight ← jsAnd (jsLt column (columns roomAllocation))
                    (checkSide <$> plusOneText column);
        Some (if onRight : bool then Some SideBySide else None).

(** The second loop over [assignments]: each tuple is checked against
    [positionMap] and then written into it. *)
Fixpoint checkConstraints (roomAllocation : RoomAllocation)
    (studentMap : gmap string Student) (positionMap : gmap string Occupant)
    (l : list ManualAssignment) : option (ManualResponse + gmap string Occupant) :=
  match l with
  | [] => Some (inr positionMap)
  | a :: rest =>
      match studentMap !! m_studentId a with
      | None => checkConstraints roomAllocation studentMap positionMap rest
      | Some student =>
          let benchPos := benchPosOf (m_benchPosition a) in
          key ← templateKey (m_row a) (m_column a) benchPos;
          violation ← requestViolation roomAllocation positionMap (m_row a)
                        (m_column a) benchPos (student_classId student);
          match violation with
          | Some rule => Some (inl (ManualConstraint (m_studentId a) rule))
          | None =>
              checkConstraints roomAllocation studentMap
                (<[key := {| occ_studentId := m_studentId a;
                             occ_classId := student_classId student |}]> positionMap)
                rest
          end
      end
  end.

(** A value as an [Int] column takes it: an integer.  What the store
    does with another value is not part of the embedding. *)
Definition storedInt (x : option JsNum) : option Z :=
  match x with
  | Some (Num z) => Some z
  | _ => None
  end.

(** The row written for one tuple: [parseInt(assignment.row)],
    [parseInt(assignment.column)] and [assignment.benchPosition || 1]. *)
Definition toRow (a : ManualAssignment) : option Assignment :=
  row ← storedInt (parseInt (m_row a));
  column ← storedInt (parseInt (m_column a));
  benchPosition ← match benchPosOf (m_benchPosition a) with
                  | JsNumber n => Some n
                  | _ => None
                  end;
  Some {| studentId := m_studentId a; row := row; column := column;
          benchPosition := benchPosition |}.

(** The index the constraint loop starts from: every existing row. *)
Definition manualIndex (roomAllocation : RoomAllocation) : gmap string Occupant :=
  buildPositionMap (studentAssignments roomAllocation).

(** The route body, from the room lookup on, for a request that
    carries a room id and an array of tuples. *)
Definition assignStudents (tbl : list Student) (found : option RoomAllocation)
    (assignments : list ManualAssignment) : option (ManualResponse * list Effect) :=
  match found with
  | None => Some (ManualRoomNotFound, [])
  | Some roomAllocation =>
    validated ← validateAssignments roomAllocation [] [] assignments;
    match validated with
    | inl err => Some (err, [])
    | inr studentIdsArray =>
      let students := findMany tbl studentIdsArray in
      if bool_decide (length students ≠ length studentIdsArray)
      then Some (ManualSomeStudentsNotFound, [])
      else
        let studentMap := studentMapOf students in
        checked ← checkConstraints roomAllocation studentMap
                    (manualIndex roomAllocation) assignments;
        match checked with
        | inl err => Some (err, [])
        | inr _ =>
            data ← mapM toRow assignments;
            Some (ManualAssigned,
                  [DeleteMany studentIdsArray; CreateMany data; CacheDel])
        end
    end
  end.

(** *** The route on integer tuples

    A tuple whose row and column are numbers with an integer value and
    whose bench position, when given, is one too; [jsonOf] is the
    element of the request that carries these fields.  On such tuples
    the comparisons, keys and stored values of the route are those of
    the integers: the definitions below are the two loops and the
    route body read on integers, and the lemmas
    [validateAssignments_integers], [requestViolation_integers],
    [checkConstraints_integers] and [assignStudents_integers] show
    that the route computes them on [jsonOf]. *)
Record SeatTuple := {
  t_studentId : string;
  t_row : Z;
  t_column : Z;
  t_benchPosition : option Z
}.

Definition jsonOf (a : SeatTuple) : ManualAssignment :=
  {| m_studentId := t_studentId a;
     m_row := JsNumber (t_row a);
     m_column := JsNumber (t_column a);
     m_benchPosition := match t_benchPosition a with
                        | Some b => JsNumber b
                        | None => JsUndefined
                        end |}.

(** [benchPosition || 1] on an integer. *)
Definition tupleBenchPos (benchPosition : option Z) : Z :=
  match benchPosition with
  | Some b => if b =? 0 then 1 else b
  | None => 1
  end.

(** The first loop on integer tuples. *)
Fixpoint validateTuples (roomAllocation : RoomAllocation)
    (studentIds positions : list string) (l : list SeatTuple)
    : ManualResponse + list string :=
  match l with
  | [] => inr studentIds
  | a :: rest =>
      if bool_decide (t_studentId a ∈ studentIds)
      then inl (ManualAssignedMultipleTimes (t_studentId a))
      else
        let studentIds := setAdd (t_studentId a) studentIds in
        if (t_row a <? 1) || (rows roomAllocation <? t_row a)
           || (t_column a <? 1) || (columns roomAllocation <? t_column a)
        then inl (ManualInvalidPosition (JsNumber (t_row a)) (JsNumber (t_column a)))
        else
          let benchPos := tupleBenchPos (t_benchPosition a) in
          if (benchPos <? 1) || (studentsPerBench roomAllocation <? benchPos)
          then inl (ManualInvalidBenchPosition (JsNumber benchPos))
          else
            let key := posKey (t_row a) (t_column a) benchPos in
            if bool_decide (key ∈ positions)
            then inl (ManualPositionAlreadyAssigned (JsNumber (t_row a))
                        (JsNumber (t_column a)) (JsNumber benchPos))
            else validateTuples roomAllocation studentIds
                   (setAdd key positions) rest
  end.

(** The seating checks the manual route makes for one tuple at integer
    coordinates against the current [positionMap]: the rule broken, if
    any. *)
Definition manualViolation (roomAllocation : RoomAllocation)
    (positionMap : gmap string Occupant)
    (row column benchPos : Z) (studentClassId : option string) : option Rule :=
  if studentsPerBench roomAllocation =? 1 then
    let adjacentPositions :=
      [ posKey row (column - 1) 1;
        posKey row (column + 1) 1;
        posKey (row - 1) column 1;
        posKey (row + 1) column 1 ] in
    if forallb (λ adjKey, negb (sameClass (positionMap !! adjKey) studentClassId))
         adjacentPositions
    then None else Some SingleSeatAdjacent
  else
    let sameBenchPos := if benchPos =? 1 then 2 else 1 in
    let sameBenchKey := posKey row column sameBenchPos in
    if sameClass (positionMap !! sameBenchKey) studentClassId then Some SameBench
    else
      let checkSide (checkRow checkCol : Z) :=
        sameClass (positionMap !! posKey checkRow checkCol 1) studentClassId
        || sameClass (positionMap !! posKey checkRow checkCol 2) studentClassId in
      if (1 <? column) && checkSide row (column - 1) then Some SideBySide
      else if (column <? columns roomAllocation) && checkSide row (column + 1)
      then Some SideBySide
      else None.

(** The second loop on integer tuples. *)
Fixpoint checkTuples (roomAllocation : RoomAllocation)
    (studentMap : gmap string Student) (positionMap : gmap string Occupant)
    (l : list SeatTuple) : ManualResponse + gmap string Occupant :=
  match l with
  | [] => inr positionMap
  | a :: rest =>
      match studentMap !! t_studentId a with
      | None => checkTuples roomAllocation studentMap positionMap rest
      | Some student =>
          let benchPos := tupleBenchPos (t_benchPosition a) in
          let key := posKey (t_row a) (t_column a) benchPos in
          match manualViolation roomAllocation positionMap (t_row a) (t_column a)
                  benchPos (student_classId student) with
          | Some rule => inl (ManualConstraint (t_studentId a) rule)
          | None =>
              checkTuples roomAllocation studentMap
                (<[key := {| occ_studentId := t_studentId a;
                             occ_classId := student_classId student |}]> positionMap)
                rest
          end
      end
  end.

(** The row written for an integer tuple. *)
Definition tupleRow (a : SeatTuple) : Assignment :=
  {| studentId := t_studentId a; row := t_row a; column := t_column a;
     benchPosition := tupleBenchPos (t_benchPosition a) |}.

(** The route body on integer tuples. *)
Definition assignTuples (tbl : list Student) (found : option RoomAllocation)
    (assignments : list SeatTuple) : ManualResponse * list Effect :=
  match found with
  | None => (ManualRoomNotFound, [])
  | Some roomAllocation =>
    match validateTuples roomAllocation [] [] assignments with
    | inl err => (err, [])
    | inr studentIdsArray =>
      let students := findMany tbl studentIdsArray in
      if bool_decide (length students ≠ length studentIdsArray)
      then (ManualSomeStudentsNotFound, [])
      else
        let studentMap := studentMapOf students in
        match checkTuples roomAllocation studentMap
                (manualIndex roomAllocation) assignments with
        | inl err => (err, [])
        | inr _ =>
            (ManualAssigned,
             [DeleteMany studentIdsArray; CreateMany (map tupleRow assignments); CacheDel])
        end
    end
  end.

(** ** Room creation *)

(** The request body of room creation, with [rows], [columns] and
    [studentsPerBench] as the request gives them.  [req_roomName] is a
    string, empty when the field is absent; [req_classIds] is [None]
    when the field is absent or not an array. *)
Record CreateRequest := {
  req_roomName : string;
  req_rows : JsValue;
  req_columns : JsValue;
  req_studentsPerBench : JsValue;
  req_classIds : option (list string)
}.

(** The stored room configuration. *)
Record RoomConfig := {
  cfg_rows : Z;
  cfg_columns : Z;
  cfg_studentsPerBench : Z;
  cfg_classIds : list string
}.

Inductive CreateResponse :=
  | CreateRequired            (* 400, name, rows or columns missing *)
  | CreateTooSmall            (* 400, rows or columns below 1 *)
  | CreateCapacityExceeded    (* 400, more than 200 seats *)
  | CreateClassesNotFound     (* 400 *)
  | Created (room : RoomConfig).  (* 201 *)

Inductive CreateEffect :=
  | RoomCreate (room : RoomConfig)
  | RoomCacheDel.

(** [studentsPerBench === 2 ? 2 : 1] *)
Definition studentsPerBenchValue (studentsPerBench : JsValue) : Z :=
  if bool_decide (studentsPerBench = JsNumber 2) then 2 else 1.

(** The route body; [classTbl] holds the ids of the tenant's classes.
    The checks read [rows] and [columns] as the request gives them;
    what is stored is [parseInt(rows)] and [parseInt(columns)]. *)
Definition createRoomAllocation (classTbl : list string) (req : CreateRequest)
    : option (CreateResponse * list CreateEffect) :=
  if bool_decide (req_roomName req = "")
     || negb (toBoolean (req_rows req)) || negb (toBoolean (req_columns req))
  then Some (CreateRequired, [])
  else
    tooSmall ← jsOr (jsLt (req_rows req) 1) (jsLt (req_columns req) 1);
    if tooSmall : bool then Some (CreateTooSmall, [])
    else
      let studentsPerBenchValue := studentsPerBenchValue (req_studentsPerBench req) in
      r ← toNumber (req_rows req);
      c ← toNumber (req_columns req);
      let totalCapacity := numMul (numMul r c) (Num studentsPerBenchValue) in
      if match totalCapacity with Num z => 200 <? z | NaN => false end
      then Some (CreateCapacityExceeded, [])
      else
        let classIds := default [] (req_classIds req) in
        if bool_decide (classIds ≠ [])
           && bool_decide (length (filter (λ c, c ∈ classIds) classTbl) ≠ length classIds)
        then Some (CreateClassesNotFound, [])
        else
          rows ← storedInt (parseInt (req_rows req));
          columns ← storedInt (parseInt (req_columns req));
          let room := {| cfg_rows := rows; cfg_columns := columns;
                         cfg_studentsPerBench := studentsPerBenchValue;
                         cfg_classIds := classIds |} in
          Some (Created room, [RoomCreate room; RoomCacheDel]).

(** ** Persistence *)

(** [student.classId] of the student row with this id. *)
Definition classOf (tbl : list Student) (sid : string) : option string :=
  match find (λ s, bool_decide (student_id s = sid)) tbl with
  | Some s => student_classId s
  | None => None
  end.

(** A written row as a later load returns it, its student included. *)
Definition loadRow (tbl : list Student) (a : Assignment) : StudentAssignment :=
  {| sa_studentId := studentId a; sa_row := row a; sa_column := column a;
     sa_benchPosition := benchPosition a; sa_classId := classOf tbl (studentId a) |}.

(** Modelled from the spec: the persistence adapter ([prisma] is not
    part of the sources).  It is "a relational store exposing
    create/read/update/delete-many operations" that "supports bulk
    delete-by-student-ids and bulk insert"; the seat rows of one room
    are kept as a list. *)
Definition applyEffect (tbl : list Student) (stored : list StudentAssignment)
    (e : Effect) : list StudentAssignment :=
  match e with
  | DeleteMany ids => filter (λ a, sa_studentId a ∉ ids) stored
  | CreateMany data => stored ++ map (loadRow tbl) data
  | CacheDel => stored
  end.

Definition persist (tbl : list Student) (stored : list StudentAssignment)
    (effects : list Effect) : list StudentAssignment :=
  foldl (applyEffect tbl) stored effects.

(** ** Grid model *)

Definition coordOf (a : StudentAssignment) : Z * Z * Z :=
  (sa_row a, sa_column a, sa_benchPosition a).

Definition keyOf (p : Z * Z * Z) : string := posKey p.1.1 p.1.2 p.2.

(** [isInRange]: the coordinates the scan loops visit and the manual
    route accepts. *)
Definition isInRange (roomAllocation : RoomAllocation) (p : Z * Z * Z) : Prop :=
  1 ≤ p.1.1 ≤ rows roomAllocation
  ∧ 1 ≤ p.1.2 ≤ columns roomAllocation
  ∧ 1 ≤ p.2 ≤ studentsPerBench roomAllocation.

(** The coordinates whose occupant [isPositionAvailable] compares with
    the student's class, read off its two branches. *)
Definition adjacentCoordinates (roomAllocation : RoomAllocation) (p : Z * Z * Z)
    : list (Z * Z * Z) :=
  let '(row, column, benchPosition) := p in
  if studentsPerBench roomAllocation =? 1 then
    [ (row, column - 1, 1); (row, column + 1, 1);
      (row - 1, column, 1); (row + 1, column, 1) ]
  else
    [ (row, column, if benchPosition =? 1 then 2 else 1) ]
    ++ (if 1 <? column then [ (row, column - 1, 1); (row, column - 1, 2) ] else [])
    ++ (if column <? columns roomAllocation
        then [ (row, column + 1, 1); (row, column + 1, 2) ] else []).

(** The adjacency rule in the words of the specification, without
    reference to the grid bounds: with one student per bench the four
    seats left, right, front and back; with two per bench the other
    seat of the same bench and both seats of the benches in the
    neighbouring columns of the same row. *)
Definition specAdjacent (spb : Z) (p q : Z * Z * Z) : Prop :=
  let '(row, column, benchPosition) := p in
  if spb =? 1 then
    q ∈ [ (row, column - 1, 1); (row, column + 1, 1);
          (row - 1, column, 1); (row + 1, column, 1) ]
  else
    (q.1 = (row, column) ∧ q.2 ≠ benchPosition ∧ 1 ≤ q.2 ≤ 2)
    ∨ q ∈ [ (row, column - 1, 1); (row, column - 1, 2);
            (row, column + 1, 1); (row, column + 1, 2) ].

(** Two class ids conflict when they are equal and not null (the
    routes also let the empty id through, see [truthy]). *)
Definition conflicting (c1 c2 : option string) : Prop :=
  c1 = c2 ∧ truthy c1 = true.

(** The safety invariant on a set of seat rows: one occupant per
    coordinate, and no two adjacent seats with conflicting classes. *)
Definition uniqueSeats (stored : list StudentAssignment) : Prop :=
  NoDup (map coordOf stored).

Definition noAdjacentClassmates (spb : Z) (stored : list StudentAssignment) : Prop :=
  ∀ a b, a ∈ stored → b ∈ stored →
    specAdjacent spb (coordOf a) (coordOf b) →
    ¬ conflicting (sa_classId a) (sa_classId b).

Definition safe (roomAllocation : RoomAllocation) (stored : list StudentAssignment) : Prop :=
  uniqueSeats stored
  ∧ noAdjacentClassmates (studentsPerBench roomAllocation) stored.

(** ** The index as a view of the stored rows *)

Definition occOf (e : StudentAssignment) : Occupant :=
  {| occ_studentId := sa_studentId e; occ_classId := sa_classId e |}.

(** [pm] holds exactly the seat rows of [stored], each under the key of
    its coordinate. *)
Definition represents (pm : gmap string Occupant) (stored : list StudentAssignment) : Prop :=
  ∀ k o, pm !! k = Some o ↔ ∃ e, e ∈ stored ∧ k = keyOf (coordOf e) ∧ o = occOf e.

Definition allInRange (room : RoomAllocation) (stored : list StudentAssignment) : Prop :=
  ∀ e, e ∈ stored → isInRange room (coordOf e).

(** Invariant of the placement loop over the rows [kept] of the
    students that stay where they are: the map holds the kept rows and
    the rows placed so far, and together they are safe and on the
    grid. *)
Definition placementInv (tbl : list Student) (room : RoomAllocation)
    (kept : list StudentAssignment) (st : Solver) : Prop :=
  let stored := kept ++ map (loadRow tbl) (assignments st) in
  represents (positionMap st) stored
  ∧ safe room stored
  ∧ allInRange room stored.

(** ** Scenario data *)

(** Scenario A: one row of three single-seat benches, no one seated. *)
Definition scenarioA_room : RoomAllocation :=
  {| rows := 1; columns := 3; studentsPerBench := 1; studentAssignments := [] |}.

Definition scenarioA_students : list Student :=
  [ {| student_id := "S1"; student_classId := Some "classX"; student_userName := None |};
    {| student_id := "S2"; student_classId := Some "classX"; student_userName := None |};
    {| student_id := "S3"; student_classId := Some "classY"; student_userName := None |} ].

(** The same three students in a table that holds them in the order
    S3, S2, S1. *)
Definition scenarioA_students_reversed : list Student :=
  [ {| student_id := "S3"; student_classId := Some "classY"; student_userName := None |};
    {| student_id := "S2"; student_classId := Some "classX"; student_userName := None |};
    {| student_id := "S1"; student_classId := Some "classX"; student_userName := None |} ].

(** A full room: one seat, taken by the first student; the second
    cannot be placed. *)
Definition oneSeat_room : RoomAllocation :=
  {| rows := 1; columns := 1; studentsPerBench := 1; studentAssignments := [] |}.

(** Scenario D: 20 rows of 10 two-seat benches, 400 seats. *)
Definition scenarioD_request : CreateRequest :=
  {| req_roomName := "Hall"; req_rows := JsNumber 20; req_columns := JsNumber 10;
     req_studentsPerBench := JsNumber 2; req_classIds := None |}.

(** A request for 300 rows of 10 two-seat benches whose [rows] field
    is a string that starts with the digits. *)
Definition string_rows_request : CreateRequest :=
  {| req_roomName := "Hall"; req_rows := JsString "300abc"; req_columns := JsNumber 10;
     req_studentsPerBench := JsNumber 2; req_classIds := None |}.

(** One row of three single-seat benches, S1 (class X) seated at
    (1,1,1). *)
Definition occupied_room : RoomAllocation :=
  {| rows := 1; columns := 3; studentsPerBench := 1;
     studentAssignments :=
       [ {| sa_studentId := "S1"; sa_row := 1; sa_column := 1;
            sa_benchPosition := 1; sa_classId := Some "classX" |} ] |}.

(** S1 is moved one seat to the right. *)
Definition move_S1 : list ManualAssignment :=
  [ {| m_studentId := "S1"; m_row := JsNumber 1; m_column := JsNumber 2;
       m_benchPosition := JsNumber 1 |} ].

(** The same row with S1 (class X) at (1,1,1) and S3 (class Y) at
    (1,3,1). *)
Definition two_seated_room : RoomAllocation :=
  {| rows := 1; columns := 3; studentsPerBench := 1;
     studentAssignments :=
       [ {| sa_studentId := "S1"; sa_row := 1; sa_column := 1;
            sa_benchPosition := 1; sa_classId := Some "classX" |};
         {| sa_studentId := "S3"; sa_row := 1; sa_column := 3;
            sa_benchPosition := 1; sa_classId := Some "classY" |} ] |}.

(** S3 is moved onto the seat S1 holds. *)
Definition move_S3_onto_S1 : list ManualAssignment :=
  [ {| m_studentId := "S3"; m_row := JsNumber 1; m_column := JsNumber 1;
       m_benchPosition := JsNumber 1 |} ].

(** S3 is put on the seat S1 holds, then S2 (class X, as S1) next to it. *)
Definition seat_S3_on_S1_then_S2 : list ManualAssignment :=
  [ {| m_studentId := "S3"; m_row := JsNumber 1; m_column := JsNumber 1;
       m_benchPosition := JsNumber 1 |};
    {| m_studentId := "S2"; m_row := JsNumber 1; m_column := JsNumber 2;
       m_benchPosition := JsNumber 1 |} ].

(** The index the specification describes for the manual route: "all
    other existing assignments (i.e., excluding any prior assignment
    belonging to a student being reassigned in this same batch)". *)
Definition specManualIndex (roomAllocation : RoomAllocation)
    (batch : list ManualAssignment) : gmap string Occupant :=
  buildPositionMap
    (filter (λ e, sa_studentId e ∉ map m_studentId batch)
       (studentAssignments roomAllocation)).

(** The row pushed on [assignments] and the entry written into
    [positionMap] when [student] is placed. *)
Definition seat (student : Student) (r c b : Z) : Assignment :=
  {| studentId := student_id student; row := r; column := c; benchPosition := b |}.

Definition occupantOf (student : Student) : Occupant :=
  {| occ_studentId := student_id student; occ_classId := student_classId student |}.

(** * Further definitions *)

(** The order in which the scan loops visit seats: by row, then by
    column, then by bench position. *)
Definition scanBefore (p q : Z * Z * Z) : Prop :=
  p.1.1 < q.1.1
  ∨ (p.1.1 = q.1.1 ∧ (p.1.2 < q.1.2 ∨ (p.1.2 = q.1.2 ∧ p.2 < q.2))).


(** The seat of a written row. *)
Definition seatOf (a : Assignment) : Z * Z * Z :=
  (row a, column a, benchPosition a).


(** The seat a tuple of the manual request aims at. *)
Definition targetOf (a : SeatTuple) : Z * Z * Z :=
  (t_row a, t_column a, tupleBenchPos (t_benchPosition a)).


(** ** The teacher assignment route

    [src/app/api/room-allocation/create/route.ts], second document. *)

(** A row of the tenant's user table: [user.id] and [user.role]. *)
Record User := {
  user_id : string;
  user_role : string
}.

(** Calls of the teacher route to the store and the cache: the delete
    of all teacher rows of the room, the insert, the cache key. *)
Inductive TeacherEffect :=
  | TeacherDeleteAll
  | TeacherCreateMany (teacherIds : list string)
  | TeacherCacheDel.

Inductive TeacherResponse :=
  | TeacherRequired          (* 400, ids missing or not an array *)
  | TeacherDuplicate         (* 400 *)
  | TeacherRoomNotFound      (* 404 *)
  | TeacherSomeNotFound      (* 400 *)
  | TeachersAssigned.        (* 200 *)

Definition teacherStatus (r : TeacherResponse) : Z :=
  match r with
  | TeacherRoomNotFound => 404
  | TeachersAssigned => 200
  | _ => 400
  end.

(** The route body.  [users] is the tenant's user table, [found] the
    result of [prisma.roomAllocation.findFirst], [roomAllocationId] is
    the empty string when the field is absent, and [teacherIds] is
    [None] when the field is absent or not an array. *)
Definition assignTeachers (users : list User) (found : option RoomAllocation)
    (roomAllocationId : string) (teacherIds : option (list string))
    : TeacherResponse * list TeacherEffect :=
  if bool_decide (roomAllocationId = "") then (TeacherRequired, [])
  else match teacherIds with
  | None => (TeacherRequired, [])
  | Some teacherIds =>
    let uniqueTeacherIds := newSet teacherIds in
    if bool_decide (length uniqueTeacherIds ≠ length teacherIds)
    then (TeacherDuplicate, [])
    else match found with
    | None => (TeacherRoomNotFound, [])
    | Some _ =>
      let teachers :=
        filter (λ u, user_id u ∈ uniqueTeacherIds ∧ user_role u = "TEACHER") users in
      if bool_decide (length teachers ≠ length uniqueTeacherIds)
      then (TeacherSomeNotFound, [])
      else (TeachersAssigned,
            [TeacherDeleteAll]
            ++ (if bool_decide (uniqueTeacherIds ≠ [])
                then [TeacherCreateMany uniqueTeacherIds] else [])
            ++ [TeacherCacheDel])
    end
  end.

(** Modelled from the spec: the persistence adapter, for the teacher
    rows of one room (their teacher ids, in insertion order). *)
Definition applyTeacherEffect (stored : list string) (e : TeacherEffect) : list string :=
  match e with
  | TeacherDeleteAll => []
  | TeacherCreateMany ids => stored ++ ids
  | TeacherCacheDel => stored
  end.

Definition persistTeachers (stored : list string) (effects : list TeacherEffect)
    : list string :=
  foldl applyTeacherEffect stored effects.

(** ** Hostel cots

    [src/app/api/hostel/list/route.ts], first document (the list with
    the free cots of each room), [src/app/api/hostel/booking/route.ts]
    (booking a cot) and [src/app/api/hostel/booking/verify/route.ts]
    (payment verification).  Amounts are outside the embedding. *)

Inductive PaymentStatus := PENDING | PAID | FAILED.

Global Instance PaymentStatus_eq_dec : EqDecision PaymentStatus.
Proof. solve_decision. Defined.

(** A row of the cot booking table. *)
Record CotBooking := {
  cb_id : string;
  cb_roomId : string;
  cb_cotNumber : Z;
  cb_studentId : string;
  cb_paymentStatus : PaymentStatus;
  cb_razorpayOrderId : string
}.

Global Instance CotBooking_eq_dec : EqDecision CotBooking.
Proof. solve_decision. Defined.

(** A hostel room: [room.id] and [room.cotCount]. *)
Record HostelRoom := {
  hr_id : string;
  hr_cotCount : Z
}.

(** [room.bookings]: the booking rows of the room. *)
Definition bookingsOf (roomId : string) (bookings : list CotBooking) : list CotBooking :=
  filter (λ b, cb_roomId b = roomId) bookings.

(** [availableCots] of the list route:
    [Array.from({ length: room.cotCount }, (_, i) => i + 1)
       .filter((cot) => !bookedCots.includes(cot))]. *)
Definition availableCots (cotCount : Z) (bookings : list CotBooking) : list Z :=
  let bookedCots := map cb_cotNumber bookings in
  filter (λ cot, cot ∉ bookedCots) (seqZ 1 cotCount).

(** [availableCotsCount: room.cotCount - room._count.bookings] *)
Definition availableCotsCount (cotCount : Z) (bookings : list CotBooking) : Z :=
  cotCount - Z.of_nat (length bookings).

Inductive BookingEffect :=
  | BookingCreate (b : CotBooking)
  | BookingUpdateStatus (bookingId : string) (status : PaymentStatus)
  | BookingCacheDel.

Inductive BookingResponse :=
  | BookingRequired            (* 400, room id or cot number missing *)
  | BookingRoomNotFound        (* 404 *)
  | BookingCotOutOfRange       (* 400 *)
  | BookingCotTaken            (* 400, "This cot is already booked" *)
  | BookingStudentHasOne       (* 400, "You already have a hostel booking" *)
  | BookingOrderFailed         (* 500, the payment order could not be created *)
  | BookingCreated (b : CotBooking).  (* 201 *)

(** The booking route, for a signed-in student of one tenant.  [rooms]
    are the tenant's rooms and [bookings] the booking rows (a row
    carries the tenant of the student who made it, so the tenant filter
    of the student's own rows selects all of them); [roomId] is a
    string, empty when the field is absent, and [cotNumber] is the
    field as the request gives it: the range check reads it as it is,
    the store is queried and written with [parseInt(cotNumber)].
    [razorpayOrder] is the id of the payment order, [None] when
    creating it throws; [newId] is the id the store gives the new
    row. *)
Definition bookCot (rooms : list HostelRoom) (bookings : list CotBooking)
    (studentId roomId : string) (cotNumber : JsValue)
    (razorpayOrder : option string) (newId : string)
    : option (BookingResponse * list BookingEffect) :=
  if bool_decide (roomId = "") || negb (toBoolean cotNumber)
  then Some (BookingRequired, [])
  else match find (λ r, bool_decide (hr_id r = roomId)) rooms with
  | None => Some (BookingRoomNotFound, [])
  | Some room =>
    outOfRange ← jsOr (jsLt cotNumber 1) (jsGt cotNumber (hr_cotCount room));
    if outOfRange : bool then Some (BookingCotOutOfRange, [])
    else
      cot ← storedInt (parseInt cotNumber);
      match find (λ b, bool_decide (cb_roomId b = roomId)
                       && bool_decide (cb_cotNumber b = cot)) bookings with
      | Some _ => Some (BookingCotTaken, [])
      | None =>
        match find (λ b, bool_decide (cb_studentId b = studentId)) bookings with
        | Some _ => Some (BookingStudentHasOne, [])
        | None =>
          match razorpayOrder with
          | None => Some (BookingOrderFailed, [])
          | Some orderId =>
            let booking :=
              {| cb_id := newId; cb_roomId := roomId; cb_cotNumber := cot;
                 cb_studentId := studentId; cb_paymentStatus := PENDING;
                 cb_razorpayOrderId := orderId |} in
            Some (BookingCreated booking,
                  [BookingCreate booking; BookingCacheDel; BookingCacheDel])
          end
        end
      end
  end.

Inductive VerifyResponse :=
  | VerifyRequired             (* 400, a field is missing *)
  | VerifyBookingNotFound      (* 404 *)
  | VerifyInvalidSignature     (* 400 *)
  | VerifyUpdateRefused.       (* 500, from the [catch] *)

(** The payment verification route.  [generatedSignature] is the value
    of the HMAC of [`${razorpay_order_id}|${razorpay_payment_id}`]
    under the key secret.  The update of the branch for a matching
    signature names both [include] and [select] for [room]; Prisma
    Client refuses such a query before it reaches the database, so the
    handler ends in its [catch] with the row as it was, and the
    statements after the update are never reached. *)
Definition verifyPayment (bookings : list CotBooking) (studentId : string)
    (bookingId razorpay_order_id razorpay_payment_id razorpay_signature : string)
    (generatedSignature : string) : VerifyResponse * list BookingEffect :=
  if bool_decide (bookingId = "") || bool_decide (razorpay_order_id = "")
     || bool_decide (razorpay_payment_id = "") || bool_decide (razorpay_signature = "")
  then (VerifyRequired, [])
  else match find (λ b, bool_decide (cb_id b = bookingId)
                        && bool_decide (cb_studentId b = studentId)
                        && bool_decide (cb_razorpayOrderId b = razorpay_order_id)
                        && bool_decide (cb_paymentStatus b = PENDING)) bookings with
  | None => (VerifyBookingNotFound, [])
  | Some booking =>
    if bool_decide (generatedSignature ≠ razorpay_signature)
    then (VerifyInvalidSignature, [BookingUpdateStatus bookingId FAILED])
    else (VerifyUpdateRefused, [])
  end.

(** Modelled from the spec: the persistence adapter, for the booking
    table ([create] appends a row, [update] changes the status of the
    row with the given id). *)
Definition applyBookingEffect (bookings : list CotBooking) (e : BookingEffect)
    : list CotBooking :=
  match e with
  | BookingCreate b => bookings ++ [b]
  | BookingUpdateStatus bookingId status =>
      map (λ b, if bool_decide (cb_id b = bookingId)
                then {| cb_id := cb_id b; cb_roomId := cb_roomId b;
                        cb_cotNumber := cb_cotNumber b; cb_studentId := cb_studentId b;
                        cb_paymentStatus := status;
                        cb_razorpayOrderId := cb_razorpayOrderId b |}
                else b) bookings
  | BookingCacheDel => bookings
  end.

Definition persistBookings (bookings : list CotBooking) (effects : list BookingEffect)
    : list CotBooking :=
  foldl applyBookingEffect bookings effects.


(** A booking table in which no cot of a room and no student occurs in
    two rows, and every row is for a cot of an existing room. *)
Definition consistentBookings (rooms : list HostelRoom) (bookings : list CotBooking)
    : Prop :=
  NoDup (map (λ b, (cb_roomId b, cb_cotNumber b)) bookings)
  ∧ NoDup (map cb_studentId bookings)
  ∧ ∀ b, b ∈ bookings →
      ∃ room, room ∈ rooms ∧ hr_id room = cb_roomId b
              ∧ 1 ≤ cb_cotNumber b ≤ hr_cotCount room.


(** A request to one of the two booking routes, with the values the
    route reads from its environment, and the booking table after the
    route has served it. *)
Inductive BookingRequest :=
  | BookRequest (studentId roomId : string) (cotNumber : JsValue)
      (razorpayOrder : option string) (newId : string)
  | VerifyRequest (studentId bookingId razorpay_order_id razorpay_payment_id
      razorpay_signature generatedSignature : string).

Definition serveBooking (rooms : list HostelRoom) (bookings : list CotBooking)
    (request : BookingRequest) : option (list CotBooking) :=
  match request with
  | BookRequest studentId roomId cotNumber razorpayOrder newId =>
      result ← bookCot rooms bookings studentId roomId cotNumber razorpayOrder newId;
      Some (persistBookings bookings result.2)
  | VerifyRequest studentId bookingId order payment signature generated =>
      Some (persistBookings bookings
              (verifyPayment bookings studentId bookingId order payment signature
                 generated).2)
  end.

(** The table after a sequence of requests. *)
Definition serveBookings (rooms : list HostelRoom) (bookings : list CotBooking)
    (requests : list BookingRequest) : option (list CotBooking) :=
  foldl (λ table request, bookings ← table; serveBooking rooms bookings request)
    (Some bookings) requests.

(** A request whose cot number, if it has one, is a number with an
    integer value. *)
Definition integerCot (request : BookingRequest) : Prop :=
  match request with
  | BookRequest _ _ cotNumber _ _ => ∃ n, cotNumber = JsNumber n
  | VerifyRequest _ _ _ _ _ _ => True
  end.

(** * Properties *)

(** ** Position keys are injective *)

Section key_rendering.

Lemma pretty_N_char_digit x : isDigit (pretty_N_char x).
Proof.
  unfold pretty_N_char, isDigit.
  repeat case_match; set_solver.
Qed.

Lemma pretty_N_go_digits x :
  ∀ s, allDigits s → allDigits (pretty_N_go x s).
Proof.
  induction (N.lt_wf_0 x) as [x _ IH]; intros s Hs.
  destruct (decide (x = 0)%N) as [->|Hx].
  - by rewrite pretty_N_go_0.
  - rewrite pretty_N_go_step by lia.
    apply IH; [apply N.div_lt; lia|].
    split; [apply pretty_N_char_digit | done].
Qed.

Lemma pretty_N_go_nonempty x :
  ∀ s, (0 < x)%N ∨ s ≠ "" → pretty_N_go x s ≠ "".
Proof.
  induction (N.lt_wf_0 x) as [x _ IH]; intros s Hs.
  destruct (decide (x = 0)%N) as [->|Hx].
  - rewrite pretty_N_go_0. destruct Hs; [lia | done].
  - rewrite pretty_N_go_step by lia.
    apply IH; [apply N.div_lt; lia|]. by right.
Qed.

Lemma pretty_N_digits (x : N) : pretty x ≠ "" ∧ allDigits (pretty x).
Proof.
  unfold pretty, pretty_N. case_decide.
  - split; [done|]. simpl. split; [|done]. unfold isDigit. set_solver.
  - split.
    + apply pretty_N_go_nonempty. left. lia.
    + by apply pretty_N_go_digits.
Qed.

Lemma pretty_Z_numeral (z : Z) : numeral (pretty z).
Proof.
  destruct z as [|p|p]; unfold pretty, pretty_Z.
  - exists "0". repeat split; [done| |by left]. unfold isDigit. set_solver.
  - exists (pretty (N.pos p)).
    destruct (pretty_N_digits (N.pos p)). repeat split; [done..|by left].
  - exists (pretty (N.pos p)).
    destruct (pretty_N_digits (N.pos p)). repeat split; [done..|by right].
Qed.

Lemma dash_not_digit : ¬ isDigit "-"%char.
Proof.
  unfold isDigit. intros H.
  repeat (apply elem_of_cons in H as [H|H]; [discriminate|]).
  by apply elem_of_nil in H.
Qed.

(** Two digit strings followed by a dash and a rest: the digit strings
    and the rests agree. *)
Lemma digits_dash_split d1 :
  ∀ d2 t1 t2,
    allDigits d1 → allDigits d2 →
    d1 +:+ "-" +:+ t1 = d2 +:+ "-" +:+ t2 → d1 = d2 ∧ t1 = t2.
Proof.
  induction d1 as [|a d1 IH]; intros [|b d2] t1 t2 H1 H2 Heq; simpl in *.
  - by simplify_eq.
  - simplify_eq. destruct H2 as [H2 _]. by destruct dash_not_digit.
  - simplify_eq. destruct H1 as [H1 _]. by destruct dash_not_digit.
  - injection Heq as -> Heq.
    destruct H1 as [_ H1], H2 as [_ H2].
    destruct (IH _ _ _ H1 H2 Heq) as [-> ->]. done.
Qed.

Lemma numeral_dash_split s1 s2 t1 t2 :
  numeral s1 → numeral s2 →
  s1 +:+ "-" +:+ t1 = s2 +:+ "-" +:+ t2 → s1 = s2 ∧ t1 = t2.
Proof.
  intros (d1 & Hne1 & Hd1 & Hs1) (d2 & Hne2 & Hd2 & Hs2) Heq.
  destruct Hs1 as [->| ->], Hs2 as [->| ->].
  - by apply digits_dash_split.
  - destruct d1 as [|a d1]; [done|]. simpl in *.
    injection Heq as -> _. destruct Hd1 as [Hd1 _].
    by destruct dash_not_digit.
  - destruct d2 as [|a d2]; [done|]. simpl in *.
    injection Heq as <- _. destruct Hd2 as [Hd2 _].
    by destruct dash_not_digit.
  - simpl in Heq. injection Heq as Heq.
    destruct (digits_dash_split _ _ _ _ Hd1 Hd2 Heq) as [-> ->]. done.
Qed.

(** The key determines the coordinate. *)
Lemma posKey_inj r1 c1 b1 r2 c2 b2 :
  posKey r1 c1 b1 = posKey r2 c2 b2 → r1 = r2 ∧ c1 = c2 ∧ b1 = b2.
Proof.
  unfold posKey. intros Heq.
  apply numeral_dash_split in Heq as [Hr Heq]; [|apply pretty_Z_numeral..].
  apply numeral_dash_split in Heq as [Hc Hb]; [|apply pretty_Z_numeral..].
  split_and!; by apply (inj pretty).
Qed.

End key_rendering.

(** ** Sets built by [new Set] *)

Section js_sets.

Lemma setAdd_old x s : x ∈ s → setAdd x s = s.
Proof. intros. unfold setAdd. by rewrite bool_decide_eq_true_2. Qed.

Lemma setAdd_new x s : x ∉ s → setAdd x s = s ++ [x].
Proof. intros. unfold setAdd. by rewrite bool_decide_eq_false_2. Qed.

Lemma NoDup_snoc (x : string) s : NoDup s → x ∉ s → NoDup (s ++ [x]).
Proof.
  intros Hs Hx. apply NoDup_app. split_and!; [done| |apply NoDup_singleton].
  intros z Hz ->%list_elem_of_singleton. done.
Qed.

Lemma newSet_acc_elem x l :
  ∀ acc, x ∈ foldl (λ s y, setAdd y s) acc l ↔ x ∈ acc ∨ x ∈ l.
Proof.
  induction l as [|y l IH]; intros acc; simpl.
  - rewrite elem_of_nil. tauto.
  - rewrite IH. destruct (decide (y ∈ acc)) as [Hy|Hy].
    + rewrite setAdd_old by done. rewrite elem_of_cons. split; [tauto|].
      intros [?|[->|?]]; tauto.
    + rewrite setAdd_new by done.
      rewrite elem_of_app, !elem_of_cons, elem_of_nil. tauto.
Qed.

Lemma elem_of_newSet x l : x ∈ newSet l ↔ x ∈ l.
Proof.
  unfold newSet. rewrite newSet_acc_elem, elem_of_nil. tauto.
Qed.

Lemma newSet_acc_NoDup l :
  ∀ acc, NoDup acc → NoDup (foldl (λ s y, setAdd y s) acc l).
Proof.
  induction l as [|y l IH]; intros acc Hacc; simpl; [done|].
  apply IH. destruct (decide (y ∈ acc)).
  - by rewrite setAdd_old.
  - rewrite setAdd_new by done. by apply NoDup_snoc.
Qed.

Lemma NoDup_newSet l : NoDup (newSet l).
Proof. apply newSet_acc_NoDup, NoDup_nil_2. Qed.

Lemma newSet_acc_length l :
  ∀ acc, (length (foldl (λ s y, setAdd y s) acc l) ≤ length acc + length l)%nat.
Proof.
  induction l as [|y l IH]; intros acc; simpl; [lia|].
  etrans; [apply IH|]. destruct (decide (y ∈ acc)).
  - rewrite setAdd_old by done. lia.
  - rewrite setAdd_new, length_app by done. simpl. lia.
Qed.

(** With a repeated element the set is strictly shorter than the
    array it was built from. *)
Lemma newSet_acc_length_dup l :
  ∀ acc, ¬ NoDup (acc ++ l) → NoDup acc →
    (length (foldl (λ s y, setAdd y s) acc l) < length acc + length l)%nat.
Proof.
  induction l as [|y l IH]; intros acc Hdup Hacc; simpl.
  - rewrite app_nil_r in Hdup. done.
  - destruct (decide (y ∈ acc)) as [Hy|Hy].
    + rewrite setAdd_old by done.
      pose proof (newSet_acc_length l acc). lia.
    + rewrite setAdd_new by done.
      specialize (IH (acc ++ [y])). rewrite length_app in IH. simpl in IH.
      enough (length (foldl (λ s z, setAdd z s) (acc ++ [y]) l)
              < length acc + 1 + length l)%nat by lia.
      apply IH.
      * by rewrite <- app_assoc.
      * by apply NoDup_snoc.
Qed.

Lemma newSet_acc_id l :
  ∀ acc, NoDup (acc ++ l) → foldl (λ s y, setAdd y s) acc l = acc ++ l.
Proof.
  induction l as [|y l IH]; intros acc Hnd; simpl.
  - by rewrite app_nil_r.
  - destruct (decide (y ∈ acc)) as [Hy|Hy].
    + apply NoDup_app in Hnd as (_ & Hnd & _).
      destruct (Hnd y Hy). left.
    + rewrite setAdd_new by done.
      rewrite IH; rewrite <- app_assoc; done.
Qed.

Lemma newSet_id l : NoDup l → newSet l = l.
Proof. intros. by apply (newSet_acc_id l []). Qed.

Lemma newSet_length_iff l : length (newSet l) = length l ↔ NoDup l.
Proof.
  split.
  - intros Hlen. destruct (decide (NoDup l)) as [|Hdup]; [done|].
    pose proof (newSet_acc_length_dup l [] Hdup (NoDup_nil_2)) as Hlt.
    unfold newSet in Hlen. simpl in Hlt. lia.
  - intros ->%newSet_id. done.
Qed.

End js_sets.

(** ** Steps of the placement loop *)

Section solver_steps.

Lemma sameClass_None c : sameClass None c = false.
Proof. done. Qed.

Lemma sameClass_same s x :
  x ≠ "" →
  sameClass (Some {| occ_studentId := s; occ_classId := Some x |}) (Some x) = true.
Proof.
  intros. unfold sameClass; simpl.
  rewrite bool_decide_eq_true_2 by done. by rewrite bool_decide_eq_false_2.
Qed.

Lemma sameClass_diff s x y :
  x ≠ y → sameClass (Some {| occ_studentId := s; occ_classId := x |}) y = false.
Proof. intros. unfold sameClass; simpl. by rewrite bool_decide_eq_false_2. Qed.

Lemma taken_None {A} : bool_decide (is_Some (@None A)) = false.
Proof. done. Qed.

Lemma taken_Some {A} (a : A) : bool_decide (is_Some (Some a)) = true.
Proof. done. Qed.

Lemma pushByClass_nil s : pushByClass s [] = [(student_classId s, [s])].
Proof. done. Qed.

Lemma pushByClass_same s k ss rest :
  student_classId s = k →
  pushByClass s ((k, ss) :: rest) = (k, ss ++ [s]) :: rest.
Proof. intros. simpl. by rewrite bool_decide_eq_true_2. Qed.

Lemma pushByClass_other s k ss rest :
  student_classId s ≠ k →
  pushByClass s ((k, ss) :: rest) = (k, ss) :: pushByClass s rest.
Proof. intros. simpl. by rewrite bool_decide_eq_false_2. Qed.

(** The scan stops at the first available seat. *)
Lemma placeStudent_take room st s pre r c b post :
  scanOrder room = pre ++ (r, c, b) :: post →
  Forall (λ p, isPositionAvailable room (positionMap st) p.1.1 p.1.2 p.2
                 (student_classId s) = false) pre →
  isPositionAvailable room (positionMap st) r c b (student_classId s) = true →
  placeStudent room st s =
    {| positionMap := <[posKey r c b := occupantOf s]> (positionMap st);
       assignments := assignments st ++ [seat s r c b];
       unassignedStudents := unassignedStudents st |}.
Proof.
  intros Hscan Hpre Hok. unfold placeStudent. rewrite Hscan.
  clear Hscan. induction Hpre as [|[[r' c'] b'] pre Hp _ IH]; simpl in *.
  - by rewrite Hok.
  - by rewrite Hp.
Qed.

(** With no available seat the student is reported, nothing else
    changes. *)
Lemma placeStudent_none room st s :
  Forall (λ p, isPositionAvailable room (positionMap st) p.1.1 p.1.2 p.2
                 (student_classId s) = false) (scanOrder room) →
  placeStudent room st s =
    {| positionMap := positionMap st;
       assignments := assignments st;
       unassignedStudents := unassignedStudents st ++ [s] |}.
Proof.
  intros Hall. unfold placeStudent.
  induction Hall as [|[[r' c'] b'] l Hp _ IH]; simpl in *; [done|].
  by rewrite Hp.
Qed.

End solver_steps.

(** Evaluation of the lookups of a concrete [positionMap]. *)
Ltac eval_lookups :=
  repeat match goal with
  | |- context [@lookup string Occupant (gmap string Occupant) _ ?k ?m] =>
      let v := eval vm_compute in (m !! k) in
      change (m !! k) with v
  end.

Ltac eval_available :=
  unfold isPositionAvailable, occupantOf;
  cbn [studentsPerBench columns rows Z.eqb Pos.eqb forallb positionMap
       student_classId student_id fst snd];
  eval_lookups;
  rewrite ?taken_None, ?taken_Some, ?sameClass_None, ?sameClass_same,
    ?sameClass_diff by congruence;
  try reflexivity.

(** ** Scenario A *)

Lemma scenarioA_solve s1 s2 s3 x y :
  student_classId s1 = Some x →
  student_classId s2 = Some x →
  student_classId s3 = Some y →
  x ≠ "" → x ≠ y →
  solve scenarioA_room ∅ [s1; s2; s3] =
    {| positionMap :=
         <[posKey 1 2 1 := occupantOf s3]>
           (<[posKey 1 3 1 := occupantOf s2]> (<[posKey 1 1 1 := occupantOf s1]> ∅));
       assignments := [seat s1 1 1 1; seat s2 1 3 1; seat s3 1 2 1];
       unassignedStudents := [] |}.
Proof.
  intros H1 H2 H3 Hx Hxy.
  destruct s1 as [i1 c1 n1], s2 as [i2 c2 n2], s3 as [i3 c3 n3].
  simpl in H1, H2, H3. subst c1 c2 c3.
  set (s1 := Build_Student i1 (Some x) n1).
  set (s2 := Build_Student i2 (Some x) n2).
  set (s3 := Build_Student i3 (Some y) n3).
  assert (concat (map snd (studentsByClass [s1; s2; s3])) = [s1; s2; s3]) as Hgroups.
  { unfold studentsByClass. cbn [foldl].
    rewrite pushByClass_nil, pushByClass_same by done.
    rewrite pushByClass_other, pushByClass_nil by (simpl; congruence).
    done. }
  unfold solve. rewrite Hgroups. simpl.
  rewrite (placeStudent_take scenarioA_room _ s1 [] 1 1 1 [(1,2,1); (1,3,1)]);
    first last.
  { subst s1 s2 s3. unfold scenarioA_room. eval_available. }
  { constructor. }
  { reflexivity. }
  rewrite (placeStudent_take scenarioA_room _ s2 [(1,1,1); (1,2,1)] 1 3 1 []);
    first last.
  { subst s1 s2 s3. unfold scenarioA_room. eval_available. }
  { subst s1 s2 s3. unfold scenarioA_room. repeat constructor; eval_available. }
  { reflexivity. }
  rewrite (placeStudent_take scenarioA_room _ s3 [(1,1,1)] 1 2 1 [(1,3,1)]);
    first last.
  { subst s1 s2 s3. unfold scenarioA_room. eval_available. }
  { subst s1 s2 s3. unfold scenarioA_room. repeat constructor; eval_available. }
  { reflexivity. }
  reflexivity.
Qed.

(** C5 (amended). On the 1-by-3 grid with one student per bench and no
    one seated, when the student lookup returns S1 (class X), S2
    (class X) and S3 (class Y) in that order, the automatic route
    answers 200 with exactly S1 at (1,1,1), S2 at (1,3,1), S3 at
    (1,2,1), and commits exactly these rows.  The order of the ids in
    the request plays no part. *)
Theorem scenarioA_auto_assignment tbl studentIds s1 s2 s3 x y :
  findMany tbl studentIds = [s1; s2; s3] →
  NoDup studentIds →
  length studentIds = 3%nat →
  student_classId s1 = Some x →
  student_classId s2 = Some x →
  student_classId s3 = Some y →
  x ≠ "" → x ≠ y →
  autoAssign tbl (Some scenarioA_room) studentIds =
    (AutoAssigned 3 [seat s1 1 1 1; seat s2 1 3 1; seat s3 1 2 1],
     [DeleteMany studentIds;
      CreateMany [seat s1 1 1 1; seat s2 1 3 1; seat s3 1 2 1];
      CacheDel]).
Proof.
  intros Hfind Hnd Hlen H1 H2 H3 Hx Hxy.
  unfold autoAssign.
  rewrite bool_decide_eq_false_2 by (by destruct studentIds).
  rewrite Hfind, newSet_id by done.
  rewrite !bool_decide_eq_false_2 by (rewrite Hlen; simpl; lia).
  cbn [studentAssignments scenarioA_room map newSet foldl buildPositionMap
       removeReassigned].
  rewrite (scenarioA_solve s1 s2 s3 x y) by done.
  reflexivity.
Qed.

Lemma scenarioA_auto_assignment_witness :
  autoAssign scenarioA_students (Some scenarioA_room) ["S1"; "S2"; "S3"] =
    (AutoAssigned 3
       [ {| studentId := "S1"; row := 1; column := 1; benchPosition := 1 |};
         {| studentId := "S2"; row := 1; column := 3; benchPosition := 1 |};
         {| studentId := "S3"; row := 1; column := 2; benchPosition := 1 |} ],
     [DeleteMany ["S1"; "S2"; "S3"];
      CreateMany
        [ {| studentId := "S1"; row := 1; column := 1; benchPosition := 1 |};
          {| studentId := "S2"; row := 1; column := 3; benchPosition := 1 |};
          {| studentId := "S3"; row := 1; column := 2; benchPosition := 1 |} ];
      CacheDel]).
Proof.
  apply (scenarioA_auto_assignment scenarioA_students ["S1"; "S2"; "S3"]
           (Build_Student "S1" (Some "classX") None)
           (Build_Student "S2" (Some "classX") None)
           (Build_Student "S3" (Some "classY") None)
           "classX" "classY").
  - reflexivity.
  - compute_done.
  - reflexivity.
  - reflexivity.
  - reflexivity.
  - reflexivity.
  - discriminate.
  - discriminate.
Defined.

(** C5 (as stated, it fails). The route places the students in the
    order the lookup returns them, not in the order of the request:
    the request S1, S2, S3 over a table that holds S3, S2, S1 seats S3
    at (1,1,1) and S2 at (1,2,1), finds no seat for S1 and answers
    400. *)
Lemma scenarioA_request_order_not_followed :
  autoAssign scenarioA_students_reversed (Some scenarioA_room) ["S1"; "S2"; "S3"]
    = (AutoCouldNotAssign 1 ["S1"]
         [ {| studentId := "S3"; row := 1; column := 1; benchPosition := 1 |};
           {| studentId := "S2"; row := 1; column := 2; benchPosition := 1 |} ],
       [])
  ∧ (autoAssign scenarioA_students_reversed (Some scenarioA_room)
       ["S1"; "S2"; "S3"]).1
    ≠ AutoAssigned 3
        [ {| studentId := "S1"; row := 1; column := 1; benchPosition := 1 |};
          {| studentId := "S2"; row := 1; column := 3; benchPosition := 1 |};
          {| studentId := "S3"; row := 1; column := 2; benchPosition := 1 |} ].
Proof. split; by vm_compute. Qed.

(** ** The coercions on sample values *)

Lemma toNumber_samples :
  toNumber (JsString "300abc") = Some NaN
  ∧ toNumber (JsString "12") = Some (Num 12)
  ∧ toNumber (JsString " 12 ") = Some (Num 12)
  ∧ toNumber (JsString "") = Some (Num 0)
  ∧ toNumber (JsString "0x1F") = Some (Num 31)
  ∧ toNumber (JsString "-7") = Some (Num (-7))
  ∧ toNumber (JsString "1.5") = None
  ∧ toNumber (JsString "1e3") = None
  ∧ toNumber (JsString "1.5.2") = Some NaN
  ∧ toNumber JsNull = Some (Num 0)
  ∧ toNumber JsUndefined = Some NaN
  ∧ toNumber (JsBool true) = Some (Num 1).
Proof. split_and!; by vm_compute. Qed.

Lemma parseInt_samples :
  parseInt (JsString "300abc") = Some (Num 300)
  ∧ parseInt (JsString "  42px") = Some (Num 42)
  ∧ parseInt (JsString "-0x1A") = Some (Num (-26))
  ∧ parseInt (JsString "1e3") = Some (Num 1)
  ∧ parseInt (JsString "abc") = Some NaN
  ∧ parseInt (JsString "") = Some NaN
  ∧ parseInt (JsNumber 20) = Some (Num 20)
  ∧ parseInt JsNull = Some NaN
  ∧ parseInt (JsBool true) = Some NaN.
Proof. split_and!; by vm_compute. Qed.

Lemma key_samples :
  templateKey (JsNumber 1) (JsString "1") (JsNumber 1) = Some "1-1-1"
  ∧ plusOneText (JsString "1") = Some "11"
  ∧ plusOneText (JsNumber 1) = Some "2"
  ∧ minusOneText (JsString "1") = Some "0"
  ∧ minusOneText JsUndefined = Some "NaN"
  ∧ templateKey JsUndefined (JsNumber 2) (JsNumber 1) = Some "undefined-2-1".
Proof. split_and!; by vm_compute. Qed.

(** ** Comparisons on numbers with an integer value *)

Lemma jsLt_integer n k : jsLt (JsNumber n) k = Some (n <? k).
Proof. done. Qed.

Lemma jsGt_integer n k : jsGt (JsNumber n) k = Some (k <? n).
Proof. done. Qed.

(** ** Room creation *)

Lemma studentsPerBenchValue_cases v :
  (v = JsNumber 2 ∧ studentsPerBenchValue v = 2)
  ∨ (v ≠ JsNumber 2 ∧ studentsPerBenchValue v = 1).
Proof.
  unfold studentsPerBenchValue. case_bool_decide; [left|right]; done.
Qed.

(** On rows and columns that are numbers with an integer value the
    checks are those of the integers, and the integers are stored. *)
Lemma createRoomAllocation_integers classTbl req r c :
  req_rows req = JsNumber r → req_columns req = JsNumber c →
  createRoomAllocation classTbl req
  = if bool_decide (req_roomName req = "") || (r =? 0) || (c =? 0)
    then Some (CreateRequired, [])
    else if (r <? 1) || (c <? 1) then Some (CreateTooSmall, [])
    else if 200 <? r * c * studentsPerBenchValue (req_studentsPerBench req)
    then Some (CreateCapacityExceeded, [])
    else if bool_decide (default [] (req_classIds req) ≠ [])
            && bool_decide
                 (length (filter (λ x, x ∈ default [] (req_classIds req)) classTbl)
                  ≠ length (default [] (req_classIds req)))
    then Some (CreateClassesNotFound, [])
    else
      let room := {| cfg_rows := r; cfg_columns := c;
                     cfg_studentsPerBench :=
                       studentsPerBenchValue (req_studentsPerBench req);
                     cfg_classIds := default [] (req_classIds req) |} in
      Some (Created room, [RoomCreate room; RoomCacheDel]).
Proof.
  intros Hr Hc. unfold createRoomAllocation. rewrite Hr, Hc.
  cbn [toBoolean negb]. rewrite !negb_involutive.
  destruct (_ || _ || _); [done|].
  rewrite !jsLt_integer. unfold jsOr. cbn [mbind option_bind toNumber numMul].
  destruct (r <? 1) eqn:Hr1; cbn [orb]; [done|].
  destruct (c <? 1) eqn:Hc1; [done|].
  destruct (200 <? _) eqn:Hcap; [done|].
  destruct (_ && _); [done|].
  unfold parseInt, exactNum.
  destruct (studentsPerBenchValue_cases (req_studentsPerBench req))
    as [[_ Hv]|[_ Hv]]; rewrite Hv in Hcap;
    rewrite !(proj2 (Z.leb_le _ _)) by nia; done.
Qed.

(** For rows and columns that are numbers with an integer value, what
    is handed to [prisma.roomAllocation.create] is within the
    ceiling. *)
Lemma stored_room_within_capacity classTbl req r c response effects room :
  req_rows req = JsNumber r → req_columns req = JsNumber c →
  createRoomAllocation classTbl req = Some (response, effects) →
  RoomCreate room ∈ effects →
  cfg_rows room * cfg_columns room * cfg_studentsPerBench room ≤ 200.
Proof.
  intros Hr Hc. rewrite (createRoomAllocation_integers _ _ r c) by done.
  destruct (_ || _ || _); [by intros [= <- <-] ?%elem_of_nil|].
  destruct (_ || _); [by intros [= <- <-] ?%elem_of_nil|].
  destruct (200 <? _) eqn:Hcap; [by intros [= <- <-] ?%elem_of_nil|].
  destruct (_ && _); [by intros [= <- <-] ?%elem_of_nil|].
  intros [= <- <-]. rewrite !elem_of_cons, elem_of_nil.
  intros [[= ->]|[?|[]]]; [simpl; lia | done].
Qed.

(** For rows and columns that are numbers with an integer value, a
    creation request whose seat count, rows times columns times the
    effective bench size, exceeds 200 is rejected without any call to
    the store; when the earlier checks pass the answer is the capacity
    error. *)
Lemma over_capacity_rejected classTbl req r c :
  req_rows req = JsNumber r → req_columns req = JsNumber c →
  200 < r * c * studentsPerBenchValue (req_studentsPerBench req) →
  (∃ response, createRoomAllocation classTbl req = Some (response, [])
     ∧ response ∈ [CreateRequired; CreateTooSmall; CreateCapacityExceeded])
  ∧ (req_roomName req ≠ "" → 1 ≤ r → 1 ≤ c →
     createRoomAllocation classTbl req = Some (CreateCapacityExceeded, [])).
Proof.
  intros Hr Hc Hcap. rewrite (createRoomAllocation_integers _ _ r c) by done.
  destruct (bool_decide (req_roomName req = "") || (r =? 0) || (c =? 0)) eqn:Hreq.
  { split; [eexists; split; [done|set_solver]|].
    intros Hname ? ?. rewrite bool_decide_eq_false_2 in Hreq by done.
    simpl in Hreq. lia. }
  destruct ((r <? 1) || (c <? 1)) eqn:Hsmall.
  { split; [eexists; split; [done|set_solver]|]. lia. }
  assert ((200 <? r * c * studentsPerBenchValue (req_studentsPerBench req)) = true)
    as -> by lia.
  split; [eexists; split; [done|set_solver]|done].
Qed.

(** C8 (the code departs from it). The capacity check reads [rows] as
    the request gives it and the store is handed [parseInt(rows)]: for
    the string "300abc" every comparison is false, and a room of 300
    rows of 10 two-seat benches, 6000 seats, is stored.  The same
    dimensions given as numbers are rejected, and so is Scenario D. *)
Theorem capacity_check_misses_string_rows :
  let room := {| cfg_rows := 300; cfg_columns := 10; cfg_studentsPerBench := 2;
                 cfg_classIds := [] |} in
  createRoomAllocation [] string_rows_request
    = Some (Created room, [RoomCreate room; RoomCacheDel])
  ∧ 200 < cfg_rows room * cfg_columns room * cfg_studentsPerBench room
  ∧ createRoomAllocation []
      {| req_roomName := "Hall"; req_rows := JsNumber 300; req_columns := JsNumber 10;
         req_studentsPerBench := JsNumber 2; req_classIds := None |}
    = Some (CreateCapacityExceeded, [])
  ∧ createRoomAllocation [] scenarioD_request = Some (CreateCapacityExceeded, []).
Proof. cbv zeta. split_and!; by vm_compute. Qed.

(** C9. A creation request that passes the other checks is stored with
    bench size 2 exactly when the submitted value is the number 2, and
    with bench size 1 for every other value; no value of the field
    leads to a rejection. *)
Theorem stored_bench_size classTbl req r c :
  req_roomName req ≠ "" →
  req_rows req = JsNumber r → req_columns req = JsNumber c →
  1 ≤ r → 1 ≤ c →
  r * c * studentsPerBenchValue (req_studentsPerBench req) ≤ 200 →
  (default [] (req_classIds req) = []
   ∨ length (filter (λ c, c ∈ default [] (req_classIds req)) classTbl)
     = length (default [] (req_classIds req))) →
  ∃ room,
    createRoomAllocation classTbl req
      = Some (Created room, [RoomCreate room; RoomCacheDel])
    ∧ (cfg_studentsPerBench room = 2 ↔ req_studentsPerBench req = JsNumber 2)
    ∧ (cfg_studentsPerBench room = 1 ↔ req_studentsPerBench req ≠ JsNumber 2)
    ∧ (cfg_studentsPerBench room = 1 ∨ cfg_studentsPerBench room = 2).
Proof.
  intros Hname Hrows Hcols Hr Hc Hcap Hcls.
  rewrite (createRoomAllocation_integers _ _ r c) by done.
  rewrite (bool_decide_eq_false_2 (req_roomName req = "")) by done.
  assert ((r =? 0) = false) as -> by lia.
  assert ((c =? 0) = false) as -> by lia.
  assert ((r <? 1) = false) as -> by lia.
  assert ((c <? 1) = false) as -> by lia.
  assert ((200 <? r * c * studentsPerBenchValue (req_studentsPerBench req)) = false)
    as -> by lia.
  cbn [orb].
  assert (bool_decide (default [] (req_classIds req) ≠ [])
          && bool_decide
               (length (filter (λ c, c ∈ default [] (req_classIds req)) classTbl)
                ≠ length (default [] (req_classIds req))) = false) as ->.
  { destruct Hcls as [Hnil|Hlen].
    - by rewrite bool_decide_eq_false_2 by (by intros []).
    - rewrite (bool_decide_eq_false_2 (_ ≠ length _)) by (by intros []).
      apply andb_false_r. }
  eexists. split; [reflexivity|]. simpl.
  destruct (studentsPerBenchValue_cases (req_studentsPerBench req))
    as [[Hv ->]|[Hv ->]]; split_and!; try tauto; try lia; split; try done; lia.
Qed.

Lemma stored_bench_size_witness :
  ∃ room,
    createRoomAllocation []
      {| req_roomName := "Lab"; req_rows := JsNumber 5; req_columns := JsNumber 4;
         req_studentsPerBench := JsNumber 3; req_classIds := None |}
    = Some (Created room, [RoomCreate room; RoomCacheDel])
    ∧ (cfg_studentsPerBench room = 2 ↔ JsNumber 3 = JsNumber 2)
    ∧ (cfg_studentsPerBench room = 1 ↔ JsNumber 3 ≠ JsNumber 2)
    ∧ (cfg_studentsPerBench room = 1 ∨ cfg_studentsPerBench room = 2).
Proof.
  apply (stored_bench_size []
           {| req_roomName := "Lab"; req_rows := JsNumber 5; req_columns := JsNumber 4;
              req_studentsPerBench := JsNumber 3; req_classIds := None |} 5 4);
    simpl; [discriminate|done|done|lia|lia|compute_done|by left].
Defined.

(** Whatever the rows and columns of a request hold, a stored room has
    bench size 2 when the submitted value is the number 2 and bench
    size 1 otherwise. *)
Lemma stored_bench_size_any_request classTbl req room effects :
  createRoomAllocation classTbl req = Some (Created room, effects) →
  cfg_studentsPerBench room = studentsPerBenchValue (req_studentsPerBench req).
Proof.
  unfold createRoomAllocation.
  destruct (_ || _ || _); [done|].
  destruct (jsOr _ _) as [[]|]; cbn [mbind option_bind]; [done| |done].
  destruct (toNumber (req_rows req)) as [x|]; cbn [mbind option_bind]; [|done].
  destruct (toNumber (req_columns req)) as [y|]; cbn [mbind option_bind]; [|done].
  destruct (match numMul _ _ with Num z => 200 <? z | NaN => false end); [done|].
  destruct (_ && _); [done|].
  destruct (storedInt (parseInt (req_rows req))); cbn [mbind option_bind]; [|done].
  destruct (storedInt (parseInt (req_columns req))); cbn [mbind option_bind]; [|done].
  by intros [= <- _].
Qed.

(** ** The automatic route: rejections and atomicity *)

Section auto_route.

Lemma findMany_ids tbl ids s : s ∈ findMany tbl ids → student_id s ∈ ids.
Proof. unfold findMany. rewrite list_elem_of_filter. tauto. Qed.

(** With unique ids in the table, resolution returns at most one row
    per distinct requested id. *)
Lemma findMany_length tbl ids :
  NoDup (map student_id tbl) →
  (length (findMany tbl ids) ≤ length (newSet ids))%nat.
Proof.
  intros Hnd.
  rewrite <- (length_map student_id (findMany tbl ids)).
  apply submseteq_length, NoDup_submseteq.
  - unfold findMany. clear -Hnd.
    induction tbl as [|s tbl IH]; simpl; [constructor|].
    apply NoDup_cons in Hnd as [Hs Hnd].
    rewrite filter_cons. case_decide; simpl; [|by apply IH].
    apply NoDup_cons. split; [|by apply IH].
    intros Hin. apply Hs.
    apply list_elem_of_fmap in Hin as (s' & -> & Hs').
    apply list_elem_of_filter in Hs' as [_ Hs'].
    apply list_elem_of_fmap. eauto.
  - intros x (s & -> & Hs)%list_elem_of_fmap.
    apply elem_of_newSet. by eapply findMany_ids.
Qed.

Lemma newSet_length_le ids : (length (newSet ids) ≤ length ids)%nat.
Proof. apply (newSet_acc_length ids []). Qed.

(** Every response other than success leaves the store untouched. *)
Lemma autoAssign_failure_no_effects tbl found ids :
  (∀ n l, (autoAssign tbl found ids).1 ≠ AutoAssigned n l) →
  (autoAssign tbl found ids).2 = [].
Proof.
  unfold autoAssign. intros Hfail.
  repeat case_match; simpl in *; try done;
    by edestruct Hfail.
Qed.

End auto_route.

(** C4. When the placement loop leaves at least one student unplaced,
    the automatic route answers 400 with the number and the names (or
    ids) of the unplaced students and the placements it had computed,
    issues no call to the store, and the stored rows are unchanged. *)
Theorem unplaced_student_fails_whole_request tbl roomAllocation studentIds :
  studentIds ≠ [] →
  length (findMany tbl studentIds) = length studentIds →
  length (newSet studentIds) = length studentIds →
  let existing := studentAssignments roomAllocation in
  let st := solve roomAllocation
              (removeReassigned (newSet studentIds)
                 (newSet (map sa_studentId existing)) (buildPositionMap existing))
              (findMany tbl studentIds) in
  unassignedStudents st ≠ [] →
  autoAssign tbl (Some roomAllocation) studentIds =
    (AutoCouldNotAssign (length (unassignedStudents st))
       (map nameOrId (unassignedStudents st)) (assignments st), [])
  ∧ autoStatus (autoAssign tbl (Some roomAllocation) studentIds).1 = 400
  ∧ persist tbl existing (autoAssign tbl (Some roomAllocation) studentIds).2
    = existing.
Proof.
  intros Hne Hfound Huniq existing st Hun.
  assert (autoAssign tbl (Some roomAllocation) studentIds =
          (AutoCouldNotAssign (length (unassignedStudents st))
             (map nameOrId (unassignedStudents st)) (assignments st), [])) as ->.
  { unfold autoAssign.
    rewrite (bool_decide_eq_false_2 (studentIds = [])) by done.
    rewrite (bool_decide_eq_false_2 (length (findMany _ _) ≠ _)) by (by intros []).
    rewrite (bool_decide_eq_false_2 (length (newSet _) ≠ _)) by (by intros []).
    cbv zeta. fold existing. fold st.
    by rewrite bool_decide_eq_true_2. }
  done.
Qed.

Lemma unplaced_student_fails_whole_request_witness :
  autoAssign scenarioA_students (Some oneSeat_room) ["S1"; "S3"] =
    (AutoCouldNotAssign 1 ["S3"]
       [ {| studentId := "S1"; row := 1; column := 1; benchPosition := 1 |} ], [])
  ∧ autoStatus (autoAssign scenarioA_students (Some oneSeat_room) ["S1"; "S3"]).1 = 400
  ∧ persist scenarioA_students []
      (autoAssign scenarioA_students (Some oneSeat_room) ["S1"; "S3"]).2 = [].
Proof.
  apply (unplaced_student_fails_whole_request scenarioA_students oneSeat_room
           ["S1"; "S3"]).
  - discriminate.
  - reflexivity.
  - reflexivity.
  - vm_compute. discriminate.
Defined.

(** C10. With ids unique in the student table, a request that lists an
    id twice is stopped by the count check ("Some students not found")
    before anything is placed (a request for a missing room by the
    room lookup just before it), no call reaches the store, and the
    later duplicate check never answers, for any input. *)
Theorem duplicate_ids_stop_at_identity_check tbl found studentIds :
  NoDup (map student_id tbl) →
  (¬ NoDup studentIds →
   autoAssign tbl found studentIds =
     (match found with
      | Some _ => AutoSomeStudentsNotFound
      | None => AutoRoomNotFound
      end, []))
  ∧ (autoAssign tbl found studentIds).1 ≠ AutoDuplicateStudents.
Proof.
  intros Htbl.
  pose proof (findMany_length tbl studentIds Htbl) as Hres.
  pose proof (newSet_length_le studentIds) as Hset.
  split.
  - intros Hdup.
    assert (length (newSet studentIds) ≠ length studentIds) as Hlen
      by (by rewrite newSet_length_iff).
    unfold autoAssign.
    rewrite (bool_decide_eq_false_2 (studentIds = []))
      by (intros ->; apply Hdup; constructor).
    destruct found as [room|]; [|done].
    rewrite (bool_decide_eq_true_2 (length (findMany _ _) ≠ _)) by lia.
    done.
  - unfold autoAssign.
    case_bool_decide; [done|]. destruct found as [room|]; [|done].
    case_bool_decide as Hfound; [done|].
    case_bool_decide as Huniq; [|by case_bool_decide].
    lia.
Qed.

Lemma duplicate_ids_stop_at_identity_check_witness :
  autoAssign scenarioA_students (Some scenarioA_room) ["S1"; "S2"; "S1"]
  = (AutoSomeStudentsNotFound, []).
Proof.
  apply (duplicate_ids_stop_at_identity_check scenarioA_students
           (Some scenarioA_room) ["S1"; "S2"; "S1"]); compute_done.
Defined.

(** ** The constraint predicate and the adjacency set *)

Section constraint_predicate.

Implicit Types (room : RoomAllocation) (pm : gmap string Occupant).

(** [isPositionAvailable] is: the seat is free, and no coordinate of
    the adjacency set holds a class-mate. *)
Lemma isPositionAvailable_adjacent room pm r c b cls :
  isPositionAvailable room pm r c b cls =
    negb (bool_decide (is_Some (pm !! posKey r c b)))
    && forallb (λ q, negb (sameClass (pm !! keyOf q) cls))
         (adjacentCoordinates room (r, c, b)).
Proof.
  unfold isPositionAvailable, adjacentCoordinates, keyOf.
  destruct (bool_decide (is_Some (pm !! posKey r c b))); [done|].
  destruct (studentsPerBench room =? 1); [done|].
  simpl.
  destruct (sameClass (pm !! posKey r c (if b =? 1 then 2 else 1)) cls); [done|].
  destruct (1 <? c), (c <? columns room); simpl;
    repeat (destruct (sameClass _ _); simpl; try done); done.
Qed.

(** The manual route finds no violation exactly when no coordinate of
    the adjacency set holds a class-mate; it does not look at the
    target seat itself. *)
Lemma manualViolation_adjacent room pm r c b cls :
  bool_decide (manualViolation room pm r c b cls = None) =
    forallb (λ q, negb (sameClass (pm !! keyOf q) cls))
      (adjacentCoordinates room (r, c, b)).
Proof.
  unfold manualViolation, adjacentCoordinates, keyOf.
  destruct (studentsPerBench room =? 1).
  { by destruct (forallb _ _). }
  simpl.
  destruct (sameClass (pm !! posKey r c (if b =? 1 then 2 else 1)) cls); [done|].
  destruct (1 <? c), (c <? columns room); simpl;
    repeat (destruct (sameClass _ _); simpl; try done); done.
Qed.

Lemma isPositionAvailable_manual room pm r c b cls :
  isPositionAvailable room pm r c b cls =
    negb (bool_decide (is_Some (pm !! posKey r c b)))
    && bool_decide (manualViolation room pm r c b cls = None).
Proof.
  by rewrite isPositionAvailable_adjacent, manualViolation_adjacent.
Qed.

Lemma keyOf_inj p q : keyOf p = keyOf q → p = q.
Proof.
  destruct p as [[r c] b], q as [[r' c'] b']. unfold keyOf. simpl.
  intros (-> & -> & ->)%posKey_inj. done.
Qed.

End constraint_predicate.

Ltac split_coords :=
  repeat match goal with
  | H : _ ∈ _ :: _ |- _ => apply elem_of_cons in H as [H|H]
  | H : _ ∈ [] |- _ => by apply elem_of_nil in H
  | H : _ ∈ _ ++ _ |- _ => apply elem_of_app in H as [H|H]
  | H : (_, _) = (_, _) |- _ => apply pair_equal_spec in H as [? ?]
  | H : _ ∨ _ |- _ => destruct H as [H|H]
  | H : _ ∧ _ |- _ => destruct H as [? ?]
  end.

(** Membership of a coordinate in an explicit list of coordinates, by
    cases and linear arithmetic. *)
Ltac coords :=
  simpl in *; intros; split_coords; subst; repeat case_match; simpl;
  rewrite ?elem_of_cons, ?elem_of_nil, ?pair_equal_spec; lia.



(** ** Symmetry of adjacency *)

Section adjacency.

Implicit Types (room : RoomAllocation) (p q : Z * Z * Z).

(** On the grid, the adjacency set read off the code is the rule of
    the specification. *)
Lemma specAdjacent_adjacentCoordinates room p q :
  studentsPerBench room = 1 ∨ studentsPerBench room = 2 →
  isInRange room p → isInRange room q →
  specAdjacent (studentsPerBench room) p q ↔ q ∈ adjacentCoordinates room p.
Proof.
  destruct p as [[r c] b], q as [[r' c'] b'].
  unfold isInRange, specAdjacent, adjacentCoordinates. simpl.
  intros Hspb Hp Hq.
  destruct (studentsPerBench room =? 1) eqn:Hmode; [done|].
  assert (studentsPerBench room = 2) as Hspb2 by lia. clear Hspb.
  split; intros Hin;
    destruct (1 <? c) eqn:?, (c <? columns room) eqn:?, (b =? 1) eqn:?;
    coords.
Qed.

Lemma specAdjacent_sym spb p q :
  (spb = 1 ∧ p.2 = 1) ∨ (spb = 2 ∧ 1 ≤ p.2 ≤ 2) →
  specAdjacent spb p q → specAdjacent spb q p.
Proof.
  destruct p as [[r c] b], q as [[r' c'] b']. unfold specAdjacent. simpl.
  intros Hp. destruct (spb =? 1) eqn:Hmode; coords.
Qed.

Lemma adjacent_sym room p q :
  studentsPerBench room = 1 ∨ studentsPerBench room = 2 →
  isInRange room p → isInRange room q →
  q ∈ adjacentCoordinates room p → p ∈ adjacentCoordinates room q.
Proof.
  intros Hspb Hp Hq Hin.
  apply specAdjacent_adjacentCoordinates; [done..|].
  apply specAdjacent_sym.
  - unfold isInRange in Hp. lia.
  - by apply specAdjacent_adjacentCoordinates.
Qed.

Lemma forallb_false_elem {A} (f : A → bool) (l : list A) :
  forallb f l = false ↔ ∃ x, x ∈ l ∧ f x = false.
Proof.
  induction l as [|a l IH]; simpl.
  - split; [done|]. intros (x & Hx & _). by apply elem_of_nil in Hx.
  - rewrite andb_false_iff, IH. split.
    + intros [Ha|(x & Hx & Hf)]; [exists a|exists x]; split; try done.
      * left.
      * by right.
    + intros (x & [->|Hx]%elem_of_cons & Hf); [by left|right; eauto].
Qed.

(** In a map holding one occupant at [q], the check at another seat
    [p] fails exactly when [q] is adjacent to [p] and the occupant is
    a class-mate. *)
Lemma single_occupant_blocks room p q o cls :
  p ≠ q →
  isPositionAvailable room {[keyOf q := o]} p.1.1 p.1.2 p.2 cls = false
  ↔ q ∈ adjacentCoordinates room p ∧ sameClass (Some o) cls = true.
Proof.
  intros Hpq. destruct p as [[r c] b]. simpl.
  rewrite isPositionAvailable_adjacent.
  change (posKey r c b) with (keyOf (r, c, b)).
  rewrite lookup_singleton_ne by (by intros ?%keyOf_inj).
  rewrite bool_decide_eq_false_2 by (by intros [? ?]). simpl.
  rewrite forallb_false_elem.
  split.
  - intros (x & Hx & Hcls). apply negb_false_iff in Hcls.
    destruct (decide (x = q)) as [->|Hne].
    + by rewrite lookup_singleton_eq in Hcls.
    + rewrite lookup_singleton_ne in Hcls by (by intros ?%keyOf_inj). done.
  - intros [Hq Hcls]. exists q. split; [done|].
    apply negb_false_iff. by rewrite lookup_singleton_eq.
Qed.

End adjacency.

(** C7. For seats of the grid, in both bench-size modes: if B is in the
    adjacency set of A then A is in the adjacency set of B, and an
    occupant at B blocks its class-mates at A exactly when an occupant
    of the same class at A blocks them at B. *)
Theorem adjacency_symmetric room A B :
  studentsPerBench room = 1 ∨ studentsPerBench room = 2 →
  isInRange room A → isInRange room B →
  (B ∈ adjacentCoordinates room A ↔ A ∈ adjacentCoordinates room B)
  ∧ (∀ oA oB cls, A ≠ B → occ_classId oA = occ_classId oB →
       isPositionAvailable room {[keyOf B := oB]} A.1.1 A.1.2 A.2 cls = false
       ↔ isPositionAvailable room {[keyOf A := oA]} B.1.1 B.1.2 B.2 cls = false).
Proof.
  intros Hspb HA HB.
  assert (B ∈ adjacentCoordinates room A ↔ A ∈ adjacentCoordinates room B) as Hsym
    by (split; by apply adjacent_sym).
  split; [done|].
  intros oA oB cls Hne Hcls.
  rewrite !single_occupant_blocks by done.
  rewrite Hsym. unfold sameClass. by rewrite Hcls.
Qed.

Lemma adjacency_symmetric_witness :
  (1, 2, 2) ∈ adjacentCoordinates
      {| rows := 2; columns := 2; studentsPerBench := 2; studentAssignments := [] |}
      (1, 1, 1)
  ↔ (1, 1, 1) ∈ adjacentCoordinates
      {| rows := 2; columns := 2; studentsPerBench := 2; studentAssignments := [] |}
      (1, 2, 2).
Proof.
  apply (adjacency_symmetric
           {| rows := 2; columns := 2; studentsPerBench := 2; studentAssignments := [] |}
           (1, 1, 1) (1, 2, 2)).
  - by right.
  - unfold isInRange. simpl. lia.
  - unfold isInRange. simpl. lia.
Defined.

(** ** Safety of the automatic route *)

Section index.

Implicit Types (room : RoomAllocation) (pm : gmap string Occupant)
  (stored : list StudentAssignment).

Lemma buildPositionMap_snoc stored e :
  buildPositionMap (stored ++ [e]) =
    <[keyOf (coordOf e) := occOf e]> (buildPositionMap stored).
Proof. unfold buildPositionMap. by rewrite foldl_snoc. Qed.

(** With one row per coordinate the seeded map holds exactly the
    rows. *)
Lemma buildPositionMap_represents stored :
  uniqueSeats stored → represents (buildPositionMap stored) stored.
Proof.
  unfold uniqueSeats, represents.
  induction stored as [|e stored IH] using rev_ind; intros Hnd k o.
  - unfold buildPositionMap. simpl. rewrite lookup_empty. split; [done|].
    intros (e & He & _). by apply elem_of_nil in He.
  - rewrite map_app in Hnd. apply NoDup_app in Hnd as (Hnd & Hfresh & _).
    rewrite buildPositionMap_snoc.
    destruct (decide (k = keyOf (coordOf e))) as [->|Hk].
    + rewrite lookup_insert_eq. split.
      * intros [= <-]. exists e. split; [|done].
        apply elem_of_app. right. left.
      * intros (e' & [He'|He']%elem_of_app & Hkey%keyOf_inj & ->).
        -- destruct (Hfresh (coordOf e')).
           ++ apply list_elem_of_fmap. eauto.
           ++ rewrite <- Hkey. simpl. left.
        -- apply list_elem_of_singleton in He'. by subst.
    + rewrite lookup_insert_ne by done. rewrite (IH Hnd). split.
      * intros (e' & He' & -> & ->). exists e'. split; [|done].
        apply elem_of_app. by left.
      * intros (e' & [He'|He']%elem_of_app & -> & ->).
        -- by exists e'.
        -- apply list_elem_of_singleton in He'. by subst.
Qed.

(** What the removal loop leaves in the map. *)
Lemma removeReassigned_lookup ids exIds :
  ∀ pm k o,
    removeReassigned ids exIds pm !! k = Some o
    ↔ pm !! k = Some o ∧ ¬ (occ_studentId o ∈ ids ∧ occ_studentId o ∈ exIds).
Proof.
  unfold removeReassigned.
  induction exIds as [|sid exIds IH]; intros pm k o; simpl.
  - rewrite elem_of_nil. tauto.
  - rewrite IH. case_bool_decide as Hsid.
    + rewrite map_lookup_filter_Some. simpl. rewrite elem_of_cons.
      split.
      * intros [[Hpm Hne] Hrest]. split; [done|].
        intros [Hin [Heq|Hex]]; [done|]. tauto.
      * intros [Hpm Hrest]. split_and!; [done| |tauto].
        intros Heq. apply Hrest. split; [by rewrite Heq|by left].
    + rewrite elem_of_cons. split.
      * intros [Hpm Hrest]. split; [done|].
        intros [Hin [Heq|Hex]]; [by rewrite Heq in Hin|]. tauto.
      * intros [Hpm Hrest]. split; [done|]. tauto.
Qed.

(** The index the placement loop starts from: the rows of the students
    that are not being re-placed. *)
Lemma auto_index_represents stored ids :
  uniqueSeats stored →
  represents
    (removeReassigned ids (newSet (map sa_studentId stored)) (buildPositionMap stored))
    (filter (λ a, sa_studentId a ∉ ids) stored).
Proof.
  intros Huniq k o. rewrite removeReassigned_lookup.
  pose proof (buildPositionMap_represents stored Huniq) as Hrep.
  unfold represents in Hrep. rewrite Hrep. split.
  - intros [(e & He & -> & ->) Hkeep]. exists e. split; [|done].
    apply list_elem_of_filter. split; [|done].
    intros Hin. apply Hkeep. split; [done|].
    apply elem_of_newSet, list_elem_of_fmap. by exists e.
  - intros (e & [Hout He]%list_elem_of_filter & -> & ->).
    split; [by exists e|]. simpl. tauto.
Qed.

End index.

Section grid.

Implicit Types (room : RoomAllocation) (p q : Z * Z * Z).

(** The scan visits seats of the grid only. *)
Lemma scanOrder_inRange room p : p ∈ scanOrder room → isInRange room p.
Proof.
  unfold scanOrder, isInRange.
  intros (r & Hp & Hr%elem_of_seqZ)%list_elem_of_bind.
  apply list_elem_of_bind in Hp as (c & Hp & Hc%elem_of_seqZ).
  apply list_elem_of_bind in Hp as (b & Hp & Hb%elem_of_seqZ).
  apply list_elem_of_singleton in Hp as ->. simpl. lia.
Qed.

Lemma specAdjacent_irrefl spb p : ¬ specAdjacent spb p p.
Proof.
  destruct p as [[r c] b]. unfold specAdjacent.
  destruct (spb =? 1); coords.
Qed.

Lemma conflicting_sameClass o cls :
  conflicting (occ_classId o) cls ↔ sameClass (Some o) cls = true.
Proof.
  unfold conflicting, sameClass.
  rewrite andb_true_iff, bool_decide_eq_true. done.
Qed.

Lemma conflicting_sym c1 c2 : conflicting c1 c2 → conflicting c2 c1.
Proof. intros [-> ?]. done. Qed.

End grid.

Section grouping.

Lemma pushByClass_elem x s groups :
  x ∈ concat (map snd (pushByClass s groups))
  ↔ x = s ∨ x ∈ concat (map snd groups).
Proof.
  induction groups as [|[k ss] groups IH]; simpl.
  - rewrite ?app_nil_r, list_elem_of_singleton, elem_of_nil. tauto.
  - case_bool_decide; simpl.
    + rewrite !elem_of_app, list_elem_of_singleton. tauto.
    + rewrite !elem_of_app, IH. tauto.
Qed.

Lemma studentsByClass_acc_elem x students :
  ∀ groups,
    x ∈ concat (map snd (foldl (λ g s, pushByClass s g) groups students))
    ↔ x ∈ concat (map snd groups) ∨ x ∈ students.
Proof.
  induction students as [|s students IH]; intros groups; simpl.
  - rewrite elem_of_nil. tauto.
  - rewrite IH, pushByClass_elem, elem_of_cons. tauto.
Qed.

(** Grouping reorders the students, it neither drops nor adds one. *)
Lemma studentsByClass_elem x students :
  x ∈ concat (map snd (studentsByClass students)) ↔ x ∈ students.
Proof.
  unfold studentsByClass. rewrite studentsByClass_acc_elem. simpl.
  rewrite elem_of_nil. tauto.
Qed.

Lemma classOf_unique tbl s :
  NoDup (map student_id tbl) → s ∈ tbl →
  classOf tbl (student_id s) = student_classId s.
Proof.
  unfold classOf. induction tbl as [|t tbl IH]; simpl; intros Hnd Hs.
  - by apply elem_of_nil in Hs.
  - apply NoDup_cons in Hnd as [Ht Hnd].
    case_bool_decide as Heq.
    + apply elem_of_cons in Hs as [->|Hs]; [done|].
      destruct Ht. rewrite Heq. apply list_elem_of_fmap. eauto.
    + apply elem_of_cons in Hs as [->|Hs]; [done|]. by apply IH.
Qed.

End grouping.

Section placement.

Variable tbl : list Student.
Variable room : RoomAllocation.
Hypothesis Hmode : studentsPerBench room = 1 ∨ studentsPerBench room = 2.
Hypothesis Htbl : NoDup (map student_id tbl).

Lemma placeStudent_found st s :
  (∃ p, p ∈ scanOrder room
        ∧ isPositionAvailable room (positionMap st) p.1.1 p.1.2 p.2
            (student_classId s) = true
        ∧ placeStudent room st s =
            {| positionMap := <[keyOf p := occupantOf s]> (positionMap st);
               assignments := assignments st ++ [seat s p.1.1 p.1.2 p.2];
               unassignedStudents := unassignedStudents st |})
  ∨ placeStudent room st s =
      {| positionMap := positionMap st;
         assignments := assignments st;
         unassignedStudents := unassignedStudents st ++ [s] |}.
Proof.
  unfold placeStudent.
  destruct (find _ (scanOrder room)) as [[[r c] b]|] eqn:Hfind; [left|by right].
  apply find_some in Hfind as [Hin Hok].
  exists (r, c, b). split_and!; [by apply list_elem_of_In|done|done].
Qed.

Lemma placeStudent_inv kept st s :
  s ∈ tbl → placementInv tbl room kept st → placementInv tbl room kept (placeStudent room st s).
Proof.
  intros Hs (Hrep & [Huniq Hadj] & Hrange).
  destruct (placeStudent_found st s) as [(p & Hp & Hok & ->)| ->]; [|done].
  apply scanOrder_inRange in Hp.
  rewrite isPositionAvailable_adjacent in Hok.
  apply andb_true_iff in Hok as [Hfree Hnear].
  apply negb_true_iff, bool_decide_eq_false in Hfree.
  rewrite <- surjective_pairing in Hnear. rewrite <- surjective_pairing in Hnear.
  rewrite forallb_forall in Hnear.
  change (posKey p.1.1 p.1.2 p.2) with (keyOf p) in Hfree.
  set (new := loadRow tbl (seat s p.1.1 p.1.2 p.2)).
  assert (coordOf new = p) as Hcoord by (by destruct p as [[??]?]).
  assert (occOf new = occupantOf s) as Hocc.
  { unfold occOf, occupantOf, new. simpl. by rewrite classOf_unique. }
  assert (sa_classId new = student_classId s) as Hcls.
  { unfold new. simpl. by rewrite classOf_unique. }
  set (stored := kept ++ map (loadRow tbl) (assignments st)) in *.
  assert (∀ e, e ∈ stored → coordOf e ≠ p) as Hfresh.
  { intros e He Heq. apply Hfree. exists (occOf e).
    apply Hrep. exists e. by rewrite Heq. }
  assert (∀ e, e ∈ stored → coordOf e ∈ adjacentCoordinates room p →
               ¬ conflicting (sa_classId e) (student_classId s)) as Hclear.
  { intros e He Hnext Hconf.
    apply list_elem_of_In, Hnear, negb_true_iff in Hnext.
    assert (positionMap st !! keyOf (coordOf e) = Some (occOf e)) as Hlook
      by (apply Hrep; by exists e).
    rewrite Hlook in Hnext.
    apply (conflicting_sameClass (occOf e)) in Hconf. congruence. }
  unfold placementInv, safe. cbn [positionMap assignments].
  rewrite map_app, app_assoc. cbn [map]. fold new. fold stored.
  split_and!.
  - intros k o. destruct (decide (k = keyOf p)) as [->|Hk].
    + rewrite lookup_insert_eq. split.
      * intros [= <-]. exists new. split_and!; [|by rewrite Hcoord|done].
        apply elem_of_app. right. left.
      * intros (e & [He|He]%elem_of_app & Hkey%keyOf_inj & ->).
        -- by destruct (Hfresh e He).
        -- apply list_elem_of_singleton in He. subst e. by rewrite Hocc.
    + rewrite lookup_insert_ne by done. rewrite (Hrep k o). split.
      * intros (e & He & -> & ->). exists e. split; [|done].
        apply elem_of_app. by left.
      * intros (e & [He|He]%elem_of_app & -> & ->).
        -- by exists e.
        -- apply list_elem_of_singleton in He. subst e.
           by rewrite Hcoord in Hk.
  - unfold uniqueSeats. rewrite map_app. apply NoDup_app. split_and!.
    + done.
    + intros q (e & -> & He)%list_elem_of_fmap Hq.
      apply list_elem_of_singleton in Hq. rewrite Hcoord in Hq.
      by destruct (Hfresh e He).
    + apply NoDup_singleton.
  - intros a b [Ha|Ha]%elem_of_app [Hb|Hb]%elem_of_app Hnext;
      try (apply list_elem_of_singleton in Ha; subst a);
      try (apply list_elem_of_singleton in Hb; subst b).
    + by apply Hadj.
    + rewrite Hcoord in Hnext. rewrite Hcls.
      apply Hclear; [done|].
      apply adjacent_sym; [done|by apply Hrange|done|].
      apply specAdjacent_adjacentCoordinates; [done|by apply Hrange|done|done].
    + rewrite Hcoord in Hnext. rewrite Hcls.
      intros Hconf%conflicting_sym. revert Hconf. apply Hclear; [done|].
      apply specAdjacent_adjacentCoordinates; [done|done|by apply Hrange|done].
    + by apply specAdjacent_irrefl in Hnext.
  - intros e [He|He]%elem_of_app; [by apply Hrange|].
    apply list_elem_of_singleton in He. subst e. by rewrite Hcoord.
Qed.

Lemma solve_inv kept pm students :
  (∀ s, s ∈ students → s ∈ tbl) →
  placementInv tbl room kept {| positionMap := pm; assignments := [];
                       unassignedStudents := [] |} →
  placementInv tbl room kept (solve room pm students).
Proof.
  intros Hsub Hinit. unfold solve.
  assert (∀ s, s ∈ concat (map snd (studentsByClass students)) → s ∈ tbl) as Hall.
  { intros s Hs. apply Hsub. by apply studentsByClass_elem. }
  revert Hall Hinit.
  generalize (concat (map snd (studentsByClass students))) as order.
  generalize {| positionMap := pm; assignments := []; unassignedStudents := [] |}
    as st.
  intros st order. revert st.
  induction order as [|s order IH]; intros st Hall Hst; simpl; [done|].
  apply IH.
  - intros s' Hs'. apply Hall. by right.
  - apply placeStudent_inv; [|done]. apply Hall. left.
Qed.

End placement.

Section kept_rows.

Implicit Types (room : RoomAllocation) (stored : list StudentAssignment).

(** Dropping rows keeps a safe set safe. *)
Lemma safe_filter room stored (P : StudentAssignment → Prop)
    `{!∀ a, Decision (P a)} :
  safe room stored → safe room (filter P stored).
Proof.
  intros [Huniq Hadj]. split.
  - unfold uniqueSeats in *. eapply sublist_NoDup; [exact Huniq|].
    apply fmap_sublist, sublist_filter.
  - intros a b [_ Ha]%list_elem_of_filter [_ Hb]%list_elem_of_filter.
    by apply Hadj.
Qed.

Lemma allInRange_filter room stored (P : StudentAssignment → Prop)
    `{!∀ a, Decision (P a)} :
  allInRange room stored → allInRange room (filter P stored).
Proof. intros Hall e [_ He]%list_elem_of_filter. by apply Hall. Qed.

(** What the commit of the automatic route leaves in the store. *)
Lemma persist_commit tbl stored ids placed :
  persist tbl stored
    (DeleteMany ids
     :: (if bool_decide (placed ≠ []) then [CreateMany placed] else [])
     ++ [CacheDel])
  = filter (λ a, sa_studentId a ∉ ids) stored ++ map (loadRow tbl) placed.
Proof.
  unfold persist. case_bool_decide as Hpl; simpl; [done|].
  destruct placed; [|done]. simpl. by rewrite app_nil_r.
Qed.

End kept_rows.

(** X9. The automatic half of the safety invariant: from a stored set that
    is safe and on the grid, a successful automatic assignment commits
    a set that is safe and on the grid again. *)
Theorem auto_assign_preserves_safety tbl room studentIds n assigned effects :
  studentsPerBench room = 1 ∨ studentsPerBench room = 2 →
  NoDup (map student_id tbl) →
  safe room (studentAssignments room) →
  allInRange room (studentAssignments room) →
  autoAssign tbl (Some room) studentIds = (AutoAssigned n assigned, effects) →
  safe room (persist tbl (studentAssignments room) effects)
  ∧ allInRange room (persist tbl (studentAssignments room) effects).
Proof.
  intros Hmode Htbl Hsafe Hrange. unfold autoAssign.
  case_bool_decide; [done|]. case_bool_decide; [done|].
  case_bool_decide; [done|]. case_bool_decide; [done|].
  intros [= _ _ <-]. rewrite persist_commit.
  match goal with
  | |- context [solve room ?pm ?students] =>
      pose proof (solve_inv tbl room Hmode Htbl
                    (filter (λ a, sa_studentId a ∉ newSet studentIds)
                       (studentAssignments room)) pm students) as Hinv
  end.
  destruct Hinv as (_ & Hs & Hr); [| |done].
  - intros s Hs. unfold findMany in Hs.
    by apply list_elem_of_filter in Hs as [_ Hs].
  - unfold placementInv. simpl. rewrite app_nil_r. split_and!.
    + apply auto_index_represents. by destruct Hsafe.
    + by apply safe_filter.
    + by apply allInRange_filter.
Qed.

(** ** The manual route *)

(** The manual check never reads the target seat itself. *)
Lemma manualViolation_ignores_target room pm r c b o cls :
  manualViolation room (<[posKey r c b := o]> pm) r c b cls
  = manualViolation room pm r c b cls.
Proof.
  unfold manualViolation.
  assert (∀ q, q ≠ (r, c, b) →
            <[posKey r c b := o]> pm !! keyOf q = pm !! keyOf q) as Hother.
  { intros q Hq. apply lookup_insert_ne.
    change (posKey r c b) with (keyOf (r, c, b)). by intros ?%keyOf_inj. }
  pose proof (Hother (r, c - 1, 1)) as H1.
  pose proof (Hother (r, c + 1, 1)) as H2.
  pose proof (Hother (r - 1, c, 1)) as H3.
  pose proof (Hother (r + 1, c, 1)) as H4.
  pose proof (Hother (r, c, if b =? 1 then 2 else 1)) as H5.
  pose proof (Hother (r, c - 1, 2)) as H6.
  pose proof (Hother (r, c + 1, 2)) as H7.
  unfold keyOf in *. simpl in *.
  rewrite H1, H2, H3, H4, H5, H6, H7; [done|..];
    intros [= ]; try lia.
  destruct (b =? 1) eqn:?; lia.
Qed.

(** C1 (the code departs from it). The manual route seeds its index
    with every existing row, also the row of a student of the batch:
    moving S1 from (1,1,1) to (1,2,1) is refused because (1,1,1) still
    holds S1 itself, while the index the specification describes has
    no entry there and lets the move pass. *)
Theorem manual_index_keeps_moved_student :
  manualIndex occupied_room !! posKey 1 1 1
    = Some {| occ_studentId := "S1"; occ_classId := Some "classX" |}
  ∧ assignStudents scenarioA_students (Some occupied_room) move_S1
    = Some (ManualConstraint "S1" SingleSeatAdjacent, [])
  ∧ specManualIndex occupied_room move_S1 !! posKey 1 1 1 = None
  ∧ manualViolation occupied_room (specManualIndex occupied_room move_S1)
      1 2 1 (Some "classX") = None.
Proof. split_and!; by vm_compute. Qed.

(** C2 (the code departs from it). The manual route accepts a tuple
    aimed at a seat that a student outside the batch holds: moving S3
    onto (1,1,1), held by S1, is answered 200 although
    [isPositionAvailable] is false for that seat on the same index.
    The delete of S3's row and the insert on the occupied seat are both
    issued, the delete first; afterwards (1,1,1) holds S1 and S3. *)
Theorem manual_accepts_occupied_seat :
  let stored := studentAssignments two_seated_room in
  let result : ManualResponse * list Effect :=
    (ManualAssigned,
     [ DeleteMany ["S3"];
       CreateMany [ {| studentId := "S3"; row := 1; column := 1;
                       benchPosition := 1 |} ];
       CacheDel ]) in
  isPositionAvailable two_seated_room (manualIndex two_seated_room) 1 1 1
    (Some "classY") = false
  ∧ assignStudents scenarioA_students (Some two_seated_room) move_S3_onto_S1
    = Some result
  ∧ manualStatus result.1 = 200
  ∧ persist scenarioA_students stored [DeleteMany ["S3"]]
    = [ {| sa_studentId := "S1"; sa_row := 1; sa_column := 1;
           sa_benchPosition := 1; sa_classId := Some "classX" |} ]
  ∧ persist scenarioA_students stored result.2
    = [ {| sa_studentId := "S1"; sa_row := 1; sa_column := 1;
           sa_benchPosition := 1; sa_classId := Some "classX" |};
        {| sa_studentId := "S3"; sa_row := 1; sa_column := 1;
           sa_benchPosition := 1; sa_classId := Some "classY" |} ].
Proof. cbv zeta. split_and!; by vm_compute. Qed.

(** C3 (the code departs from it on the manual route). From a safe
    stored set on the grid, a manual assignment answered 200 leaves
    two occupants on (1,1,1) and the class-mates S1 and S2 on the
    adjacent seats (1,1,1) and (1,2,1). *)
Theorem manual_assignment_breaks_safety :
  let stored := studentAssignments occupied_room in
  let effects :=
    [ DeleteMany ["S3"; "S2"];
      CreateMany [ {| studentId := "S3"; row := 1; column := 1; benchPosition := 1 |};
                   {| studentId := "S2"; row := 1; column := 2; benchPosition := 1 |} ];
      CacheDel ] in
  safe occupied_room stored
  ∧ allInRange occupied_room stored
  ∧ assignStudents scenarioA_students (Some occupied_room) seat_S3_on_S1_then_S2
    = Some (ManualAssigned, effects)
  ∧ manualStatus ManualAssigned = 200
  ∧ ¬ uniqueSeats (persist scenarioA_students stored effects)
  ∧ ¬ noAdjacentClassmates (studentsPerBench occupied_room)
        (persist scenarioA_students stored effects).
Proof.
  cbv zeta.
  assert (persist scenarioA_students (studentAssignments occupied_room)
            [ DeleteMany ["S3"; "S2"];
              CreateMany
                [ {| studentId := "S3"; row := 1; column := 1; benchPosition := 1 |};
                  {| studentId := "S2"; row := 1; column := 2; benchPosition := 1 |} ];
              CacheDel ]
          = [ {| sa_studentId := "S1"; sa_row := 1; sa_column := 1;
                 sa_benchPosition := 1; sa_classId := Some "classX" |};
              {| sa_studentId := "S3"; sa_row := 1; sa_column := 1;
                 sa_benchPosition := 1; sa_classId := Some "classY" |};
              {| sa_studentId := "S2"; sa_row := 1; sa_column := 2;
                 sa_benchPosition := 1; sa_classId := Some "classX" |} ]) as ->
    by (by vm_compute).
  split_and!.
  - split.
    + unfold uniqueSeats. simpl. apply NoDup_singleton.
    + intros a b ->%list_elem_of_singleton ->%list_elem_of_singleton Hadj.
      by apply specAdjacent_irrefl in Hadj.
  - intros e ->%list_elem_of_singleton. unfold isInRange. simpl. lia.
  - by vm_compute.
  - by vm_compute.
  - unfold uniqueSeats. simpl. intros Hnd.
    apply NoDup_cons in Hnd as [Hnd _]. apply Hnd. left.
  - intros Hsafe.
    apply (Hsafe
             {| sa_studentId := "S1"; sa_row := 1; sa_column := 1;
                sa_benchPosition := 1; sa_classId := Some "classX" |}
             {| sa_studentId := "S2"; sa_row := 1; sa_column := 2;
                sa_benchPosition := 1; sa_classId := Some "classX" |}).
    + left.
    + right. right. left.
    + simpl. right. left.
    + done.
Qed.

(** * Further properties of the routes *)

(** ** Keys, the two checks, students without a class *)

(** X11. Two coordinates get the same [positionMap] key exactly when they
    are the same coordinate. *)
Theorem posKey_eq_iff r1 c1 b1 r2 c2 b2 :
  posKey r1 c1 b1 = posKey r2 c2 b2 ↔ (r1, c1, b1) = (r2, c2, b2).
Proof.
  split.
  - intros (-> & -> & ->)%posKey_inj. done.
  - intros [= -> -> ->]. done.
Qed.

Lemma isPositionAvailable_iff_manualViolation room pm r c b cls :
  isPositionAvailable room pm r c b cls = true
  ↔ pm !! posKey r c b = None ∧ manualViolation room pm r c b cls = None.
Proof.
  rewrite isPositionAvailable_manual, andb_true_iff, negb_true_iff,
    bool_decide_eq_false, bool_decide_eq_true.
  rewrite <- eq_None_not_Some. done.
Qed.


Lemma sameClass_falsy adj cls : truthy cls = false → sameClass adj cls = false.
Proof.
  intros Hcls. destruct adj as [a|]; [|done]. unfold sameClass.
  case_bool_decide as Heq; [|done]. by rewrite Heq, Hcls.
Qed.

(** X13. A student whose class id is null (or the empty string) is blocked
    by no neighbour: the automatic check only asks for a free seat and
    the manual check finds no violation. *)
Theorem student_without_class_never_blocked room pm r c b cls :
  truthy cls = false →
  isPositionAvailable room pm r c b cls
    = negb (bool_decide (is_Some (pm !! posKey r c b)))
  ∧ manualViolation room pm r c b cls = None.
Proof.
  intros Hcls.
  assert (manualViolation room pm r c b cls = None) as Hman.
  { unfold manualViolation. simpl. rewrite !sameClass_falsy by done.
    simpl. rewrite !andb_false_r. destruct (studentsPerBench room =? 1); reflexivity. }
  split; [|done].
  rewrite isPositionAvailable_manual, Hman.
  rewrite (bool_decide_eq_true_2 (@None Rule = None)) by done.
  apply andb_true_r.
Qed.

Lemma student_without_class_never_blocked_witness :
  isPositionAvailable occupied_room (manualIndex occupied_room) 1 2 1 None
    = negb (bool_decide (is_Some (manualIndex occupied_room !! posKey 1 2 1)))
  ∧ manualViolation occupied_room (manualIndex occupied_room) 1 2 1 None = None.
Proof.
  apply (student_without_class_never_blocked occupied_room
           (manualIndex occupied_room) 1 2 1 None).
  reflexivity.
Defined.

(** ** The scan and the greedy step *)

Lemma seqZ_sorted_nat (n : nat) :
  ∀ m, StronglySorted Z.lt (seqZ m (Z.of_nat n)).
Proof.
  induction n as [|n IH]; intros m.
  - rewrite seqZ_nil by lia. constructor.
  - rewrite seqZ_cons by lia.
    replace (Z.pred (Z.of_nat (S n))) with (Z.of_nat n) by lia.
    constructor; [apply IH|].
    apply Forall_forall. intros x Hx%elem_of_seqZ. lia.
Qed.

Lemma seqZ_sorted m n : StronglySorted Z.lt (seqZ m n).
Proof.
  destruct (decide (n ≤ 0)).
  - rewrite seqZ_nil by done. constructor.
  - replace n with (Z.of_nat (Z.to_nat n)) by lia. apply seqZ_sorted_nat.
Qed.

Lemma bind_sorted {A B} (R : relation A) (S : relation B) (f : A → list B) l :
  StronglySorted R l →
  (∀ x, x ∈ l → StronglySorted S (f x)) →
  (∀ x y a b, R x y → a ∈ f x → b ∈ f y → S a b) →
  StronglySorted S (l ≫= f).
Proof.
  intros Hl Hf Hcross. induction Hl as [|x l Hl IH Hx]; simpl; [constructor|].
  apply StronglySorted_app. split_and!.
  - intros a b Ha (y & Hb & Hy)%list_elem_of_bind.
    eapply Hcross; [|done..]. rewrite Forall_forall in Hx. by apply Hx.
  - apply Hf. left.
  - apply IH. intros y Hy. apply Hf. by right.
Qed.

Lemma scanBefore_irrefl p : ¬ scanBefore p p.
Proof. unfold scanBefore. lia. Qed.

Lemma scanBefore_asym p q : scanBefore p q → scanBefore q p → False.
Proof. unfold scanBefore. lia. Qed.

Lemma scanOrder_sorted room : StronglySorted scanBefore (scanOrder room).
Proof.
  unfold scanOrder.
  apply (bind_sorted Z.lt); [apply seqZ_sorted| |].
  - intros r _. apply (bind_sorted Z.lt); [apply seqZ_sorted| |].
    + intros c _. apply (bind_sorted Z.lt); [apply seqZ_sorted| |].
      * intros b _. repeat constructor.
      * intros b b' p q Hlt ->%list_elem_of_singleton ->%list_elem_of_singleton.
        unfold scanBefore. simpl. lia.
    + intros c c' p q Hlt (b & ->%list_elem_of_singleton & _)%list_elem_of_bind
        (b' & ->%list_elem_of_singleton & _)%list_elem_of_bind.
      unfold scanBefore. simpl. lia.
  - intros r r' p q Hlt (c & Hp & _)%list_elem_of_bind (c' & Hq & _)%list_elem_of_bind.
    apply list_elem_of_bind in Hp as (b & ->%list_elem_of_singleton & _).
    apply list_elem_of_bind in Hq as (b' & ->%list_elem_of_singleton & _).
    unfold scanBefore. simpl. lia.
Qed.

Lemma scanOrder_elem room p : p ∈ scanOrder room ↔ isInRange room p.
Proof.
  split; [apply scanOrder_inRange|].
  destruct p as [[r c] b]. unfold isInRange, scanOrder. simpl. intros Hp.
  apply list_elem_of_bind. exists r. split; [|apply elem_of_seqZ; lia].
  apply list_elem_of_bind. exists c. split; [|apply elem_of_seqZ; lia].
  apply list_elem_of_bind. exists b. split; [|apply elem_of_seqZ; lia].
  by apply list_elem_of_singleton.
Qed.

(** X1. The scan loops visit exactly the seats of the grid, each once, by
    ascending row, then column, then bench position. *)
Theorem scan_visits_each_seat_once_in_order room :
  (∀ p, p ∈ scanOrder room ↔ isInRange room p)
  ∧ NoDup (scanOrder room)
  ∧ StronglySorted scanBefore (scanOrder room).
Proof.
  split_and!; [apply scanOrder_elem| |apply scanOrder_sorted].
  pose proof (scanOrder_sorted room) as Hs.
  induction Hs as [|p l Hs IH Hp]; constructor; [|done].
  intros Hin. rewrite Forall_forall in Hp.
  by apply (scanBefore_irrefl p), Hp.
Qed.

Lemma find_first {A} (f : A → bool) l x :
  find f l = Some x →
  ∃ pre post, l = pre ++ x :: post ∧ f x = true ∧ Forall (λ y, f y = false) pre.
Proof.
  induction l as [|a l IH]; simpl; [done|].
  destruct (f a) eqn:Ha.
  - intros [= ->]. exists [], l. by repeat split.
  - intros (pre & post & -> & Hx & Hpre)%IH.
    exists (a :: pre), post. repeat split; [done|]. by constructor.
Qed.

Lemma placeStudent_first room st s :
  (∃ p, isInRange room p
        ∧ isPositionAvailable room (positionMap st) p.1.1 p.1.2 p.2
            (student_classId s) = true
        ∧ (∀ q, isInRange room q → scanBefore q p →
                isPositionAvailable room (positionMap st) q.1.1 q.1.2 q.2
                  (student_classId s) = false)
        ∧ placeStudent room st s =
            {| positionMap := <[keyOf p := occupantOf s]> (positionMap st);
               assignments := assignments st ++ [seat s p.1.1 p.1.2 p.2];
               unassignedStudents := unassignedStudents st |})
  ∨ ((∀ q, isInRange room q →
           isPositionAvailable room (positionMap st) q.1.1 q.1.2 q.2
             (student_classId s) = false)
     ∧ placeStudent room st s =
         {| positionMap := positionMap st;
            assignments := assignments st;
            unassignedStudents := unassignedStudents st ++ [s] |}).
Proof.
  unfold placeStudent.
  destruct (find _ (scanOrder room)) as [[[r c] b]|] eqn:Hfind.
  - left. exists (r, c, b).
    pose proof (scanOrder_sorted room) as Hsorted.
    apply find_first in Hfind as (pre & post & Hscan & Hok & Hpre).
    assert ((r, c, b) ∈ scanOrder room) as Hin
      by (rewrite Hscan; apply elem_of_app; right; left).
    split_and!; [by apply scanOrder_elem|done| |done].
    intros q Hq%scanOrder_elem Hbefore.
    rewrite Hscan in Hq, Hsorted.
    apply elem_of_app in Hq as [Hq|Hq].
    + rewrite Forall_forall in Hpre. specialize (Hpre q Hq).
      by destruct q as [[??]?].
    + apply StronglySorted_app_1_r, StronglySorted_cons in Hsorted as [Hafter _].
      apply elem_of_cons in Hq as [->|Hq].
      * by destruct (scanBefore_irrefl (r, c, b)).
      * rewrite Forall_forall in Hafter.
        destruct (scanBefore_asym q (r, c, b)); [done|by apply Hafter].
  - right. split; [|done].
    intros q Hq%scanOrder_elem.
    pose proof (find_none _ _ Hfind q) as Hnone.
    destruct q as [[??]?]. apply Hnone. by apply list_elem_of_In.
Qed.

(** X2. The greedy step: a student is seated on the first seat of the grid,
    in scan order, that is available for its class, and is reported as
    unplaced exactly when no seat of the grid is available. *)
Theorem student_takes_first_available_seat room st s :
  (∃ p, isInRange room p
        ∧ isPositionAvailable room (positionMap st) p.1.1 p.1.2 p.2
            (student_classId s) = true
        ∧ (∀ q, isInRange room q → scanBefore q p →
                isPositionAvailable room (positionMap st) q.1.1 q.1.2 q.2
                  (student_classId s) = false)
        ∧ placeStudent room st s =
            {| positionMap := <[keyOf p := occupantOf s]> (positionMap st);
               assignments := assignments st ++ [seat s p.1.1 p.1.2 p.2];
               unassignedStudents := unassignedStudents st |})
  ∨ ((∀ q, isInRange room q →
           isPositionAvailable room (positionMap st) q.1.1 q.1.2 q.2
             (student_classId s) = false)
     ∧ placeStudent room st s =
         {| positionMap := positionMap st;
            assignments := assignments st;
            unassignedStudents := unassignedStudents st ++ [s] |}).
Proof. apply placeStudent_first. Qed.

(** ** What a run of the automatic route produces *)

Lemma pushByClass_perm s groups :
  concat (map snd (pushByClass s groups)) ≡ₚ s :: concat (map snd groups).
Proof.
  induction groups as [|[k ss] groups IH]; simpl; [done|].
  case_bool_decide; simpl.
  - rewrite <- app_assoc. simpl.
    by rewrite <- Permutation_middle.
  - rewrite IH. by rewrite <- Permutation_middle.
Qed.

Lemma studentsByClass_acc_perm students :
  ∀ groups,
    concat (map snd (foldl (λ g s, pushByClass s g) groups students))
    ≡ₚ concat (map snd groups) ++ students.
Proof.
  induction students as [|s students IH]; intros groups; simpl.
  - by rewrite app_nil_r.
  - rewrite IH, pushByClass_perm. by rewrite <- Permutation_middle.
Qed.

(** Grouping by class only reorders the students. *)
Lemma studentsByClass_perm students :
  concat (map snd (studentsByClass students)) ≡ₚ students.
Proof. unfold studentsByClass. by rewrite studentsByClass_acc_perm. Qed.

(** Every student the loop has gone through is either seated or
    reported, once. *)
Lemma placement_accounts room order :
  ∀ st,
    map studentId (assignments (foldl (placeStudent room) st order))
      ++ map student_id (unassignedStudents (foldl (placeStudent room) st order))
    ≡ₚ (map studentId (assignments st) ++ map student_id (unassignedStudents st))
       ++ map student_id order.
Proof.
  induction order as [|s order IH]; intros st; simpl.
  - by rewrite app_nil_r.
  - rewrite IH. clear IH.
    assert (map studentId (assignments (placeStudent room st s))
              ++ map student_id (unassignedStudents (placeStudent room st s))
            ≡ₚ student_id s
               :: map studentId (assignments st)
                  ++ map student_id (unassignedStudents st)) as ->.
    { unfold placeStudent.
      destruct (find _ _) as [[[r c] b]|]; simpl; rewrite map_app; simpl.
      - rewrite <- app_assoc. simpl. by rewrite <- Permutation_middle.
      - rewrite app_assoc. by rewrite <- Permutation_cons_append. }
    by rewrite <- Permutation_middle.
Qed.

Lemma solve_accounts room pm students :
  map studentId (assignments (solve room pm students))
    ++ map student_id (unassignedStudents (solve room pm students))
  ≡ₚ map student_id students.
Proof.
  unfold solve. rewrite placement_accounts. simpl.
  by rewrite studentsByClass_perm.
Qed.

Lemma findMany_resolves_all tbl ids :
  NoDup (map student_id tbl) →
  NoDup ids →
  length (findMany tbl ids) = length ids →
  map student_id (findMany tbl ids) ≡ₚ ids.
Proof.
  intros Htbl Hids Hlen.
  apply submseteq_length_Permutation.
  - apply NoDup_submseteq.
    + eapply sublist_NoDup; [exact Htbl|].
      apply fmap_sublist. unfold findMany. apply sublist_filter.
    + intros x (s & -> & Hs)%list_elem_of_fmap. by eapply findMany_ids.
  - rewrite length_map. lia.
Qed.

Lemma autoAssign_success_perm tbl room studentIds n assigned effects :
  NoDup (map student_id tbl) →
  autoAssign tbl (Some room) studentIds = (AutoAssigned n assigned, effects) →
  map studentId assigned ≡ₚ studentIds
  ∧ n = length studentIds
  ∧ NoDup studentIds
  ∧ effects = [DeleteMany studentIds; CreateMany assigned; CacheDel].
Proof.
  intros Htbl. unfold autoAssign.
  case_bool_decide as Hne; [done|]. case_bool_decide as Hfound; [done|].
  case_bool_decide as Huniq; [done|]. case_bool_decide as Hun; [done|].
  assert (length (findMany tbl studentIds) = length studentIds) as Hlen by lia.
  assert (NoDup studentIds) as Hnd by (apply newSet_length_iff; lia).
  rewrite (newSet_id studentIds) in Hun |- * by done.
  match goal with
  | |- context [solve room ?pm ?students] => set (st := solve room pm students) in *
  end.
  assert (unassignedStudents st = []) as Hnone.
  { destruct (decide (unassignedStudents st = [])); [done|].
    exfalso. first [tauto|congruence]. }
  assert (map studentId (assignments st) ≡ₚ studentIds) as Hperm.
  { pose proof (solve_accounts room
                  (removeReassigned studentIds
                     (newSet (map sa_studentId (studentAssignments room)))
                     (buildPositionMap (studentAssignments room)))
                  (findMany tbl studentIds)) as Hacc.
    fold st in Hacc. rewrite Hnone in Hacc. simpl in Hacc.
    rewrite app_nil_r in Hacc. rewrite Hacc.
    by apply findMany_resolves_all. }
  intros [= <- <- <-]. split_and!; [done| |done|].
  - by rewrite <- (length_map studentId), Hperm.
  - case_bool_decide as Hempty; [done|].
    exfalso. apply Hne.
    assert (assignments st = []) as Hnil
      by (destruct (assignments st); [done|by destruct Hempty]).
    rewrite Hnil in Hperm. simpl in Hperm.
    by apply Permutation_nil_l in Hperm.
Qed.

(** X6. A successful automatic assignment seats every requested student
    exactly once: the student ids of the rows it writes are the
    requested ids, up to order, and the reported count is their
    number. *)
Theorem auto_success_seats_each_requested_student tbl room studentIds n assigned effects :
  NoDup (map student_id tbl) →
  autoAssign tbl (Some room) studentIds = (AutoAssigned n assigned, effects) →
  map studentId assigned ≡ₚ studentIds
  ∧ n = length studentIds
  ∧ NoDup studentIds
  ∧ effects = [DeleteMany studentIds; CreateMany assigned; CacheDel].
Proof. apply autoAssign_success_perm. Qed.

Lemma auto_success_seats_each_requested_student_witness :
  map studentId
    [ {| studentId := "S1"; row := 1; column := 1; benchPosition := 1 |};
      {| studentId := "S3"; row := 1; column := 2; benchPosition := 1 |} ]
  ≡ₚ ["S3"; "S1"]
  ∧ 2%nat = length ["S3"; "S1"]
  ∧ NoDup ["S3"; "S1"]
  ∧ [DeleteMany ["S3"; "S1"];
     CreateMany
       [ {| studentId := "S1"; row := 1; column := 1; benchPosition := 1 |};
         {| studentId := "S3"; row := 1; column := 2; benchPosition := 1 |} ];
     CacheDel]
    = [DeleteMany ["S3"; "S1"];
       CreateMany
         [ {| studentId := "S1"; row := 1; column := 1; benchPosition := 1 |};
           {| studentId := "S3"; row := 1; column := 2; benchPosition := 1 |} ];
       CacheDel].
Proof.
  apply (auto_success_seats_each_requested_student scenarioA_students
           scenarioA_room ["S3"; "S1"]).
  - compute_done.
  - by vm_compute.
Defined.

(** Invariant of the placement loop in any stored state: the seats
    given out are distinct seats of the grid, free in the index the
    loop started from and taken in the current one. *)
Lemma placement_seats room (pm0 : gmap string Occupant) order :
  ∀ st,
    (∀ k, is_Some (pm0 !! k) → is_Some (positionMap st !! k)) →
    NoDup (map seatOf (assignments st)) →
    (∀ a, a ∈ assignments st →
          isInRange room (seatOf a) ∧ pm0 !! keyOf (seatOf a) = None
          ∧ is_Some (positionMap st !! keyOf (seatOf a))) →
    let st' := foldl (placeStudent room) st order in
    NoDup (map seatOf (assignments st'))
    ∧ ∀ a, a ∈ assignments st' →
           isInRange room (seatOf a) ∧ pm0 !! keyOf (seatOf a) = None.
Proof.
  induction order as [|s order IH]; intros st Hmono Hnd Hall; simpl.
  - split; [done|]. intros a Ha. destruct (Hall a Ha) as (? & ? & ?). done.
  - destruct (placeStudent_first room st s)
      as [(p & Hp & Hok & _ & Hst)|[_ Hst]]; rewrite Hst; clear Hst.
    + apply isPositionAvailable_iff_manualViolation in Hok as [Hfree _].
      change (posKey p.1.1 p.1.2 p.2) with (keyOf p) in Hfree.
      assert (seatOf (seat s p.1.1 p.1.2 p.2) = p) as Hseat
        by (by destruct p as [[??]?]).
      apply IH; cbn [positionMap assignments].
      * intros k Hk. destruct (decide (k = keyOf p)) as [->|Hne].
        -- rewrite lookup_insert_eq. eauto.
        -- rewrite lookup_insert_ne by done. by apply Hmono.
      * rewrite map_app. apply NoDup_app. split_and!; [done| |apply NoDup_singleton].
        intros q (a & -> & Ha)%list_elem_of_fmap Hq.
        apply list_elem_of_singleton in Hq. rewrite Hseat in Hq.
        destruct (Hall a Ha) as (_ & _ & [o Ho]). rewrite Hq in Ho. congruence.
      * intros a [Ha|Ha]%elem_of_app.
        -- destruct (Hall a Ha) as (? & ? & [o Ho]). split_and!; [done..|].
           destruct (decide (keyOf (seatOf a) = keyOf p)) as [->|Hne].
           ++ rewrite lookup_insert_eq. eauto.
           ++ rewrite lookup_insert_ne by done. eauto.
        -- apply list_elem_of_singleton in Ha. subst a. rewrite Hseat.
           split_and!; [done| |rewrite lookup_insert_eq; eauto].
           destruct (pm0 !! keyOf p) eqn:Hpm0; [|done].
           destruct (Hmono (keyOf p)) as [o' Ho']; [eauto|]. congruence.
    + by apply IH.
Qed.

(** X7. Whatever the stored rows are, the rows a successful automatic
    assignment writes are on pairwise distinct seats of the grid, none
    of them a seat that the index held for a student outside the
    request. *)
Theorem auto_success_writes_distinct_free_seats tbl room studentIds n assigned effects :
  autoAssign tbl (Some room) studentIds = (AutoAssigned n assigned, effects) →
  NoDup (map seatOf assigned)
  ∧ ∀ a, a ∈ assigned →
      isInRange room (seatOf a)
      ∧ removeReassigned (newSet studentIds)
          (newSet (map sa_studentId (studentAssignments room)))
          (buildPositionMap (studentAssignments room)) !! keyOf (seatOf a) = None.
Proof.
  unfold autoAssign.
  case_bool_decide; [done|]. case_bool_decide; [done|].
  case_bool_decide; [done|]. case_bool_decide; [done|].
  intros [= _ <- _]. unfold solve.
  apply (placement_seats room); simpl; [done|constructor|].
  intros a Ha. by apply elem_of_nil in Ha.
Qed.

Lemma auto_success_writes_distinct_free_seats_witness :
  NoDup (map seatOf
           [ {| studentId := "S2"; row := 1; column := 3; benchPosition := 1 |} ])
  ∧ ∀ a, a ∈ [ {| studentId := "S2"; row := 1; column := 3; benchPosition := 1 |} ] →
      isInRange occupied_room (seatOf a)
      ∧ removeReassigned (newSet ["S2"])
          (newSet (map sa_studentId (studentAssignments occupied_room)))
          (buildPositionMap (studentAssignments occupied_room)) !! keyOf (seatOf a)
        = None.
Proof.
  eapply (auto_success_writes_distinct_free_seats scenarioA_students occupied_room
            ["S2"] 1).
  by vm_compute.
Defined.

(** X4. The index the placement loop starts from holds exactly the stored
    rows of the students that are not in the request (given one stored
    row per seat). *)
Theorem auto_index_drops_requested_students room studentIds k o :
  uniqueSeats (studentAssignments room) →
  (removeReassigned (newSet studentIds)
     (newSet (map sa_studentId (studentAssignments room)))
     (buildPositionMap (studentAssignments room))) !! k = Some o
  ↔ ∃ e, e ∈ studentAssignments room ∧ (sa_studentId e ∉ studentIds)
         ∧ k = keyOf (coordOf e) ∧ o = occOf e.
Proof.
  intros Huniq.
  pose proof (auto_index_represents (studentAssignments room)
                (newSet studentIds) Huniq k o) as ->.
  split.
  - intros (e & [Hout He]%list_elem_of_filter & -> & ->).
    exists e. split_and!; try done. by rewrite <- elem_of_newSet.
  - intros (e & He & Hout & -> & ->). exists e. split_and!; try done.
    apply list_elem_of_filter. split; [|done]. by rewrite elem_of_newSet.
Qed.

Lemma auto_index_drops_requested_students_witness :
  (removeReassigned (newSet ["S3"])
     (newSet (map sa_studentId (studentAssignments two_seated_room)))
     (buildPositionMap (studentAssignments two_seated_room))) !! posKey 1 3 1
  = Some {| occ_studentId := "S3"; occ_classId := Some "classY" |}
  ↔ ∃ e, e ∈ studentAssignments two_seated_room ∧ (sa_studentId e ∉ ["S3"])
         ∧ posKey 1 3 1 = keyOf (coordOf e)
         ∧ {| occ_studentId := "S3"; occ_classId := Some "classY" |} = occOf e.
Proof.
  apply (auto_index_drops_requested_students two_seated_room ["S3"]).
  unfold uniqueSeats. compute_done.
Defined.

(** X10. The automatic route calls the store exactly when it answers 200. *)
Theorem auto_store_calls_only_on_success tbl found studentIds :
  (autoAssign tbl found studentIds).2 = []
  ↔ autoStatus (autoAssign tbl found studentIds).1 ≠ 200.
Proof.
  unfold autoAssign. repeat case_match; simpl; split; try done.
Qed.

Lemma auto_assign_preserves_safety_witness :
  safe occupied_room
    (persist scenarioA_students (studentAssignments occupied_room)
       (autoAssign scenarioA_students (Some occupied_room) ["S3"]).2)
  ∧ allInRange occupied_room
      (persist scenarioA_students (studentAssignments occupied_room)
         (autoAssign scenarioA_students (Some occupied_room) ["S3"]).2).
Proof.
  eapply (auto_assign_preserves_safety scenarioA_students occupied_room ["S3"]).
  - by left.
  - compute_done.
  - split; [apply NoDup_singleton|].
    intros a b ->%list_elem_of_singleton ->%list_elem_of_singleton Hadj.
    by apply specAdjacent_irrefl in Hadj.
  - intros e ->%list_elem_of_singleton. unfold isInRange. simpl. lia.
  - by vm_compute.
Defined.

(** ** Grouping by class *)

Lemma pushByClass_keys s groups :
  map fst (pushByClass s groups)
  = if bool_decide (student_classId s ∈ map fst groups)
    then map fst groups else map fst groups ++ [student_classId s].
Proof.
  induction groups as [|[k ss] groups IH]; [done|].
  destruct (decide (student_classId s = k)) as [Heq|Hne].
  - rewrite pushByClass_same by done. simpl.
    rewrite bool_decide_eq_true_2; [done|]. rewrite Heq. left.
  - rewrite pushByClass_other by done. simpl. rewrite IH.
    destruct (decide (student_classId s ∈ map fst groups)) as [Hin|Hin].
    + rewrite !bool_decide_eq_true_2; [done| by right | done].
    + rewrite !bool_decide_eq_false_2; [done| | done].
      intros [?|?]%elem_of_cons; [congruence|done].
Qed.

Lemma pushByClass_group s groups k ss :
  NoDup (map fst groups) →
  (k, ss) ∈ pushByClass s groups →
  (k ≠ student_classId s ∧ (k, ss) ∈ groups)
  ∨ (k = student_classId s
     ∧ ((∃ ss0, (k, ss0) ∈ groups ∧ ss = ss0 ++ [s])
        ∨ ((k ∉ map fst groups) ∧ ss = [s]))).
Proof.
  induction groups as [|[k' ss'] groups IH]; intros Hnd Hin.
  - simpl in Hin. apply list_elem_of_singleton in Hin.
    injection Hin as -> ->. right. split; [done|]. right.
    split; [apply not_elem_of_nil|done].
  - simpl in Hnd. apply NoDup_cons in Hnd as [Hk' Hnd].
    destruct (decide (student_classId s = k')) as [Heq|Hne].
    + rewrite pushByClass_same in Hin by done.
      apply elem_of_cons in Hin as [Hin|Hin].
      * injection Hin as -> ->. right. split; [done|]. left.
        exists ss'. split; [left|done].
      * left. split; [|by right]. intros ->. apply Hk'. rewrite <- Heq.
        apply list_elem_of_fmap. by exists (student_classId s, ss).
    + rewrite pushByClass_other in Hin by done.
      apply elem_of_cons in Hin as [Hin|Hin].
      * injection Hin as -> ->. left. split; [congruence|left].
      * destruct (IH Hnd Hin) as [[Hne' Hin']|[-> [(ss0 & Hin' & ->)|[Hnot ->]]]].
        -- left. split; [done|by right].
        -- right. split; [done|]. left. exists ss0. split; [by right|done].
        -- right. split; [done|]. right. split; [|done]. simpl.
           intros [?|?]%elem_of_cons; [congruence|done].
Qed.

Lemma filter_none {A} (P : A → Prop) `{!∀ x, Decision (P x)} (l : list A) :
  (∀ x, x ∈ l → ¬ P x) → filter P l = [].
Proof.
  induction l as [|a l IH]; intros Hl; [done|].
  rewrite filter_cons_False by (apply Hl; left).
  apply IH. intros x Hx. apply Hl. by right.
Qed.

Lemma studentsByClass_snoc students s :
  studentsByClass (students ++ [s]) = pushByClass s (studentsByClass students).
Proof. unfold studentsByClass. by rewrite foldl_snoc. Qed.

(** X3. [studentsByClass] is a stable partition by class: the keys are
    distinct and are the classes that occur, and the group under a key
    is the list of the students of that class in their input order. *)
Theorem groups_are_a_stable_partition students :
  NoDup (map fst (studentsByClass students))
  ∧ (∀ k, k ∈ map fst (studentsByClass students)
          ↔ k ∈ map student_classId students)
  ∧ (∀ k ss, (k, ss) ∈ studentsByClass students →
       ss = filter (λ s, student_classId s = k) students).
Proof.
  induction students as [|s students (Hnd & Hkeys & Hgroups)] using rev_ind.
  - split_and!; [constructor|done|]. intros k ss []%elem_of_nil.
  - rewrite studentsByClass_snoc. split_and!.
    + rewrite pushByClass_keys. case_bool_decide as Hin; [done|].
      apply NoDup_app. split_and!; [done| |apply NoDup_singleton].
      intros k Hk ->%list_elem_of_singleton. done.
    + intros k. rewrite pushByClass_keys, map_app, elem_of_app. simpl.
      rewrite list_elem_of_singleton, <- Hkeys.
      case_bool_decide as Hin.
      * split; [tauto|]. intros [?| ->]; done.
      * rewrite elem_of_app, list_elem_of_singleton. done.
    + intros k ss Hin. rewrite filter_app.
      apply (pushByClass_group _ _ _ _ Hnd) in Hin
        as [[Hne Hin]|[-> [(ss0 & Hin & ->)|[Hnot ->]]]].
      * rewrite (Hgroups k ss Hin). rewrite filter_cons_False by done.
        by rewrite filter_nil, app_nil_r.
      * rewrite (Hgroups _ ss0 Hin). rewrite filter_cons_True by done.
        by rewrite filter_nil.
      * rewrite filter_cons_True by done. rewrite filter_nil.
        replace (filter _ students) with (@nil Student); [done|].
        symmetry. apply filter_none.
        intros s' Hs' Hcls. apply Hnot, Hkeys.
        apply list_elem_of_fmap. exists s'. by split.
Qed.

(** ** The manual route: validation and commit *)

Lemma validateTuples_acc room l :
  ∀ studentIds positions ids,
    validateTuples room studentIds positions l = inr ids
    ↔ ids = studentIds ++ map t_studentId l
      ∧ NoDup (map t_studentId l)
      ∧ (∀ x, x ∈ map t_studentId l → x ∉ studentIds)
      ∧ Forall (λ a, isInRange room (targetOf a)) l
      ∧ NoDup (map (keyOf ∘ targetOf) l)
      ∧ (∀ k, k ∈ map (keyOf ∘ targetOf) l → k ∉ positions).
Proof.
  induction l as [|a l IH]; intros studentIds positions ids; simpl.
  - split.
    + intros [= <-]. rewrite app_nil_r.
      split_and!; try done; try constructor; by intros ? ?%elem_of_nil.
    + intros (-> & _). by rewrite app_nil_r.
  - destruct (decide (t_studentId a ∈ studentIds)) as [Hdup|Hnew].
    { rewrite bool_decide_eq_true_2 by done. split; [done|].
      intros (_ & _ & Hfresh & _). destruct (Hfresh (t_studentId a)); [left|done]. }
    rewrite bool_decide_eq_false_2 by done.
    destruct ((t_row a <? 1) || (rows room <? t_row a)
              || (t_column a <? 1) || (columns room <? t_column a)) eqn:Hpos.
    { split; [done|]. intros (_ & _ & _ & Hrange & _).
      apply Forall_cons in Hrange as [Hrange _].
      unfold isInRange, targetOf in Hrange. simpl in Hrange. lia. }
    destruct ((tupleBenchPos (t_benchPosition a) <? 1)
              || (studentsPerBench room <? tupleBenchPos (t_benchPosition a)))
      eqn:Hbench.
    { split; [done|]. intros (_ & _ & _ & Hrange & _).
      apply Forall_cons in Hrange as [Hrange _].
      unfold isInRange, targetOf in Hrange. simpl in Hrange. lia. }
    change (posKey (t_row a) (t_column a) (tupleBenchPos (t_benchPosition a)))
      with (keyOf (targetOf a)).
    destruct (decide (keyOf (targetOf a) ∈ positions)) as [Hseat|Hfree].
    { rewrite bool_decide_eq_true_2 by done. split; [done|].
      intros (_ & _ & _ & _ & _ & Hfresh).
      destruct (Hfresh (keyOf (targetOf a))); [left|done]. }
    rewrite bool_decide_eq_false_2 by done.
    rewrite !setAdd_new by done. rewrite IH. clear IH.
    rewrite <- app_assoc. simpl.
    rewrite !NoDup_cons, Forall_cons.
    assert (isInRange room (targetOf a)) as Hin
      by (unfold isInRange, targetOf; simpl; lia).
    split.
    + intros (-> & Hnd & Hfresh & Hrange & Hkeys & Hkfresh).
      split_and!; try done.
      * intros Hx. apply (Hfresh _ Hx). apply elem_of_app. right. left.
      * intros x [->|Hx]%elem_of_cons; [done|].
        intros Hx'. apply (Hfresh _ Hx). apply elem_of_app. by left.
      * intros Hk. apply (Hkfresh _ Hk). apply elem_of_app. right. left.
      * intros k [->|Hk]%elem_of_cons; [done|].
        intros Hk'. apply (Hkfresh _ Hk). apply elem_of_app. by left.
    + intros (-> & [Ha Hnd] & Hfresh & [_ Hrange] & [Hka Hkeys] & Hkfresh).
      split_and!; try done.
      * intros x Hx [Hx'|Hx']%elem_of_app.
        -- apply (Hfresh x); [by right|done].
        -- apply list_elem_of_singleton in Hx'. by subst.
      * intros k Hk [Hk'|Hk']%elem_of_app.
        -- apply (Hkfresh k); [by right|done].
        -- apply list_elem_of_singleton in Hk'. by subst.
Qed.

Lemma NoDup_keys_seats (l : list (Z * Z * Z)) :
  NoDup (map keyOf l) ↔ NoDup l.
Proof.
  split; [apply NoDup_fmap_1|].
  intros Hnd. apply NoDup_fmap_2_strong; [|done].
  intros p q _ _. apply keyOf_inj.
Qed.

Lemma validateTuples_ok_iff room batch ids :
  validateTuples room [] [] batch = inr ids
  ↔ ids = map t_studentId batch
    ∧ NoDup (map t_studentId batch)
    ∧ Forall (λ a, isInRange room (targetOf a)) batch
    ∧ NoDup (map targetOf batch).
Proof.
  rewrite validateTuples_acc. simpl.
  rewrite <- (NoDup_keys_seats (map targetOf batch)), map_map.
  split.
  - intros (-> & ? & _ & ? & ? & _). done.
  - intros (-> & ? & ? & ?). split_and!; try done; intros ? _ ?%elem_of_nil; done.
Qed.

(** *** Integer tuples: the route on [jsonOf] *)

Lemma benchPosOf_jsonOf a :
  benchPosOf (m_benchPosition (jsonOf a)) = JsNumber (tupleBenchPos (t_benchPosition a)).
Proof.
  unfold benchPosOf, jsonOf, tupleBenchPos. simpl.
  destruct (t_benchPosition a) as [b|]; [|done]. simpl.
  by destruct (b =? 0).
Qed.

Lemma templateKey_integers r c b :
  templateKey (JsNumber r) (JsNumber c) (JsNumber b) = Some (posKey r c b).
Proof. done. Qed.

Lemma validateAssignments_integers room l :
  ∀ studentIds positions,
    validateAssignments room studentIds positions (map jsonOf l)
    = Some (validateTuples room studentIds positions l).
Proof.
  induction l as [|a l IH]; intros studentIds positions; [done|].
  cbn [map validateAssignments validateTuples].
  change (m_studentId (jsonOf a)) with (t_studentId a).
  case_bool_decide; [done|].
  rewrite benchPosOf_jsonOf.
  change (m_row (jsonOf a)) with (JsNumber (t_row a)).
  change (m_column (jsonOf a)) with (JsNumber (t_column a)).
  rewrite !jsLt_integer, !jsGt_integer, templateKey_integers.
  unfold jsOr. cbn [mbind option_bind].
  destruct (t_row a <? 1), (rows room <? t_row a), (t_column a <? 1),
    (columns room <? t_column a); cbn [mbind option_bind orb]; try done.
  destruct (tupleBenchPos (t_benchPosition a) <? 1),
    (studentsPerBench room <? tupleBenchPos (t_benchPosition a));
    cbn [mbind option_bind orb]; try done.
  case_bool_decide; [done|]. apply IH.
Qed.

Lemma requestViolation_integers room pm r c b cls :
  requestViolation room pm (JsNumber r) (JsNumber c) (JsNumber b) cls
  = Some (manualViolation room pm r c b cls).
Proof.
  unfold requestViolation, manualViolation. cbn [toStringJs mbind option_bind].
  destruct (studentsPerBench room =? 1).
  - done.
  - assert (bool_decide (JsNumber b = JsNumber 1) = (b =? 1)) as ->.
    { destruct (b =? 1) eqn:Hb.
      - apply bool_decide_eq_true_2. f_equal. lia.
      - apply bool_decide_eq_false_2. intros [= ->]. done. }
    assert (keyText (pretty r) (pretty c) (if b =? 1 then "2" else "1")
            = posKey r c (if b =? 1 then 2 else 1)) as -> by (by destruct (b =? 1)).
    destruct (sameClass (pm !! posKey r c (if b =? 1 then 2 else 1)) cls); [done|].
    unfold jsGt, jsLt, minusOneText, plusOneText.
    cbn [toNumber mbind option_bind fmap option_fmap option_map numToString jsAnd].
    change (keyText (pretty r) (pretty (c - 1)) "1") with (posKey r (c - 1) 1).
    change (keyText (pretty r) (pretty (c - 1)) "2") with (posKey r (c - 1) 2).
    change (keyText (pretty r) (pretty (c + 1)) "1") with (posKey r (c + 1) 1).
    change (keyText (pretty r) (pretty (c + 1)) "2") with (posKey r (c + 1) 2).
    destruct (1 <? c); cbn.
    + destruct (_ || _); [done|].
      destruct (c <? columns room); cbn; [|done]. by destruct (_ || _).
    + destruct (c <? columns room); cbn; [|done]. by destruct (_ || _).
Qed.

Lemma checkConstraints_integers room studentMap l :
  ∀ pm,
    checkConstraints room studentMap pm (map jsonOf l)
    = Some (checkTuples room studentMap pm l).
Proof.
  induction l as [|a l IH]; intros pm; [done|].
  cbn [map checkConstraints checkTuples].
  change (m_studentId (jsonOf a)) with (t_studentId a).
  destruct (studentMap !! t_studentId a) as [student|]; [|apply IH].
  rewrite benchPosOf_jsonOf.
  change (m_row (jsonOf a)) with (JsNumber (t_row a)).
  change (m_column (jsonOf a)) with (JsNumber (t_column a)).
  rewrite templateKey_integers, requestViolation_integers.
  cbn [mbind option_bind].
  destruct (manualViolation _ _ _ _ _ _); [done|]. apply IH.
Qed.

Lemma toRow_integer a r :
  toRow (jsonOf a) = Some r → r = tupleRow a.
Proof.
  unfold toRow. rewrite benchPosOf_jsonOf.
  change (m_row (jsonOf a)) with (JsNumber (t_row a)).
  change (m_column (jsonOf a)) with (JsNumber (t_column a)).
  unfold parseInt, exactNum.
  destruct (Z.abs (t_row a) <=? 2 ^ 53); [|done].
  destruct (Z.abs (t_column a) <=? 2 ^ 53); [|done].
  cbn. by intros [= <-].
Qed.

Lemma mapM_toRow_integers batch data :
  mapM toRow (map jsonOf batch) = Some data → data = map tupleRow batch.
Proof.
  revert data. induction batch as [|a batch IH]; intros data; simpl.
  - by intros [= <-].
  - destruct (toRow (jsonOf a)) as [r|] eqn:Hr; [|done]. simpl.
    destruct (mapM toRow (map jsonOf batch)) as [rs|]; [|done]. simpl.
    intros [= <-]. f_equal; [by apply toRow_integer|by apply IH].
Qed.

(** The route on a batch of integer tuples, as far as it answers 200. *)
Lemma assignStudents_integers_success tbl room batch effects :
  assignStudents tbl (Some room) (map jsonOf batch) = Some (ManualAssigned, effects) →
  assignTuples tbl (Some room) batch = (ManualAssigned, effects).
Proof.
  unfold assignStudents, assignTuples.
  rewrite validateAssignments_integers. cbn [mbind option_bind].
  destruct (validateTuples room [] [] batch) as [err|ids]; [by intros [= <- <-]|].
  case_bool_decide; [done|].
  rewrite checkConstraints_integers. cbn [mbind option_bind].
  destruct (checkTuples _ _ _ _) as [err|pm]; [by intros [= <- <-]|].
  destruct (mapM toRow (map jsonOf batch)) as [data|] eqn:Hdata; [|done].
  apply mapM_toRow_integers in Hdata as ->. cbn. by intros [= <-].
Qed.

(** In a room whose dimensions are numbers that JavaScript holds
    exactly, the route answers every batch of integer tuples, and as
    the integers say. *)
Lemma assignStudents_integers tbl found batch :
  (∀ room, found = Some room → rows room ≤ 2 ^ 53 ∧ columns room ≤ 2 ^ 53) →
  assignStudents tbl found (map jsonOf batch) = Some (assignTuples tbl found batch).
Proof.
  intros Hdims. unfold assignStudents, assignTuples.
  destruct found as [room|]; [|done].
  destruct (Hdims room eq_refl) as [Hrows Hcols].
  rewrite validateAssignments_integers. cbn [mbind option_bind].
  destruct (validateTuples room [] [] batch) as [err|ids] eqn:Hval; [done|].
  apply validateTuples_ok_iff in Hval as (-> & _ & Hrange & _).
  case_bool_decide; [done|].
  rewrite checkConstraints_integers. cbn [mbind option_bind].
  destruct (checkTuples _ _ _ _) as [err|pm]; [done|].
  assert (mapM toRow (map jsonOf batch) = Some (map tupleRow batch)) as ->; [|done].
  apply mapM_Some. clear -Hrange Hrows Hcols.
  induction batch as [|a batch IH]; simpl; [constructor|].
  apply Forall_cons in Hrange as [[Hr [Hc _]] Hrange].
  constructor; [|by apply IH].
  unfold toRow. rewrite benchPosOf_jsonOf.
  change (m_row (jsonOf a)) with (JsNumber (t_row a)).
  change (m_column (jsonOf a)) with (JsNumber (t_column a)).
  unfold parseInt, exactNum. unfold targetOf in Hr, Hc. simpl in Hr, Hc.
  rewrite !(proj2 (Z.leb_le _ _)) by lia. done.
Qed.

(** X14. On a batch whose rows, columns and bench positions are
    numbers with an integer value (the bench position may be absent),
    the first loop of the manual route lets the batch through exactly
    when no student occurs twice, every tuple aims at a seat of the
    grid, and no two tuples aim at the same seat; it then hands on the
    student ids in input order. *)
Theorem manual_validation_accepts_exactly room batch ids :
  validateAssignments room [] [] (map jsonOf batch) = Some (inr ids)
  ↔ ids = map t_studentId batch
    ∧ NoDup (map t_studentId batch)
    ∧ Forall (λ a, isInRange room (targetOf a)) batch
    ∧ NoDup (map targetOf batch).
Proof.
  rewrite validateAssignments_integers, <- validateTuples_ok_iff.
  split; [by intros [= ->]|by intros ->].
Qed.

Lemma validateTuples_error room l :
  ∀ studentIds positions err,
    validateTuples room studentIds positions l = inl err →
    manualStatus err = 400.
Proof.
  induction l as [|a l IH]; intros studentIds positions err; simpl; [done|].
  repeat case_match; try (intros [= <-]; done). apply IH.
Qed.

Lemma checkTuples_error room studentMap l :
  ∀ pm err,
    checkTuples room studentMap pm l = inl err → manualStatus err = 400.
Proof.
  induction l as [|a l IH]; intros pm err; simpl; [done|].
  repeat case_match; try (intros [= <-]; done); apply IH.
Qed.

Lemma validateAssignments_error room l :
  ∀ studentIds positions err,
    validateAssignments room studentIds positions l = Some (inl err) →
    manualStatus err = 400.
Proof.
  induction l as [|a l IH]; intros studentIds positions err;
    cbn [validateAssignments]; [done|].
  case_bool_decide; [by intros [= <-]|].
  destruct (jsOr (jsLt (m_row a) 1) _) as [[]|];
    cbn [mbind option_bind]; [by intros [= <-]| |done].
  destruct (jsOr (jsLt (benchPosOf _) 1) _) as [[]|];
    cbn [mbind option_bind]; [by intros [= <-]| |done].
  destruct (templateKey _ _ _) as [key|]; cbn [mbind option_bind]; [|done].
  case_bool_decide; [by intros [= <-]|]. apply IH.
Qed.

Lemma checkConstraints_error room studentMap l :
  ∀ pm err,
    checkConstraints room studentMap pm l = Some (inl err) → manualStatus err = 400.
Proof.
  induction l as [|a l IH]; intros pm err; cbn [checkConstraints]; [done|].
  destruct (studentMap !! m_studentId a) as [student|]; [|apply IH].
  destruct (templateKey _ _ _) as [key|]; cbn [mbind option_bind]; [|done].
  destruct (requestViolation _ _ _ _ _ _) as [[rule|]|];
    cbn [mbind option_bind]; [by intros [= <-]|apply IH|done].
Qed.

(** The ids the first loop hands on: those of the batch, in input
    order and without repetition, whatever the other fields hold. *)
Lemma validateAssignments_ids room l :
  ∀ studentIds positions ids,
    validateAssignments room studentIds positions l = Some (inr ids) →
    ids = studentIds ++ map m_studentId l
    ∧ NoDup (map m_studentId l)
    ∧ ∀ x, x ∈ map m_studentId l → x ∉ studentIds.
Proof.
  induction l as [|a l IH]; intros studentIds positions ids;
    cbn [validateAssignments].
  - intros [= <-]. rewrite app_nil_r.
    split_and!; [done|constructor|by intros ? ?%elem_of_nil].
  - case_bool_decide as Hnew; [done|].
    destruct (jsOr (jsLt (m_row a) 1) _) as [[]|];
      cbn [mbind option_bind]; [done| |done].
    destruct (jsOr (jsLt (benchPosOf _) 1) _) as [[]|];
      cbn [mbind option_bind]; [done| |done].
    destruct (templateKey _ _ _) as [key|]; cbn [mbind option_bind]; [|done].
    case_bool_decide; [done|].
    rewrite setAdd_new by done.
    intros (-> & Hnd & Hfresh)%IH. rewrite <- app_assoc. simpl.
    split_and!; [done| |].
    + apply NoDup_cons. split; [|done].
      intros Hx. apply (Hfresh _ Hx). apply elem_of_app. right. left.
    + intros x [->|Hx]%elem_of_cons; [done|].
      intros Hx'. apply (Hfresh _ Hx). apply elem_of_app. by left.
Qed.



Lemma filter_unique {A B} `{EqDecision B} (f : A → B) (l : list A) a :
  NoDup (map f l) → a ∈ l → filter (λ b, f b = f a) l = [a].
Proof.
  induction l as [|b l IH]; simpl; intros Hnd Ha; [by apply elem_of_nil in Ha|].
  apply NoDup_cons in Hnd as [Hb Hnd].
  apply elem_of_cons in Ha as [->|Ha].
  - rewrite filter_cons_True by done. f_equal. apply filter_none.
    intros x Hx Heq. apply Hb. rewrite <- Heq. apply list_elem_of_fmap. eauto.
  - rewrite filter_cons_False; [by apply IH|].
    intros Heq. apply Hb. rewrite Heq. apply list_elem_of_fmap. eauto.
Qed.

(** The rows of one student after a delete by ids followed by an
    insert of rows with distinct student ids. *)
Lemma replace_rows tbl stored ids data x :
  NoDup (map studentId data) →
  (∀ a, a ∈ data → studentId a ∈ ids) →
  filter (λ e, sa_studentId e = x)
    (persist tbl stored [DeleteMany ids; CreateMany data; CacheDel])
  = if bool_decide (x ∈ ids)
    then map (loadRow tbl) (filter (λ a, studentId a = x) data)
    else filter (λ e, sa_studentId e = x) stored.
Proof.
  intros Hnd Hids. unfold persist. simpl. rewrite filter_app.
  assert (filter (λ e, sa_studentId e = x) (map (loadRow tbl) data)
          = map (loadRow tbl) (filter (λ a, studentId a = x) data)) as ->.
  { clear. induction data as [|a data IH]; simpl; [done|].
    rewrite !filter_cons. simpl. case_decide; simpl; by rewrite IH. }
  case_bool_decide as Hx.
  - rewrite filter_none; [done|].
    intros e [Hout _]%list_elem_of_filter Heq. by rewrite Heq in Hout.
  - rewrite (filter_none _ data), app_nil_r.
    + rewrite list_filter_filter. apply list_filter_iff.
      intros e. split; [tauto|]. intros Heq. split; [done|]. by rewrite Heq.
    + intros a Ha Heq. apply Hx. rewrite <- Heq. by apply Hids.
Qed.

Lemma studentMapOf_snoc students s :
  studentMapOf (students ++ [s]) = <[student_id s := s]> (studentMapOf students).
Proof. unfold studentMapOf. by rewrite foldl_snoc. Qed.

Lemma studentMapOf_lookup students k s :
  studentMapOf students !! k = Some s → s ∈ students ∧ student_id s = k.
Proof.
  induction students as [|t students IH] using rev_ind.
  - unfold studentMapOf. simpl. by rewrite lookup_empty.
  - rewrite studentMapOf_snoc.
    destruct (decide (student_id t = k)) as [<-|Hne].
    + rewrite lookup_insert_eq. intros [= <-]. split; [|done].
      apply elem_of_app. right. left.
    + rewrite lookup_insert_ne by done. intros [Hs Hk]%IH. split; [|done].
      apply elem_of_app. by left.
Qed.

Lemma studentMapOf_resolved students k :
  k ∈ map student_id students → is_Some (studentMapOf students !! k).
Proof.
  induction students as [|t students IH] using rev_ind.
  - by intros ?%elem_of_nil.
  - rewrite studentMapOf_snoc, map_app.
    destruct (decide (student_id t = k)) as [<-|Hne].
    + rewrite lookup_insert_eq. eauto.
    + rewrite lookup_insert_ne by done. intros [Hk|Hk]%elem_of_app; [auto|].
      apply list_elem_of_singleton in Hk. by subst.
Qed.

Lemma assignTuples_success_effects tbl room batch effects :
  NoDup (map student_id tbl) →
  assignTuples tbl (Some room) batch = (ManualAssigned, effects) →
  effects = [DeleteMany (map t_studentId batch); CreateMany (map tupleRow batch);
             CacheDel]
  ∧ NoDup (map t_studentId batch)
  ∧ Forall (λ a, isInRange room (targetOf a)) batch
  ∧ NoDup (map targetOf batch)
  ∧ ∀ a, a ∈ batch → t_studentId a ∈ map student_id tbl.
Proof.
  intros Htbl. unfold assignTuples.
  destruct (validateTuples room [] [] batch) as [err|ids] eqn:Hval.
  { intros [= -> _]. by apply validateTuples_error in Hval. }
  apply validateTuples_ok_iff in Hval as (-> & Hnd & Hrange & Hseats).
  case_bool_decide as Hlen; [done|].
  destruct (checkTuples _ _ _ _) as [err|pm] eqn:Hchk.
  { intros [= -> _]. by apply checkTuples_error in Hchk. }
  intros [= <-]. split_and!; try done.
  intros a Ha.
  assert (length (findMany tbl (map t_studentId batch))
          = length (map t_studentId batch)) as Hlen' by lia.
  pose proof (findMany_resolves_all tbl _ Htbl Hnd Hlen') as Hperm.
  assert (t_studentId a ∈ map student_id (findMany tbl (map t_studentId batch)))
    as (s & -> & Hs)%list_elem_of_fmap.
  { rewrite Hperm. apply list_elem_of_fmap. eauto. }
  apply list_elem_of_fmap. exists s. split; [done|].
  unfold findMany in Hs. by apply list_elem_of_filter in Hs as [_ ?].
Qed.

(** X15. What the answer 200 of the manual route implies for a batch of
    integer tuples: the batch passed the validation, every student of
    the batch is a student of the tenant, and the store was asked to
    delete the rows of the batch's students and to insert one row per
    tuple, on the seat the tuple aims at. *)
Theorem manual_success_commits_batch tbl room batch effects :
  NoDup (map student_id tbl) →
  assignStudents tbl (Some room) (map jsonOf batch) = Some (ManualAssigned, effects) →
  effects = [DeleteMany (map t_studentId batch); CreateMany (map tupleRow batch);
             CacheDel]
  ∧ NoDup (map t_studentId batch)
  ∧ Forall (λ a, isInRange room (targetOf a)) batch
  ∧ NoDup (map targetOf batch)
  ∧ ∀ a, a ∈ batch → t_studentId a ∈ map student_id tbl.
Proof.
  intros Htbl Hok%assignStudents_integers_success.
  by apply assignTuples_success_effects.
Qed.

Lemma manual_success_commits_batch_witness :
  [DeleteMany ["S3"];
   CreateMany [ {| studentId := "S3"; row := 1; column := 2; benchPosition := 1 |} ];
   CacheDel]
  = [DeleteMany (map t_studentId
                   [ {| t_studentId := "S3"; t_row := 1; t_column := 2;
                        t_benchPosition := None |} ]);
     CreateMany (map tupleRow
                   [ {| t_studentId := "S3"; t_row := 1; t_column := 2;
                        t_benchPosition := None |} ]);
     CacheDel]
  ∧ NoDup (map t_studentId
             [ {| t_studentId := "S3"; t_row := 1; t_column := 2;
                  t_benchPosition := None |} ])
  ∧ Forall (λ a, isInRange occupied_room (targetOf a))
      [ {| t_studentId := "S3"; t_row := 1; t_column := 2;
           t_benchPosition := None |} ]
  ∧ NoDup (map targetOf
             [ {| t_studentId := "S3"; t_row := 1; t_column := 2;
                  t_benchPosition := None |} ])
  ∧ ∀ a, a ∈ [ {| t_studentId := "S3"; t_row := 1; t_column := 2;
                  t_benchPosition := None |} ] →
         t_studentId a ∈ map student_id scenarioA_students.
Proof.
  apply (manual_success_commits_batch scenarioA_students occupied_room
           [ {| t_studentId := "S3"; t_row := 1; t_column := 2;
                t_benchPosition := None |} ]).
  - compute_done.
  - by vm_compute.
Defined.

(** X16. After the answer 200 of the manual route, each student of the
    batch has exactly one stored row, the one written for its tuple,
    and the rows of all other students are as before. *)
Theorem manual_success_replaces_rows tbl room batch effects :
  assignStudents tbl (Some room) batch = Some (ManualAssigned, effects) →
  let stored' := persist tbl (studentAssignments room) effects in
  (∀ a, a ∈ batch →
     ∃ written, toRow a = Some written
       ∧ filter (λ e, sa_studentId e = m_studentId a) stored'
         = [loadRow tbl written])
  ∧ (∀ x, x ∉ map m_studentId batch →
       filter (λ e, sa_studentId e = x) stored'
       = filter (λ e, sa_studentId e = x) (studentAssignments room)).
Proof.
  unfold assignStudents.
  destruct (validateAssignments room [] [] batch) as [[err|ids]|] eqn:Hval;
    cbn [mbind option_bind]; [| |done].
  { intros [= -> _]. by apply validateAssignments_error in Hval. }
  apply validateAssignments_ids in Hval as (-> & Hnd & _). simpl.
  case_bool_decide as Hlen; [done|].
  destruct (checkConstraints _ _ _ _) as [[err|pm]|] eqn:Hchk;
    cbn [mbind option_bind]; [| |done].
  { intros [= -> _]. by apply checkConstraints_error in Hchk. }
  destruct (mapM toRow batch) as [data|] eqn:Hdata; cbn [mbind option_bind]; [|done].
  intros [= <-]. cbv zeta.
  apply mapM_Some in Hdata.
  assert (map studentId data = map m_studentId batch) as Hids.
  { clear -Hdata. induction Hdata as [|a r batch data Hr _ IH]; [done|].
    simpl. f_equal; [|done].
    unfold toRow in Hr. by simplify_option_eq. }
  assert (∀ x,
    filter (λ e, sa_studentId e = x)
      (persist tbl (studentAssignments room)
         [DeleteMany (map m_studentId batch); CreateMany data; CacheDel])
    = if bool_decide (x ∈ map m_studentId batch)
      then map (loadRow tbl) (filter (λ a, studentId a = x) data)
      else filter (λ e, sa_studentId e = x) (studentAssignments room)) as Hrows.
  { intros x. apply replace_rows; [by rewrite Hids|].
    intros r Hr. rewrite <- Hids. apply list_elem_of_fmap. eauto. }
  split.
  - intros a Ha.
    assert (∃ written, toRow a = Some written ∧ written ∈ data
                       ∧ studentId written = m_studentId a)
      as (written & Hwritten & Hin & Hid).
    { clear -Hdata Ha. induction Hdata as [|b r batch data Hr _ IH].
      - by apply elem_of_nil in Ha.
      - apply elem_of_cons in Ha as [->|Ha].
        + exists r. split_and!; [done|left|].
          unfold toRow in Hr. by simplify_option_eq.
        + destruct (IH Ha) as (w & ? & ? & ?). exists w. split_and!; [done|by right|done]. }
    exists written. split; [done|]. rewrite Hrows.
    rewrite bool_decide_eq_true_2 by (apply list_elem_of_fmap; eauto).
    rewrite <- Hid.
    rewrite (filter_unique studentId data written); [done| |done].
    by rewrite Hids.
  - intros x Hx. rewrite Hrows. by rewrite bool_decide_eq_false_2.
Qed.

Lemma manual_success_replaces_rows_witness :
  let stored' :=
    persist scenarioA_students (studentAssignments occupied_room)
      [DeleteMany ["S3"];
       CreateMany [ {| studentId := "S3"; row := 1; column := 2; benchPosition := 1 |} ];
       CacheDel] in
  (∀ a, a ∈ [ {| m_studentId := "S3"; m_row := JsString "1"; m_column := JsNumber 2;
                 m_benchPosition := JsUndefined |} ] →
     ∃ written, toRow a = Some written
       ∧ filter (λ e, sa_studentId e = m_studentId a) stored'
         = [loadRow scenarioA_students written])
  ∧ (∀ x, x ∉ map m_studentId
                 [ {| m_studentId := "S3"; m_row := JsString "1"; m_column := JsNumber 2;
                      m_benchPosition := JsUndefined |} ] →
       filter (λ e, sa_studentId e = x) stored'
       = filter (λ e, sa_studentId e = x) (studentAssignments occupied_room)).
Proof.
  apply (manual_success_replaces_rows scenarioA_students occupied_room
           [ {| m_studentId := "S3"; m_row := JsString "1"; m_column := JsNumber 2;
                m_benchPosition := JsUndefined |} ]).
  by vm_compute.
Defined.

(** X8. After a successful automatic assignment each requested student
    has exactly one stored row, the one just written for it, and the
    rows of all other students are as before. *)
Theorem auto_success_replaces_rows tbl room studentIds n assigned effects :
  NoDup (map student_id tbl) →
  autoAssign tbl (Some room) studentIds = (AutoAssigned n assigned, effects) →
  let stored' := persist tbl (studentAssignments room) effects in
  (∀ x, x ∈ studentIds →
     ∃ a, a ∈ assigned ∧ studentId a = x
          ∧ filter (λ e, sa_studentId e = x) stored' = [loadRow tbl a])
  ∧ (∀ x, x ∉ studentIds →
       filter (λ e, sa_studentId e = x) stored'
       = filter (λ e, sa_studentId e = x) (studentAssignments room)).
Proof.
  intros Htbl Hok.
  destruct (autoAssign_success_perm _ _ _ _ _ _ Htbl Hok)
    as (Hperm & _ & Hnd & ->).
  cbv zeta.
  assert (NoDup (map studentId assigned)) as Hnd' by (by rewrite Hperm).
  assert (∀ a, a ∈ assigned → studentId a ∈ studentIds) as Hin.
  { intros a Ha. rewrite <- Hperm. apply list_elem_of_fmap. eauto. }
  split.
  - intros x Hx.
    assert (x ∈ map studentId assigned) as (a & -> & Ha)%list_elem_of_fmap
      by (by rewrite Hperm).
    exists a. split_and!; [done..|].
    rewrite replace_rows by done.
    rewrite bool_decide_eq_true_2 by done.
    by rewrite (filter_unique studentId assigned a).
  - intros x Hx. rewrite replace_rows by done.
    by rewrite bool_decide_eq_false_2.
Qed.

Lemma auto_success_replaces_rows_witness :
  let stored' :=
    persist scenarioA_students (studentAssignments occupied_room)
      [DeleteMany ["S3"];
       CreateMany [ {| studentId := "S3"; row := 1; column := 2; benchPosition := 1 |} ];
       CacheDel] in
  (∀ x, x ∈ ["S3"] →
     ∃ a, a ∈ [ {| studentId := "S3"; row := 1; column := 2; benchPosition := 1 |} ]
          ∧ studentId a = x
          ∧ filter (λ e, sa_studentId e = x) stored' = [loadRow scenarioA_students a])
  ∧ (∀ x, x ∉ ["S3"] →
       filter (λ e, sa_studentId e = x) stored'
       = filter (λ e, sa_studentId e = x) (studentAssignments occupied_room)).
Proof.
  apply (auto_success_replaces_rows scenarioA_students occupied_room ["S3"] 1).
  - compute_done.
  - by vm_compute.
Defined.

(** ** The manual route on free seats *)

Section manual_safety.

Variable tbl : list Student.
Variable room : RoomAllocation.
Hypothesis Hmode : studentsPerBench room = 1 ∨ studentsPerBench room = 2.

Lemma checkTuples_keeps_classmates_apart studentMap rest :
  ∀ pm L pm',
    (∀ e, e ∈ L → pm !! keyOf (coordOf e) = Some (occOf e)) →
    noAdjacentClassmates (studentsPerBench room) L →
    allInRange room L →
    (∀ a, a ∈ rest → isInRange room (targetOf a)) →
    (∀ a, a ∈ rest →
       ∃ s, studentMap !! t_studentId a = Some s
            ∧ classOf tbl (t_studentId a) = student_classId s) →
    NoDup (map targetOf rest) →
    (∀ a e, a ∈ rest → e ∈ L → coordOf e ≠ targetOf a) →
    checkTuples room studentMap pm rest = inr pm' →
    noAdjacentClassmates (studentsPerBench room)
      (L ++ map (λ a, loadRow tbl (tupleRow a)) rest).
Proof.
  induction rest as [|a rest IH];
    intros pm L pm' Hcov Hadj Hrange Htargets Hres Hnd Hfree; simpl.
  { by rewrite app_nil_r. }
  destruct (Hres a) as (s & Hs & Hcls); [left|]. rewrite Hs.
  destruct (manualViolation room pm (t_row a) (t_column a)
              (tupleBenchPos (t_benchPosition a)) (student_classId s)) eqn:Hviol;
    [done|].
  intros Hchk.
  set (new := loadRow tbl (tupleRow a)).
  assert (coordOf new = targetOf a) as Hcoord by done.
  assert (sa_classId new = student_classId s) as Hnewcls by done.
  assert (isInRange room (targetOf a)) as Hin by (apply Htargets; left).
  assert (∀ e, e ∈ L → coordOf e ∈ adjacentCoordinates room (targetOf a) →
               ¬ conflicting (sa_classId e) (student_classId s)) as Hclear.
  { intros e He Hnext Hconf.
    apply (bool_decide_eq_true_2 (manualViolation _ _ _ _ _ _ = None)) in Hviol.
    rewrite manualViolation_adjacent, forallb_forall in Hviol.
    apply list_elem_of_In, Hviol, negb_true_iff in Hnext.
    rewrite (Hcov e He) in Hnext.
    apply (conflicting_sameClass (occOf e)) in Hconf. congruence. }
  apply NoDup_cons in Hnd as [Ha Hnd].
  change (L ++ new :: map (λ a0, loadRow tbl (tupleRow a0)) rest)
    with (L ++ [new] ++ map (λ a0, loadRow tbl (tupleRow a0)) rest).
  rewrite app_assoc.
  eapply IH; [| | | | |done| |exact Hchk].
  - intros e [He|He]%elem_of_app.
    + rewrite lookup_insert_ne; [by apply Hcov|].
      change (posKey (t_row a) (t_column a) (tupleBenchPos (t_benchPosition a)))
        with (keyOf (targetOf a)).
      intros Heq%keyOf_inj. symmetry in Heq. revert Heq. apply Hfree; [left|done].
    + apply list_elem_of_singleton in He. subst e.
      change (keyOf (coordOf new)) with
        (posKey (t_row a) (t_column a) (tupleBenchPos (t_benchPosition a))).
      rewrite lookup_insert_eq. f_equal. unfold occOf, new. simpl.
      by rewrite Hcls.
  - intros x y [Hx|Hx]%elem_of_app [Hy|Hy]%elem_of_app Hnext;
      try (apply list_elem_of_singleton in Hx; subst x);
      try (apply list_elem_of_singleton in Hy; subst y).
    + by apply Hadj.
    + rewrite Hcoord in Hnext. rewrite Hnewcls.
      apply Hclear; [done|].
      apply adjacent_sym; [done|by apply Hrange|done|].
      apply specAdjacent_adjacentCoordinates; [done|by apply Hrange|done|done].
    + rewrite Hcoord in Hnext. rewrite Hnewcls.
      intros Hconf%conflicting_sym. revert Hconf. apply Hclear; [done|].
      apply specAdjacent_adjacentCoordinates; [done|done|by apply Hrange|done].
    + by apply specAdjacent_irrefl in Hnext.
  - intros e [He|He]%elem_of_app; [by apply Hrange|].
    apply list_elem_of_singleton in He. subst e. by rewrite Hcoord.
  - intros b Hb. apply Htargets. by right.
  - intros b Hb. apply Hres. by right.
  - intros b e Hb [He|He]%elem_of_app.
    + apply Hfree; [by right|done].
    + apply list_elem_of_singleton in He. subst e. rewrite Hcoord.
      intros Heq. apply Ha. rewrite Heq. apply list_elem_of_fmap. eauto.
Qed.

End manual_safety.

(** X17. From a stored set that is safe and on the grid, a manual
    assignment of integer tuples answered 200 leaves a set that is safe
    and on the grid again, provided no tuple aims at a seat held by a
    student outside the batch (the route itself does not check
    that). *)
Theorem manual_assignment_safe_on_free_seats tbl room batch effects :
  studentsPerBench room = 1 ∨ studentsPerBench room = 2 →
  NoDup (map student_id tbl) →
  safe room (studentAssignments room) →
  allInRange room (studentAssignments room) →
  (∀ a e, a ∈ batch → e ∈ studentAssignments room →
          sa_studentId e ∉ map t_studentId batch → coordOf e ≠ targetOf a) →
  assignStudents tbl (Some room) (map jsonOf batch) = Some (ManualAssigned, effects) →
  safe room (persist tbl (studentAssignments room) effects)
  ∧ allInRange room (persist tbl (studentAssignments room) effects).
Proof.
  intros Hmode Htbl [Huniq Hadj] Hrange Hfree Hok%assignStudents_integers_success.
  destruct (assignTuples_success_effects _ _ _ _ Htbl Hok)
    as (-> & Hnd & Htargets & Hseats & Hknown).
  revert Hok. unfold assignTuples.
  destruct (validateTuples room [] [] batch) as [err|ids] eqn:Hval; [done|].
  apply validateTuples_ok_iff in Hval as (-> & _).
  case_bool_decide as Hlen; [done|].
  destruct (checkTuples _ _ _ _) as [err|pm] eqn:Hchk; [done|].
  intros _.
  assert (length (findMany tbl (map t_studentId batch))
          = length (map t_studentId batch)) as Hlen' by lia.
  pose proof (findMany_resolves_all tbl _ Htbl Hnd Hlen') as Hperm.
  set (kept := filter (λ e, sa_studentId e ∉ map t_studentId batch)
                 (studentAssignments room)).
  assert (persist tbl (studentAssignments room)
            [DeleteMany (map t_studentId batch); CreateMany (map tupleRow batch);
             CacheDel]
          = kept ++ map (λ a, loadRow tbl (tupleRow a)) batch) as ->.
  { unfold persist. simpl. by rewrite map_map. }
  rewrite Forall_forall in Htargets.
  assert (∀ a e, a ∈ batch → e ∈ kept → coordOf e ≠ targetOf a) as Hfree'.
  { intros a e Ha [Hout He]%list_elem_of_filter. by apply Hfree. }
  split; [split|].
  - unfold uniqueSeats. rewrite map_app. apply NoDup_app. split_and!.
    + eapply sublist_NoDup; [exact Huniq|]. apply fmap_sublist, sublist_filter.
    + intros q (e & -> & He)%list_elem_of_fmap (n & Hq & Hn)%list_elem_of_fmap.
      apply list_elem_of_fmap in Hn as (a & -> & Ha).
      by apply (Hfree' a e).
    + by rewrite map_map.
  - eapply (checkTuples_keeps_classmates_apart tbl room Hmode);
      [| | | | |done|done|exact Hchk].
    + intros e [_ He]%list_elem_of_filter.
      apply (buildPositionMap_represents _ Huniq). by exists e.
    + intros a b [_ Ha]%list_elem_of_filter [_ Hb]%list_elem_of_filter.
      by apply Hadj.
    + by apply allInRange_filter.
    + intros a Ha. by apply Htargets.
    + intros a Ha.
      assert (t_studentId a ∈ map student_id (findMany tbl (map t_studentId batch)))
        as Hres by (rewrite Hperm; apply list_elem_of_fmap; eauto).
      destruct (studentMapOf_resolved _ _ Hres) as [s Hs].
      exists s. split; [done|].
      apply studentMapOf_lookup in Hs as [Hs <-].
      apply classOf_unique; [done|].
      unfold findMany in Hs. by apply list_elem_of_filter in Hs as [_ ?].
  - intros e [He|He]%elem_of_app.
    + apply Hrange. unfold kept in He.
      by apply list_elem_of_filter in He as [_ ?].
    + apply list_elem_of_fmap in He as (a & -> & Ha).
      by apply Htargets.
Qed.

Lemma manual_assignment_safe_on_free_seats_witness :
  safe occupied_room
    (persist scenarioA_students (studentAssignments occupied_room)
       [DeleteMany ["S3"];
        CreateMany [ {| studentId := "S3"; row := 1; column := 2; benchPosition := 1 |} ];
        CacheDel])
  ∧ allInRange occupied_room
      (persist scenarioA_students (studentAssignments occupied_room)
         [DeleteMany ["S3"];
          CreateMany [ {| studentId := "S3"; row := 1; column := 2;
                          benchPosition := 1 |} ];
          CacheDel]).
Proof.
  apply (manual_assignment_safe_on_free_seats scenarioA_students occupied_room
           [ {| t_studentId := "S3"; t_row := 1; t_column := 2;
                t_benchPosition := None |} ]).
  - by left.
  - compute_done.
  - split; [apply NoDup_singleton|].
    intros a b ->%list_elem_of_singleton ->%list_elem_of_singleton Hadj.
    by apply specAdjacent_irrefl in Hadj.
  - intros e ->%list_elem_of_singleton. unfold isInRange. simpl. lia.
  - intros a e ->%list_elem_of_singleton ->%list_elem_of_singleton _. done.
  - by vm_compute.
Defined.

(** ** Resolving ids against a table *)

(** Counting the rows of a table (unique ids) whose id is listed gives
    the length of the list exactly when the list has no repetition and
    every listed id is in the table. *)
Lemma listed_rows_count {A} `{EqDecision A} (tbl ids : list A) :
  NoDup tbl →
  length (filter (λ c, c ∈ ids) tbl) = length ids
  ↔ NoDup ids ∧ ∀ c, c ∈ ids → c ∈ tbl.
Proof.
  intros Htbl.
  assert (NoDup (filter (λ c, c ∈ ids) tbl)) as Hnd
    by (eapply sublist_NoDup; [exact Htbl|apply sublist_filter]).
  assert (filter (λ c, c ∈ ids) tbl ⊆+ ids) as Hsub.
  { apply NoDup_submseteq; [done|]. by intros c [? _]%list_elem_of_filter. }
  split.
  - intros Hlen.
    assert (filter (λ c, c ∈ ids) tbl ≡ₚ ids) as Hperm
      by (apply submseteq_length_Permutation; [done|lia]).
    split; [by rewrite <- Hperm|].
    intros c Hc. rewrite <- Hperm in Hc.
    by apply list_elem_of_filter in Hc as [_ ?].
  - intros [Hids Hall].
    apply Nat.le_antisymm; [by apply submseteq_length|].
    apply submseteq_length, NoDup_submseteq; [done|].
    intros c Hc. apply list_elem_of_filter. auto.
Qed.

Lemma findMany_ids_filter tbl ids :
  map student_id (findMany tbl ids) = filter (λ c, c ∈ ids) (map student_id tbl).
Proof.
  unfold findMany. induction tbl as [|s tbl IH]; simpl; [done|].
  rewrite !filter_cons. case_decide; simpl; by rewrite IH.
Qed.

(** X5. For a request with at least one id and an existing room, the
    automatic route answers "Some students not found" exactly when an
    id is repeated or is not the id of a student of the tenant. *)
Theorem auto_identity_check_rejects_exactly tbl room studentIds :
  NoDup (map student_id tbl) →
  studentIds ≠ [] →
  (autoAssign tbl (Some room) studentIds).1 = AutoSomeStudentsNotFound
  ↔ ¬ (NoDup studentIds ∧ ∀ x, x ∈ studentIds → x ∈ map student_id tbl).
Proof.
  intros Htbl Hne.
  rewrite <- (listed_rows_count _ _ Htbl), <- findMany_ids_filter, length_map.
  unfold autoAssign. rewrite (bool_decide_eq_false_2 (studentIds = [])) by done.
  case_bool_decide as Hlen; [done|].
  split; [|done]. repeat case_match; done.
Qed.

Lemma auto_identity_check_rejects_exactly_witness :
  (autoAssign scenarioA_students (Some scenarioA_room) ["S1"; "S9"]).1
    = AutoSomeStudentsNotFound
  ↔ ¬ (NoDup ["S1"; "S9"]
       ∧ ∀ x, x ∈ ["S1"; "S9"] → x ∈ map student_id scenarioA_students).
Proof.
  apply (auto_identity_check_rejects_exactly scenarioA_students scenarioA_room).
  - compute_done.
  - discriminate.
Defined.

(** ** Room creation: what is accepted and what is stored *)

(** X19. With unique class ids in the tenant's class table, a creation
    request whose rows and columns are numbers with an integer value
    is accepted exactly when it has a name, at least one row and one
    column, at most 200 seats with the effective bench size, and a
    class list without repetition whose ids are all classes of the
    tenant; the room is then stored with these rows and columns. *)
Theorem room_creation_accepts_exactly classTbl req r c :
  NoDup classTbl →
  req_rows req = JsNumber r → req_columns req = JsNumber c →
  (∃ room, createRoomAllocation classTbl req
           = Some (Created room, [RoomCreate room; RoomCacheDel])
           ∧ cfg_rows room = r ∧ cfg_columns room = c)
  ↔ req_roomName req ≠ ""
    ∧ 1 ≤ r ∧ 1 ≤ c
    ∧ r * c * studentsPerBenchValue (req_studentsPerBench req) ≤ 200
    ∧ NoDup (default [] (req_classIds req))
    ∧ ∀ c, c ∈ default [] (req_classIds req) → c ∈ classTbl.
Proof.
  intros Htbl Hrows Hcols. rewrite (createRoomAllocation_integers _ _ r c) by done.
  set (classIds := default [] (req_classIds req)).
  pose proof (listed_rows_count classTbl classIds Htbl) as Hcount.
  destruct (decide (req_roomName req = "")) as [Hname|Hname].
  { rewrite bool_decide_eq_true_2 by done. simpl.
    split; [by intros (? & ? & _)|tauto]. }
  rewrite bool_decide_eq_false_2 by done. simpl.
  destruct (r =? 0) eqn:?; simpl.
  { split; [by intros (? & ? & _)|lia]. }
  destruct (c =? 0) eqn:?; simpl.
  { split; [by intros (? & ? & _)|lia]. }
  destruct ((r <? 1) || (c <? 1)) eqn:?.
  { split; [by intros (? & ? & _)|lia]. }
  destruct (200 <? _) eqn:?.
  { split; [by intros (? & ? & _)|lia]. }
  destruct (decide (classIds = [])) as [Hnil|Hsome].
  { rewrite (bool_decide_eq_false_2 (classIds ≠ [])) by (by intros []). simpl.
    split; [|by eauto]. intros _. rewrite Hnil.
    split_and!; [done|lia|lia|lia|constructor|by intros ? ?%elem_of_nil]. }
  rewrite (bool_decide_eq_true_2 (classIds ≠ [])) by done. simpl.
  case_bool_decide as Hlen.
  - split; [by intros (? & ? & _)|]. intros (_ & _ & _ & _ & Hnd & Hall).
    destruct Hlen. by apply Hcount.
  - split; [|by eauto]. intros _.
    assert (NoDup classIds ∧ ∀ c, c ∈ classIds → c ∈ classTbl) as [? ?].
    { apply Hcount. destruct (decide (length (filter (λ c, c ∈ classIds) classTbl)
                                     = length classIds)); [done|tauto]. }
    split_and!; [done|lia|lia|lia|done|done].
Qed.

Lemma room_creation_accepts_exactly_witness :
  (∃ room, createRoomAllocation ["c1"; "c2"]
             {| req_roomName := "Lab"; req_rows := JsNumber 5; req_columns := JsNumber 4;
                req_studentsPerBench := JsNumber 2;
                req_classIds := Some ["c1"; "c1"] |}
           = Some (Created room, [RoomCreate room; RoomCacheDel])
           ∧ cfg_rows room = 5 ∧ cfg_columns room = 4)
  ↔ "Lab" ≠ ""
    ∧ 1 ≤ 5 ∧ 1 ≤ 4
    ∧ 5 * 4 * studentsPerBenchValue (JsNumber 2) ≤ 200
    ∧ NoDup ["c1"; "c1"]
    ∧ ∀ c, c ∈ ["c1"; "c1"] → c ∈ ["c1"; "c2"].
Proof.
  apply (room_creation_accepts_exactly ["c1"; "c2"]
           {| req_roomName := "Lab"; req_rows := JsNumber 5; req_columns := JsNumber 4;
              req_studentsPerBench := JsNumber 2;
              req_classIds := Some ["c1"; "c1"] |}); [compute_done|done|done].
Defined.

(** X20. For a request whose rows and columns are numbers with an
    integer value, every room handed to the store has between 1 and
    200 rows and columns, those of the request, bench size 1 or 2 and
    between 1 and 200 seats; and the store is called only with the
    answer 201. *)
Theorem created_room_dimensions classTbl req r c response effects room :
  req_rows req = JsNumber r → req_columns req = JsNumber c →
  createRoomAllocation classTbl req = Some (response, effects) →
  RoomCreate room ∈ effects →
  response = Created room
  ∧ cfg_rows room = r ∧ cfg_columns room = c
  ∧ 1 ≤ cfg_rows room ≤ 200
  ∧ 1 ≤ cfg_columns room ≤ 200
  ∧ (cfg_studentsPerBench room = 1 ∨ cfg_studentsPerBench room = 2)
  ∧ 1 ≤ cfg_rows room * cfg_columns room * cfg_studentsPerBench room ≤ 200.
Proof.
  intros Hrows Hcols. rewrite (createRoomAllocation_integers _ _ r c) by done.
  destruct (_ || _ || _); [by intros [= <- <-] ?%elem_of_nil|].
  destruct (_ || _) eqn:Hsmall; [by intros [= <- <-] ?%elem_of_nil|].
  destruct (200 <? _) eqn:Hcap; [by intros [= <- <-] ?%elem_of_nil|].
  destruct (_ && _); [by intros [= <- <-] ?%elem_of_nil|].
  intros [= <- <-]. rewrite !elem_of_cons, elem_of_nil.
  intros [[= ->]|[?|[]]]; [|done]. simpl.
  destruct (studentsPerBenchValue_cases (req_studentsPerBench req))
    as [[_ Hv]|[_ Hv]]; rewrite Hv in *; split_and!; try done; try nia; auto.
Qed.

Lemma created_room_dimensions_witness :
  Created {| cfg_rows := 5; cfg_columns := 4; cfg_studentsPerBench := 1;
             cfg_classIds := [] |}
  = Created {| cfg_rows := 5; cfg_columns := 4; cfg_studentsPerBench := 1;
               cfg_classIds := [] |}
  ∧ 5 = 5 ∧ 4 = 4
  ∧ 1 ≤ 5 ≤ 200
  ∧ 1 ≤ 4 ≤ 200
  ∧ (1 = 1 ∨ 1 = 2)
  ∧ 1 ≤ 5 * 4 * 1 ≤ 200.
Proof.
  apply (created_room_dimensions []
           {| req_roomName := "Lab"; req_rows := JsNumber 5; req_columns := JsNumber 4;
              req_studentsPerBench := JsString "2"; req_classIds := None |}
           5 4 _
           [RoomCreate {| cfg_rows := 5; cfg_columns := 4; cfg_studentsPerBench := 1;
                          cfg_classIds := [] |}; RoomCacheDel]
           {| cfg_rows := 5; cfg_columns := 4; cfg_studentsPerBench := 1;
              cfg_classIds := [] |}); [done|done|by vm_compute|left].
Defined.

(** ** The teacher assignment route *)

Lemma teacher_ids_filter users (ids : list string) :
  map user_id (filter (λ u, user_id u ∈ ids ∧ user_role u = "TEACHER") users)
  = filter (λ x, x ∈ ids)
      (map user_id (filter (λ u, user_role u = "TEACHER") users)).
Proof.
  induction users as [|u users IH]; simpl; [done|].
  rewrite !filter_cons.
  destruct (decide (user_role u = "TEACHER")) as [Hrole|Hrole].
  - simpl. rewrite filter_cons.
    destruct (decide (user_id u ∈ ids)) as [Hin|Hin].
    + rewrite decide_True by done. simpl. by rewrite IH.
    + rewrite decide_False by tauto. done.
  - rewrite decide_False by tauto. done.
Qed.

(** X21. With unique user ids, the teacher route answers 200 exactly when
    the room id and the id list are present, the list has no
    repetition, the room exists and
    every id is the id of a user of the tenant with role TEACHER; the
    empty list is accepted. *)
Theorem teacher_assignment_accepts_exactly users found roomAllocationId teacherIds :
  NoDup (map user_id users) →
  (assignTeachers users found roomAllocationId teacherIds).1 = TeachersAssigned
  ↔ roomAllocationId ≠ ""
    ∧ ∃ ids, teacherIds = Some ids
      ∧ NoDup ids
      ∧ is_Some found
      ∧ ∀ x, x ∈ ids → ∃ u, u ∈ users ∧ user_id u = x ∧ user_role u = "TEACHER".
Proof.
  intros Husers. unfold assignTeachers.
  case_bool_decide as Hroom; [split; [done|by intros [? _]]|].
  assert (∀ P : Prop, P ↔ roomAllocationId ≠ "" ∧ P) as Hpresent by tauto.
  rewrite <- Hpresent. clear Hpresent Hroom.
  destruct teacherIds as [ids|]; [|split; [done|by intros (? & ? & _)]].
  assert (NoDup (map user_id (filter (λ u, user_role u = "TEACHER") users)))
    as Hteachers.
  { eapply sublist_NoDup; [exact Husers|]. apply fmap_sublist, sublist_filter. }
  destruct (decide (NoDup ids)) as [Hnd|Hdup]; first last.
  { rewrite bool_decide_eq_true_2 by (by rewrite newSet_length_iff).
    split; [done|]. intros (? & [= <-] & ? & _). done. }
  rewrite bool_decide_eq_false_2 by (rewrite newSet_length_iff; tauto).
  destruct found as [room|]; first last.
  { split; [done|]. intros (? & _ & _ & [? ?] & _). done. }
  rewrite (newSet_id ids) by done.
  rewrite <- (length_map user_id (filter _ users)), teacher_ids_filter.
  pose proof (listed_rows_count _ ids Hteachers) as Hcount.
  case_bool_decide as Hlen.
  - split; [done|]. intros (? & [= <-] & _ & _ & Hall).
    destruct Hlen. apply Hcount. split; [done|].
    intros x (u & Hu & <- & Hrole)%Hall.
    apply list_elem_of_fmap. exists u. split; [done|].
    by apply list_elem_of_filter.
  - split; [|done]. intros _. exists ids. split_and!; [done|done|by eexists|].
    assert (NoDup ids ∧ ∀ c, c ∈ ids →
              c ∈ map user_id (filter (λ u, user_role u = "TEACHER") users))
      as [_ Hall].
    { apply Hcount.
      destruct (decide (length (filter (λ x, x ∈ ids)
                          (map user_id (filter (λ u, user_role u = "TEACHER") users)))
                        = length ids)); [done|tauto]. }
    intros x (u & -> & [Hrole Hu]%list_elem_of_filter)%Hall%list_elem_of_fmap.
    by exists u.
Qed.

Lemma teacher_assignment_accepts_exactly_witness :
  (assignTeachers [ {| user_id := "T1"; user_role := "TEACHER" |};
                    {| user_id := "A1"; user_role := "SCHOOLADMIN" |} ]
     (Some scenarioA_room) "room-1" (Some ["T1"; "A1"])).1 = TeachersAssigned
  ↔ "room-1" ≠ ""
    ∧ ∃ ids, Some ["T1"; "A1"] = Some ids
      ∧ NoDup ids
      ∧ is_Some (Some scenarioA_room)
      ∧ ∀ x, x ∈ ids →
          ∃ u, u ∈ [ {| user_id := "T1"; user_role := "TEACHER" |};
                      {| user_id := "A1"; user_role := "SCHOOLADMIN" |} ]
               ∧ user_id u = x ∧ user_role u = "TEACHER".
Proof.
  apply (teacher_assignment_accepts_exactly
           [ {| user_id := "T1"; user_role := "TEACHER" |};
             {| user_id := "A1"; user_role := "SCHOOLADMIN" |} ]
           (Some scenarioA_room) "room-1" (Some ["T1"; "A1"])).
  compute_done.
Defined.

(** X22. The teacher route replaces the whole teacher set of the room: after
    the answer 200 the stored teachers are the submitted ids, whatever
    was stored before (none for the empty list); any other answer
    leaves the store untouched. *)
Theorem teacher_assignment_replaces_all users found roomAllocationId teacherIds stored :
  match assignTeachers users found roomAllocationId teacherIds with
  | (TeachersAssigned, effects) =>
      ∃ ids, teacherIds = Some ids ∧ persistTeachers stored effects = ids
  | (_, effects) => effects = []
  end.
Proof.
  unfold assignTeachers.
  case_bool_decide; [done|].
  destruct teacherIds as [ids|]; [|done].
  case_bool_decide as Hlen; [done|].
  destruct found as [room|]; [|done].
  case_bool_decide; [done|].
  exists ids. split; [done|].
  rewrite (newSet_id ids) by (apply newSet_length_iff; lia).
  unfold persistTeachers. case_bool_decide as Hne; simpl; [done|].
  destruct ids; [done|]. by destruct Hne.
Qed.

(** ** Hostel cots: the list route *)

Lemma filter_sorted {A} (R : relation A) (P : A → Prop) `{!∀ x, Decision (P x)} l :
  StronglySorted R l → StronglySorted R (filter P l).
Proof.
  induction 1 as [|x l Hl IH Hx]; [constructor|].
  rewrite filter_cons. case_decide; [|done].
  constructor; [done|]. rewrite Forall_forall in Hx |- *.
  intros y [_ Hy]%list_elem_of_filter. by apply Hx.
Qed.

Lemma availableCots_spec cotCount bookings :
  (∀ cot, cot ∈ availableCots cotCount bookings
          ↔ 1 ≤ cot ≤ cotCount ∧ ∀ b, b ∈ bookings → cb_cotNumber b ≠ cot)
  ∧ StronglySorted Z.lt (availableCots cotCount bookings)
  ∧ NoDup (availableCots cotCount bookings).
Proof.
  unfold availableCots. split_and!.
  - intros cot. rewrite list_elem_of_filter, elem_of_seqZ.
    split.
    + intros [Hfree ?]. split; [lia|]. intros b Hb Heq. apply Hfree.
      apply list_elem_of_fmap. eauto.
    + intros [? Hfree]. split; [|lia].
      intros (b & -> & Hb)%list_elem_of_fmap. by apply (Hfree b).
  - apply filter_sorted, seqZ_sorted.
  - apply NoDup_filter, NoDup_seqZ.
Qed.

(** X23. The list route reports as free exactly the cot numbers from 1 to
    [cotCount] that no booking row of the room carries, each once, in
    ascending order. *)
Theorem available_cots_are_the_unbooked_cots cotCount bookings :
  (∀ cot, cot ∈ availableCots cotCount bookings
          ↔ 1 ≤ cot ≤ cotCount ∧ ∀ b, b ∈ bookings → cb_cotNumber b ≠ cot)
  ∧ StronglySorted Z.lt (availableCots cotCount bookings)
  ∧ NoDup (availableCots cotCount bookings).
Proof. apply availableCots_spec. Qed.

Lemma filter_split_length {A} (P : A → Prop) `{!∀ x, Decision (P x)} (l : list A) :
  (length (filter P l) + length (filter (λ x, ¬ P x) l))%nat = length l.
Proof.
  induction l as [|a l IH]; [done|]. rewrite !filter_cons.
  destruct (decide (P a)).
  - rewrite decide_False by tauto. simpl. lia.
  - rewrite decide_True by done. simpl. lia.
Qed.

Lemma availableCotsCount_spec cotCount bookings :
  0 ≤ cotCount →
  availableCotsCount cotCount bookings
    ≤ Z.of_nat (length (availableCots cotCount bookings))
  ∧ (availableCotsCount cotCount bookings
       = Z.of_nat (length (availableCots cotCount bookings))
     ↔ NoDup (map cb_cotNumber bookings)
       ∧ ∀ b, b ∈ bookings → 1 ≤ cb_cotNumber b ≤ cotCount).
Proof.
  intros Hn. unfold availableCotsCount, availableCots.
  set (booked := map cb_cotNumber bookings).
  pose proof (filter_split_length (λ cot, cot ∈ booked) (seqZ 1 cotCount)) as Hsplit.
  rewrite length_seqZ in Hsplit.
  pose proof (listed_rows_count (seqZ 1 cotCount) booked (NoDup_seqZ _ _)) as Hcount.
  assert (length (filter (λ cot, cot ∈ booked) (seqZ 1 cotCount)) ≤ length booked)%nat
    as Hle.
  { apply submseteq_length, NoDup_submseteq.
    - apply NoDup_filter, NoDup_seqZ.
    - by intros c [? _]%list_elem_of_filter. }
  assert (length booked = length bookings) as Hlen by (unfold booked; apply length_map).
  split; [lia|].
  assert ((∀ c, c ∈ booked → c ∈ seqZ 1 cotCount)
          ↔ ∀ b, b ∈ bookings → 1 ≤ cb_cotNumber b ≤ cotCount) as Hrange.
  { split.
    - intros Hall b Hb.
      assert (cb_cotNumber b ∈ seqZ 1 cotCount) as Hin%elem_of_seqZ; [|lia].
      apply Hall, list_elem_of_fmap. eauto.
    - intros Hall c (b & -> & Hb)%list_elem_of_fmap.
      apply elem_of_seqZ. specialize (Hall b Hb). lia. }
  rewrite <- Hrange, <- Hcount. lia.
Qed.

(** X24. The two figures of the list route: the reported count of free cots
    is never above the number of cots reported free, and the two agree
    exactly when the booking rows of the room carry distinct cot
    numbers between 1 and [cotCount]. *)
Theorem free_cot_count_agrees_with_list cotCount bookings :
  0 ≤ cotCount →
  availableCotsCount cotCount bookings
    ≤ Z.of_nat (length (availableCots cotCount bookings))
  ∧ (availableCotsCount cotCount bookings
       = Z.of_nat (length (availableCots cotCount bookings))
     ↔ NoDup (map cb_cotNumber bookings)
       ∧ ∀ b, b ∈ bookings → 1 ≤ cb_cotNumber b ≤ cotCount).
Proof.
  apply availableCotsCount_spec.
Qed.

Lemma free_cot_count_agrees_with_list_witness :
  availableCotsCount 3
    [ {| cb_id := "b1"; cb_roomId := "r1"; cb_cotNumber := 2; cb_studentId := "S1";
         cb_paymentStatus := PAID; cb_razorpayOrderId := "o1" |};
      {| cb_id := "b2"; cb_roomId := "r1"; cb_cotNumber := 2; cb_studentId := "S2";
         cb_paymentStatus := FAILED; cb_razorpayOrderId := "o2" |} ]
    ≤ Z.of_nat (length (availableCots 3
        [ {| cb_id := "b1"; cb_roomId := "r1"; cb_cotNumber := 2; cb_studentId := "S1";
             cb_paymentStatus := PAID; cb_razorpayOrderId := "o1" |};
          {| cb_id := "b2"; cb_roomId := "r1"; cb_cotNumber := 2; cb_studentId := "S2";
             cb_paymentStatus := FAILED; cb_razorpayOrderId := "o2" |} ])).
Proof.
  apply (free_cot_count_agrees_with_list 3). lia.
Defined.

(** ** Hostel cots: booking and payment verification *)

Lemma find_None {A} (f : A → bool) (l : list A) :
  find f l = None ↔ ∀ x, x ∈ l → f x = false.
Proof.
  induction l as [|a l IH]; simpl.
  - split; [by intros _ ? ?%elem_of_nil|done].
  - destruct (f a) eqn:Ha.
    + split; [done|]. intros Hall. specialize (Hall a). rewrite Ha in Hall.
      by discriminate Hall; left.
    + rewrite IH. split.
      * intros Hall x [->|Hx]%elem_of_cons; auto.
      * intros Hall x Hx. apply Hall. by right.
Qed.

Lemma find_room rooms roomId room :
  NoDup (map hr_id rooms) →
  find (λ r, bool_decide (hr_id r = roomId)) rooms = Some room
  ↔ room ∈ rooms ∧ hr_id room = roomId.
Proof.
  intros Hnd. induction rooms as [|r rooms IH]; simpl.
  - split; [done|]. by intros [?%elem_of_nil _].
  - simpl in Hnd. apply NoDup_cons in Hnd as [Hr Hnd].
    case_bool_decide as Hid.
    + split.
      * intros [= <-]. split; [left|done].
      * intros [[->|Hin]%elem_of_cons Hroom]; [done|].
        destruct Hr. rewrite Hid, <- Hroom. apply list_elem_of_fmap. eauto.
    + rewrite (IH Hnd). split.
      * intros [? ?]. split; [by right|done].
      * intros [[->|Hin]%elem_of_cons Hroom]; [done|]. done.
Qed.

(** On a cot number that is a number with an integer value the route
    compares, queries and stores that integer. *)
Lemma bookCot_integer rooms bookings studentId roomId n razorpayOrder newId room :
  roomId ≠ "" →
  find (λ r, bool_decide (hr_id r = roomId)) rooms = Some room →
  1 ≤ n ≤ hr_cotCount room → n ≤ 2 ^ 53 →
  bookCot rooms bookings studentId roomId (JsNumber n) razorpayOrder newId
  = match find (λ b, bool_decide (cb_roomId b = roomId)
                     && bool_decide (cb_cotNumber b = n)) bookings with
    | Some _ => Some (BookingCotTaken, [])
    | None =>
      match find (λ b, bool_decide (cb_studentId b = studentId)) bookings with
      | Some _ => Some (BookingStudentHasOne, [])
      | None =>
        match razorpayOrder with
        | None => Some (BookingOrderFailed, [])
        | Some orderId =>
          let booking :=
            {| cb_id := newId; cb_roomId := roomId; cb_cotNumber := n;
               cb_studentId := studentId; cb_paymentStatus := PENDING;
               cb_razorpayOrderId := orderId |} in
          Some (BookingCreated booking,
                [BookingCreate booking; BookingCacheDel; BookingCacheDel])
        end
      end
    end.
Proof.
  intros Hid Hroom Hn Hsafe. unfold bookCot.
  rewrite bool_decide_eq_false_2 by done.
  assert (toBoolean (JsNumber n) = true) as ->
    by (simpl; apply negb_true_iff; lia).
  cbn [negb orb]. rewrite Hroom, jsLt_integer, jsGt_integer.
  unfold jsOr. cbn [mbind option_bind].
  assert ((n <? 1) = false) as -> by lia.
  assert ((hr_cotCount room <? n) = false) as -> by lia.
  unfold parseInt, exactNum.
  rewrite (proj2 (Z.leb_le _ _)) by lia. done.
Qed.

(** A booking that got past the checks: the cot read by [parseInt], and
    what the checks found. *)
Lemma bookCot_passed rooms bookings studentId roomId cotNumber razorpayOrder newId
    response effects :
  bookCot rooms bookings studentId roomId cotNumber razorpayOrder newId
    = Some (response, effects) →
  response = BookingOrderFailed ∨ (∃ b, response = BookingCreated b) →
  ∃ room cot,
    roomId ≠ ""
    ∧ find (λ r, bool_decide (hr_id r = roomId)) rooms = Some room
    ∧ jsOr (jsLt cotNumber 1) (jsGt cotNumber (hr_cotCount room)) = Some false
    ∧ parseInt cotNumber = Some (Num cot)
    ∧ (∀ b, b ∈ bookings → cb_roomId b = roomId → cb_cotNumber b ≠ cot)
    ∧ (∀ b, b ∈ bookings → cb_studentId b ≠ studentId)
    ∧ ∀ b, response = BookingCreated b →
        effects = [BookingCreate b; BookingCacheDel; BookingCacheDel]
        ∧ cb_roomId b = roomId ∧ cb_cotNumber b = cot ∧ cb_studentId b = studentId
        ∧ cb_paymentStatus b = PENDING.
Proof.
  unfold bookCot.
  destruct (decide (roomId = "")) as [->|Hid].
  { simpl. intros [= <- _] [?|[? ?]]; done. }
  rewrite bool_decide_eq_false_2 by done.
  destruct (toBoolean cotNumber); cbn [negb orb];
    [|intros [= <- _] [?|[? ?]]; done].
  destruct (find _ rooms) as [room|] eqn:Hroom; [|intros [= <- _] [?|[? ?]]; done].
  destruct (jsOr _ _) as [[]|] eqn:Hrange; cbn [mbind option_bind];
    [intros [= <- _] [?|[? ?]]; done| |done].
  destruct (parseInt cotNumber) as [[cot|]|] eqn:Hcot; cbn [storedInt mbind option_bind];
    [|done|done].
  destruct (find _ bookings) as [?|] eqn:Htaken; [intros [= <- _] [?|[? ?]]; done|].
  destruct (find (λ b, bool_decide (cb_studentId b = studentId)) bookings)
    as [?|] eqn:Hown; [intros [= <- _] [?|[? ?]]; done|].
  rewrite find_None in Htaken. rewrite find_None in Hown.
  intros Hresult _. exists room, cot. split_and!; [done..| | |].
  - intros b Hb Hr Hc. specialize (Htaken b Hb).
    by rewrite !bool_decide_eq_true_2 in Htaken.
  - intros b Hb Hs. specialize (Hown b Hb).
    by rewrite bool_decide_eq_true_2 in Hown.
  - intros b ->. destruct razorpayOrder; [|done].
    by injection Hresult as <- <-.
Qed.

(** X25. With unique room ids, a booking request whose cot number is a
    number with an integer value gets as far as the payment order
    exactly when the room exists, the cot is one the list route
    reports free for that room, and the student has no booking row at
    all (of whatever payment status). *)
Theorem booking_reaches_payment_exactly rooms bookings studentId roomId n
    razorpayOrder newId :
  NoDup (map hr_id rooms) →
  n ≤ 2 ^ 53 →
  (bookCot rooms bookings studentId roomId (JsNumber n) razorpayOrder newId
     = Some (BookingOrderFailed, [])
   ∨ ∃ b effects,
       bookCot rooms bookings studentId roomId (JsNumber n) razorpayOrder newId
       = Some (BookingCreated b, effects))
  ↔ roomId ≠ ""
    ∧ (∃ room, room ∈ rooms ∧ hr_id room = roomId
               ∧ n ∈ availableCots (hr_cotCount room) (bookingsOf roomId bookings))
    ∧ ∀ b, b ∈ bookings → cb_studentId b ≠ studentId.
Proof.
  intros Hrooms Hsafe.
  pose proof (availableCots_spec) as Havail.
  split.
  - intros Hpassed.
    assert (∃ response effects,
              bookCot rooms bookings studentId roomId (JsNumber n) razorpayOrder newId
                = Some (response, effects)
              ∧ (response = BookingOrderFailed ∨ ∃ b, response = BookingCreated b))
      as (response & effects & Hbook & Hresp).
    { destruct Hpassed as [?|(b & effects & ?)]; eauto 6. }
    destruct (bookCot_passed _ _ _ _ _ _ _ _ _ Hbook Hresp)
      as (room & cot & Hid & Hroom & Hrange & Hcot & Hfree & Hown & _).
    apply (find_room _ _ _ Hrooms) in Hroom as [Hin Hrid].
    rewrite jsLt_integer, jsGt_integer in Hrange. unfold jsOr in Hrange.
    cbn [mbind option_bind] in Hrange.
    assert (cot = n) as ->.
    { unfold parseInt, exactNum in Hcot. by destruct (_ <=? _); simplify_eq. }
    split_and!; [done| |done].
    exists room. split_and!; [done..|]. apply Havail. split.
    + destruct (n <? 1) eqn:?; [done|]. injection Hrange as Hhi. lia.
    + intros b [Hr Hb]%list_elem_of_filter. by apply Hfree.
  - intros (Hid & (room & Hin & Hrid & Hcot) & Hown).
    apply Havail in Hcot as [Hn Hfree].
    assert (find (λ r, bool_decide (hr_id r = roomId)) rooms = Some room) as Hroom
      by (by apply find_room).
    rewrite (bookCot_integer _ _ _ _ _ _ _ room) by done.
    assert (find (λ b, bool_decide (cb_roomId b = roomId)
                       && bool_decide (cb_cotNumber b = n)) bookings = None) as ->.
    { apply find_None. intros b Hb.
      destruct (decide (cb_roomId b = roomId)) as [Hr|Hr].
      - rewrite (bool_decide_eq_true_2 _ Hr). apply bool_decide_eq_false_2.
        apply Hfree. by apply list_elem_of_filter.
      - by rewrite (bool_decide_eq_false_2 _ Hr). }
    assert (find (λ b, bool_decide (cb_studentId b = studentId)) bookings = None) as ->.
    { apply find_None. intros b Hb. apply bool_decide_eq_false_2. by apply Hown. }
    destruct razorpayOrder; [right; eauto|by left].
Qed.

Lemma booking_reaches_payment_exactly_witness :
  (bookCot [ {| hr_id := "r1"; hr_cotCount := 2 |} ] [] "S1" "r1" (JsNumber 2)
     (Some "o1") "b1" = Some (BookingOrderFailed, [])
   ∨ ∃ b effects,
       bookCot [ {| hr_id := "r1"; hr_cotCount := 2 |} ] [] "S1" "r1" (JsNumber 2)
         (Some "o1") "b1" = Some (BookingCreated b, effects))
  ↔ "r1" ≠ ""
    ∧ (∃ room, room ∈ [ {| hr_id := "r1"; hr_cotCount := 2 |} ] ∧ hr_id room = "r1"
               ∧ 2 ∈ availableCots (hr_cotCount room) (bookingsOf "r1" []))
    ∧ ∀ b, b ∈ [] → cb_studentId b ≠ "S1".
Proof.
  apply (booking_reaches_payment_exactly [ {| hr_id := "r1"; hr_cotCount := 2 |} ]).
  - compute_done.
  - done.
Defined.

Lemma bookingsOf_app roomId l1 l2 :
  bookingsOf roomId (l1 ++ l2) = bookingsOf roomId l1 ++ bookingsOf roomId l2.
Proof. unfold bookingsOf. apply filter_app. Qed.

(** X26. A created booking takes exactly its cot, the one [parseInt]
    reads from the request, off the list of free cots of its room,
    whatever comes of the payment, and leaves the lists of all other
    rooms as they were. *)
Theorem booked_cot_leaves_the_list rooms bookings studentId roomId cotNumber
    razorpayOrder newId b effects :
  bookCot rooms bookings studentId roomId cotNumber razorpayOrder newId
    = Some (BookingCreated b, effects) →
  parseInt cotNumber = Some (Num (cb_cotNumber b))
  ∧ ∀ room cotCount,
      availableCots cotCount (bookingsOf room (persistBookings bookings effects))
      = if decide (room = roomId)
        then filter (λ cot, cot ≠ cb_cotNumber b)
               (availableCots cotCount (bookingsOf room bookings))
        else availableCots cotCount (bookingsOf room bookings).
Proof.
  intros Hbook.
  destruct (bookCot_passed _ _ _ _ _ _ _ _ _ Hbook (or_intror (ex_intro _ b eq_refl)))
    as (_ & cot & _ & _ & _ & Hparse & _ & _ & Hcreated).
  destruct (Hcreated b eq_refl) as (-> & Hroom & Hcot & _).
  rewrite Hcot. split; [done|]. intros room cotCount.
  change (persistBookings bookings [BookingCreate b; BookingCacheDel; BookingCacheDel])
    with (bookings ++ [b]).
  rewrite bookingsOf_app. unfold bookingsOf at 2.
  rewrite filter_cons, filter_nil. rewrite Hroom.
  destruct (decide (room = roomId)) as [->|Hne].
  - rewrite decide_True by done. unfold availableCots.
    rewrite list_filter_filter. apply list_filter_iff. intros c.
    rewrite map_app, not_elem_of_app. simpl. rewrite Hcot.
    rewrite list_elem_of_singleton. tauto.
  - rewrite decide_False by done. by rewrite app_nil_r.
Qed.

Lemma booked_cot_leaves_the_list_witness :
  parseInt (JsString "2nd")
    = Some (Num (cb_cotNumber
                   {| cb_id := "b1"; cb_roomId := "r1"; cb_cotNumber := 2;
                      cb_studentId := "S1"; cb_paymentStatus := PENDING;
                      cb_razorpayOrderId := "o1" |}))
  ∧ ∀ room cotCount,
      availableCots cotCount
        (bookingsOf room
           (persistBookings []
              [ BookingCreate
                  {| cb_id := "b1"; cb_roomId := "r1"; cb_cotNumber := 2;
                     cb_studentId := "S1"; cb_paymentStatus := PENDING;
                     cb_razorpayOrderId := "o1" |};
                BookingCacheDel; BookingCacheDel ]))
      = if decide (room = "r1")
        then filter (λ cot, cot ≠ cb_cotNumber
                                    {| cb_id := "b1"; cb_roomId := "r1";
                                       cb_cotNumber := 2; cb_studentId := "S1";
                                       cb_paymentStatus := PENDING;
                                       cb_razorpayOrderId := "o1" |})
               (availableCots cotCount (bookingsOf room []))
        else availableCots cotCount (bookingsOf room []).
Proof.
  apply (booked_cot_leaves_the_list [ {| hr_id := "r1"; hr_cotCount := 2 |} ] []
           "S1" "r1" (JsString "2nd") (Some "o1") "b1").
  by vm_compute.
Defined.

(** The status update of the verification route, on one row. *)
Lemma verify_updates bookings studentId bookingId order payment signature generated :
  ∃ status,
    persistBookings bookings
      (verifyPayment bookings studentId bookingId order payment signature generated).2
    = bookings
    ∨ persistBookings bookings
        (verifyPayment bookings studentId bookingId order payment signature generated).2
      = applyBookingEffect bookings (BookingUpdateStatus bookingId status).
Proof.
  unfold verifyPayment. repeat case_match; simpl.
  all: try (by exists FAILED; left).
  exists FAILED. by right.
Qed.

Lemma find_map_invariant {A} (p : A → bool) (f : A → A) (l : list A) :
  (∀ x, p (f x) = p x) → find p (map f l) = f <$> find p l.
Proof.
  intros Hp. induction l as [|a l IH]; simpl; [done|].
  rewrite Hp. by destruct (p a).
Qed.

Lemma filter_map_invariant {A} (P : A → Prop) `{∀ x, Decision (P x)} (f : A → A)
    (l : list A) :
  (∀ x, P (f x) ↔ P x) → filter P (map f l) = map f (filter P l).
Proof.
  intros HP. induction l as [|a l IH]; simpl; [done|].
  rewrite !filter_cons. destruct (decide (P a)) as [Ha|Ha].
  - rewrite decide_True by by apply HP. simpl. by rewrite IH.
  - rewrite decide_False by by rewrite HP. done.
Qed.

Lemma update_status_fields bookingId status bookings :
  map cb_roomId (applyBookingEffect bookings (BookingUpdateStatus bookingId status))
    = map cb_roomId bookings
  ∧ map cb_cotNumber (applyBookingEffect bookings (BookingUpdateStatus bookingId status))
    = map cb_cotNumber bookings
  ∧ map cb_studentId (applyBookingEffect bookings (BookingUpdateStatus bookingId status))
    = map cb_studentId bookings
  ∧ map cb_id (applyBookingEffect bookings (BookingUpdateStatus bookingId status))
    = map cb_id bookings.
Proof.
  simpl. rewrite !map_map. split_and!; apply map_ext; intros b; by case_bool_decide.
Qed.

Lemma update_status_available bookingId status bookings room cotCount :
  availableCots cotCount
    (bookingsOf room (applyBookingEffect bookings (BookingUpdateStatus bookingId status)))
  = availableCots cotCount (bookingsOf room bookings).
Proof.
  unfold availableCots, bookingsOf. simpl.
  rewrite filter_map_invariant by (intros b; by case_bool_decide).
  rewrite map_map.
  rewrite (map_ext _ cb_cotNumber); [done|]. intros b. by case_bool_decide.
Qed.

Lemma update_status_bookCot bookingId status rooms bookings studentId roomId cotNumber
    razorpayOrder newId :
  bookCot rooms (applyBookingEffect bookings (BookingUpdateStatus bookingId status))
    studentId roomId cotNumber razorpayOrder newId
  = bookCot rooms bookings studentId roomId cotNumber razorpayOrder newId.
Proof.
  unfold bookCot.
  destruct (_ || _); [done|].
  destruct (find _ rooms) as [room|]; [|done].
  destruct (jsOr _ _) as [[]|]; cbn [mbind option_bind]; [done| |done].
  destruct (storedInt _) as [cot|]; cbn [mbind option_bind]; [|done].
  cbn [applyBookingEffect].
  rewrite !find_map_invariant
    by (intros b; by destruct (bool_decide (cb_id b = bookingId))).
  repeat case_match; simplify_eq/=; try done.
Qed.

(** X27. Payment verification never frees a cot or a student: whatever it
    answers, every room's list of free cots is the same afterwards,
    and so is the outcome of every booking request.  In particular a
    booking whose payment failed keeps its cot and keeps its student
    from booking again. *)
Theorem verification_never_frees_a_cot bookings studentId bookingId order payment
    signature generated :
  (∀ room cotCount,
     availableCots cotCount
       (bookingsOf room
          (persistBookings bookings
             (verifyPayment bookings studentId bookingId order payment signature
                generated).2))
     = availableCots cotCount (bookingsOf room bookings))
  ∧ (∀ rooms student roomId cotNumber razorpayOrder newId,
       bookCot rooms
         (persistBookings bookings
            (verifyPayment bookings studentId bookingId order payment signature
               generated).2)
         student roomId cotNumber razorpayOrder newId
       = bookCot rooms bookings student roomId cotNumber razorpayOrder newId).
Proof.
  destruct (verify_updates bookings studentId bookingId order payment signature
              generated) as [status [-> | ->]]; [done|].
  split.
  - intros. apply update_status_available.
  - intros. apply update_status_bookCot.
Qed.

(** X28. A failed verification is final: after a verification that
    found the pending booking and rejected its signature, the booking
    is marked FAILED, and every further verification of that booking
    id, also one with the right signature, is turned away without a
    store call. *)
Theorem failed_verification_is_final bookings studentId bookingId order payment
    signature generated :
  (verifyPayment bookings studentId bookingId order payment signature generated).1
    = VerifyInvalidSignature →
  (verifyPayment bookings studentId bookingId order payment signature generated).2
    = [BookingUpdateStatus bookingId FAILED]
  ∧ ∀ student' order' payment' signature' generated',
      verifyPayment
        (persistBookings bookings
           (verifyPayment bookings studentId bookingId order payment signature
              generated).2)
        student' bookingId order' payment' signature' generated'
      = (VerifyRequired, [])
      ∨ verifyPayment
          (persistBookings bookings
             (verifyPayment bookings studentId bookingId order payment signature
                generated).2)
          student' bookingId order' payment' signature' generated'
        = (VerifyBookingNotFound, []).
Proof.
  intros Hfound.
  assert ((verifyPayment bookings studentId bookingId order payment signature
             generated).2 = [BookingUpdateStatus bookingId FAILED]) as ->.
  { revert Hfound. unfold verifyPayment. by repeat case_match. }
  split; [done|]. intros student' order' payment' signature' generated'.
  change (persistBookings bookings [BookingUpdateStatus bookingId FAILED])
    with (applyBookingEffect bookings (BookingUpdateStatus bookingId FAILED)).
  unfold verifyPayment.
  destruct (_ || _) eqn:Hreq; [by left|]. right.
  assert (find (λ b, bool_decide (cb_id b = bookingId)
                     && bool_decide (cb_studentId b = student')
                     && bool_decide (cb_razorpayOrderId b = order')
                     && bool_decide (cb_paymentStatus b = PENDING))
            (applyBookingEffect bookings (BookingUpdateStatus bookingId FAILED))
          = None) as ->; [|done].
  apply find_None. intros b. simpl.
  intros (b0 & -> & Hb0)%list_elem_of_fmap.
  destruct (decide (cb_id b0 = bookingId)) as [Hid|Hid].
  - rewrite (bool_decide_eq_true_2 _ Hid). simpl.
    by rewrite andb_false_r.
  - rewrite !(bool_decide_eq_false_2 _ Hid). done.
Qed.

Lemma failed_verification_is_final_witness :
  (verifyPayment
     [ {| cb_id := "b1"; cb_roomId := "r1"; cb_cotNumber := 2; cb_studentId := "S1";
          cb_paymentStatus := PENDING; cb_razorpayOrderId := "o1" |} ]
     "S1" "b1" "o1" "p1" "forged" "sig").2
    = [BookingUpdateStatus "b1" FAILED]
  ∧ ∀ student' order' payment' signature' generated',
      verifyPayment
        (persistBookings
           [ {| cb_id := "b1"; cb_roomId := "r1"; cb_cotNumber := 2;
                cb_studentId := "S1"; cb_paymentStatus := PENDING;
                cb_razorpayOrderId := "o1" |} ]
           (verifyPayment
              [ {| cb_id := "b1"; cb_roomId := "r1"; cb_cotNumber := 2;
                   cb_studentId := "S1"; cb_paymentStatus := PENDING;
                   cb_razorpayOrderId := "o1" |} ]
              "S1" "b1" "o1" "p1" "forged" "sig").2)
        student' "b1" order' payment' signature' generated'
      = (VerifyRequired, [])
      ∨ verifyPayment
          (persistBookings
             [ {| cb_id := "b1"; cb_roomId := "r1"; cb_cotNumber := 2;
                  cb_studentId := "S1"; cb_paymentStatus := PENDING;
                  cb_razorpayOrderId := "o1" |} ]
             (verifyPayment
                [ {| cb_id := "b1"; cb_roomId := "r1"; cb_cotNumber := 2;
                     cb_studentId := "S1"; cb_paymentStatus := PENDING;
                     cb_razorpayOrderId := "o1" |} ]
                "S1" "b1" "o1" "p1" "forged" "sig").2)
          student' "b1" order' payment' signature' generated'
        = (VerifyBookingNotFound, []).
Proof.
  apply (failed_verification_is_final
           [ {| cb_id := "b1"; cb_roomId := "r1"; cb_cotNumber := 2; cb_studentId := "S1";
                cb_paymentStatus := PENDING; cb_razorpayOrderId := "o1" |} ]
           "S1" "b1" "o1" "p1" "forged" "sig").
  reflexivity.
Defined.

Lemma update_status_consistent rooms bookings bookingId status :
  consistentBookings rooms bookings →
  consistentBookings rooms
    (applyBookingEffect bookings (BookingUpdateStatus bookingId status)).
Proof.
  intros (Hcots & Hstudents & Hrange).
  destruct (update_status_fields bookingId status bookings)
    as (Hr & Hc & Hs & _).
  split_and!.
  - assert (map (λ b, (cb_roomId b, cb_cotNumber b))
              (applyBookingEffect bookings (BookingUpdateStatus bookingId status))
            = map (λ b, (cb_roomId b, cb_cotNumber b)) bookings) as ->; [|done].
    simpl. rewrite map_map. apply map_ext. intros b. by case_bool_decide.
  - by rewrite Hs.
  - simpl. intros b (b0 & -> & Hb0)%list_elem_of_fmap.
    destruct (Hrange b0 Hb0) as (room & ? & ? & ?).
    exists room. by case_bool_decide.
Qed.

Lemma bookCot_consistent rooms bookings studentId roomId n razorpayOrder newId
    response effects :
  consistentBookings rooms bookings →
  bookCot rooms bookings studentId roomId (JsNumber n) razorpayOrder newId
    = Some (response, effects) →
  consistentBookings rooms (persistBookings bookings effects).
Proof.
  intros Hcons Hbook. pose proof Hcons as (Hcots & Hstudents & Hrange).
  destruct response;
    try (revert Hbook; unfold bookCot; repeat case_match;
         repeat (destruct (jsOr _ _) as [[]|]; cbn [mbind option_bind]);
         repeat (destruct (storedInt _); cbn [mbind option_bind]);
         repeat case_match; by intros [= <-]).
  destruct (bookCot_passed _ _ _ _ _ _ _ _ _ Hbook (or_intror (ex_intro _ b eq_refl)))
    as (room & cot & _ & Hroom & Hin & Hparse & Hfree & Hown & Hcreated).
  destruct (Hcreated b eq_refl) as (-> & Hr & Hc & Hs & _).
  apply find_some in Hroom as [Hroom%list_elem_of_In Hid%bool_decide_eq_true].
  assert (cot = n) as ->.
  { unfold parseInt, exactNum in Hparse. by destruct (_ <=? _); simplify_eq. }
  rewrite jsLt_integer, jsGt_integer in Hin. unfold jsOr in Hin.
  cbn [mbind option_bind] in Hin.
  change (persistBookings bookings [BookingCreate b; BookingCacheDel; BookingCacheDel])
    with (bookings ++ [b]).
  split_and!.
  - rewrite map_app. simpl. apply NoDup_app. split_and!; [done| |apply NoDup_singleton].
    intros [r c] (b' & [= -> ->] & Hb')%list_elem_of_fmap
      [= Hr' Hc']%list_elem_of_singleton.
    apply (Hfree b' Hb'); congruence.
  - rewrite map_app. simpl. apply NoDup_app. split_and!; [done| |apply NoDup_singleton].
    intros s (b' & -> & Hb')%list_elem_of_fmap Hs'%list_elem_of_singleton.
    apply (Hown b' Hb'). congruence.
  - intros b' [Hb'| ->%list_elem_of_singleton]%elem_of_app; [by apply Hrange|].
    exists room. rewrite Hr, Hc. split_and!; [done..| |].
    + destruct (n <? 1) eqn:?; [done|]. lia.
    + destruct (n <? 1) eqn:?; [done|]. injection Hin as Hhi. lia.
Qed.

(** X29. The booking route, on a cot number that is a number with an
    integer value, and the verification route keep the booking table
    consistent: no cot of a room and no student comes to stand in two
    rows, and every row stays on a cot its room has. *)
Theorem booking_routes_keep_table_consistent rooms bookings request bookings' :
  integerCot request →
  consistentBookings rooms bookings →
  serveBooking rooms bookings request = Some bookings' →
  consistentBookings rooms bookings'.
Proof.
  intros Hint Hcons. destruct request as [s r c o n|s b o p sg g];
    cbn [serveBooking].
  - destruct Hint as [k ->].
    destruct (bookCot _ _ _ _ _ _ _) as [[response effects]|] eqn:Hbook;
      cbn [mbind option_bind]; [|done].
    intros [= <-]. by eapply bookCot_consistent.
  - intros [= <-].
    destruct (verify_updates bookings s b o p sg g) as [status [-> | ->]]; [done|].
    by apply update_status_consistent.
Qed.

Lemma booking_routes_keep_table_consistent_witness :
  consistentBookings [ {| hr_id := "r1"; hr_cotCount := 2 |} ]
    [ {| cb_id := "b1"; cb_roomId := "r1"; cb_cotNumber := 2; cb_studentId := "S1";
         cb_paymentStatus := PENDING; cb_razorpayOrderId := "o1" |} ].
Proof.
  apply (booking_routes_keep_table_consistent [ {| hr_id := "r1"; hr_cotCount := 2 |} ]
           [] (BookRequest "S1" "r1" (JsNumber 2) (Some "o1") "b1")).
  - by exists 2.
  - split_and!; [apply NoDup_nil_2..|]. intros b Hb. by apply elem_of_nil in Hb.
  - reflexivity.
Defined.

Lemma NoDup_fmap_eq {A B} (f : A → B) (l : list A) x y :
  NoDup (map f l) → x ∈ l → y ∈ l → f x = f y → x = y.
Proof.
  induction l as [|a l IH]; simpl; [by intros _ ?%elem_of_nil|].
  rewrite NoDup_cons. intros [Ha Hnd] [->|Hx]%elem_of_cons [->|Hy]%elem_of_cons Hf.
  - done.
  - destruct Ha. rewrite Hf. apply list_elem_of_fmap. eauto.
  - destruct Ha. rewrite <- Hf. apply list_elem_of_fmap. eauto.
  - by apply IH.
Qed.

Lemma room_cots_distinct roomId bookings :
  NoDup (map (λ b, (cb_roomId b, cb_cotNumber b)) bookings) →
  NoDup (map cb_cotNumber (bookingsOf roomId bookings)).
Proof.
  unfold bookingsOf. induction bookings as [|b bookings IH]; simpl.
  { intros _. apply NoDup_nil_2. }
  rewrite NoDup_cons. intros [Hb Hnd]. rewrite filter_cons.
  destruct (decide (cb_roomId b = roomId)) as [Hr|Hr]; [|by apply IH].
  simpl. apply NoDup_cons. split; [|by apply IH].
  intros (b' & Hc & [Hr' Hb']%list_elem_of_filter)%list_elem_of_fmap.
  apply Hb. apply list_elem_of_fmap. exists b'. split; [|done].
  by rewrite Hr, Hr', Hc.
Qed.

Lemma consistent_counts rooms bookings room :
  NoDup (map hr_id rooms) → consistentBookings rooms bookings →
  room ∈ rooms → 0 ≤ hr_cotCount room →
  availableCotsCount (hr_cotCount room) (bookingsOf (hr_id room) bookings)
  = Z.of_nat (length (availableCots (hr_cotCount room)
       (bookingsOf (hr_id room) bookings))).
Proof.
  intros Hrooms (Hcots & _ & Hrange) Hroom Hcount.
  apply availableCotsCount_spec; [done|]. split.
  - by apply room_cots_distinct.
  - intros b [Hr Hb]%list_elem_of_filter.
    destruct (Hrange b Hb) as (room' & Hroom' & Hid & Hin).
    assert (room' = room) as ->; [|done].
    apply (NoDup_fmap_eq hr_id rooms); [done..|]. by rewrite Hid.
Qed.

Lemma served_consistent rooms requests :
  ∀ bookings bookings',
    Forall integerCot requests →
    consistentBookings rooms bookings →
    serveBookings rooms bookings requests = Some bookings' →
    consistentBookings rooms bookings'.
Proof.
  unfold serveBookings.
  induction requests as [|request requests IH]; intros bookings bookings' Hint Hcons.
  - by intros [= <-].
  - apply Forall_cons in Hint as [Hint Hints]. cbn [foldl mbind option_bind].
    destruct (serveBooking rooms bookings request) as [next|] eqn:Hnext.
    + apply IH; [done|].
      destruct request as [s r c o n|s b o p sg g]; cbn [serveBooking] in Hnext.
      * destruct Hint as [k ->].
        destruct (bookCot _ _ _ _ _ _ _) as [[response effects]|] eqn:Hbook;
          cbn [mbind option_bind] in Hnext; [|done].
        injection Hnext as <-. by eapply bookCot_consistent.
      * injection Hnext as <-.
        destruct (verify_updates bookings s b o p sg g) as [status [-> | ->]]; [done|].
        by apply update_status_consistent.
    + clear. induction requests as [|? ? IH']; [done|]. exact IH'.
Qed.

(** X30. Whatever requests the two booking routes have served, starting
    from an empty booking table, with cot numbers that are numbers
    with an integer value, the list route's count of free cots is the
    number of cots it lists as free, for every room. *)
Theorem served_bookings_report_true_counts rooms requests bookings room :
  NoDup (map hr_id rooms) → room ∈ rooms → 0 ≤ hr_cotCount room →
  Forall integerCot requests →
  serveBookings rooms [] requests = Some bookings →
  availableCotsCount (hr_cotCount room) (bookingsOf (hr_id room) bookings)
  = Z.of_nat (length (availableCots (hr_cotCount room)
       (bookingsOf (hr_id room) bookings))).
Proof.
  intros Hrooms Hroom Hcount Hint Hserved.
  apply (consistent_counts rooms); [done| |done..].
  apply (served_consistent rooms requests [] bookings); [done| |done].
  split_and!; [apply NoDup_nil_2..|]. intros b Hb. by apply elem_of_nil in Hb.
Qed.

Lemma served_bookings_report_true_counts_witness :
  availableCotsCount 2
    (bookingsOf "r1"
       [ {| cb_id := "b1"; cb_roomId := "r1"; cb_cotNumber := 2; cb_studentId := "S1";
            cb_paymentStatus := FAILED; cb_razorpayOrderId := "o1" |} ])
  = Z.of_nat (length (availableCots 2
       (bookingsOf "r1"
          [ {| cb_id := "b1"; cb_roomId := "r1"; cb_cotNumber := 2;
               cb_studentId := "S1"; cb_paymentStatus := FAILED;
               cb_razorpayOrderId := "o1" |} ]))).
Proof.
  apply (served_bookings_report_true_counts [ {| hr_id := "r1"; hr_cotCount := 2 |} ]
           [ BookRequest "S1" "r1" (JsNumber 2) (Some "o1") "b1";
             VerifyRequest "S1" "b1" "o1" "p1" "forged" "sig";
             BookRequest "S2" "r1" (JsNumber 2) (Some "o2") "b2" ]
           _ {| hr_id := "r1"; hr_cotCount := 2 |}).
  - compute_done.
  - by left.
  - simpl. lia.
  - repeat constructor; by eexists.
  - reflexivity.
Defined.
